(** * NeoMutt, conn/ssl_gnutls.c: the certificate trust engine

    A shallow embedding of the GnuTLS certificate check of NeoMutt
    ([tls_fingerprint], [tls_check_stored_hostname],
    [tls_compare_certificates], [tls_check_preauth],
    [tls_check_one_certificate], [tls_check_certificate]) and the
    properties of it that the design document states.

    GnuTLS itself (X.509 parsing, digests, PEM coding, chain verification)
    is outside the program: it enters through the record [Gnutls], one
    field per library call.  The certificate file, the credentials, the
    keyboard and the outcome of file operations form the [World] that the
    stateful functions pass along. *)

From Stdlib Require Import ZArith List Bool Ascii String Lia.
From Stdlib.Strings Require Import Byte.
Import ListNotations.
Local Open Scope string_scope.
Local Open Scope Z_scope.

(** ** Constants *)

Module Certerr.
(** [#define CERTERR_...]: the certificate error bitmap. *)
Definition VALID : Z := 0.
Definition EXPIRED : Z := 1.
Definition NOTYETVALID : Z := 2.
Definition REVOKED : Z := 4.
Definition NOTTRUSTED : Z := 8.
Definition HOSTNAME : Z := 16.
Definition SIGNERNOTCA : Z := 32.
Definition INSECUREALG : Z := 64.
Definition OTHER : Z := 128.
End Certerr.

Module GnutlsCert.
(** [gnutls_certificate_status_t] of <gnutls/gnutls.h>. *)
Definition INVALID : Z := 2.
Definition REVOKED : Z := 32.
Definition SIGNER_NOT_FOUND : Z := 64.
Definition SIGNER_NOT_CA : Z := 128.
Definition INSECURE_ALGORITHM : Z := 256.
(** [GNUTLS_E_NO_CERTIFICATE_FOUND] is -49; [tls_verify_peers] compares it
    with an [unsigned int], which sees it as 2^32 - 49. *)
Definition E_NO_CERTIFICATE_FOUND_as_unsigned : Z := 4294967247.
End GnutlsCert.

(** ** Characters and strings *)

Definition LF : ascii := "010"%char.
Definition CR : ascii := "013"%char.
Definition TAB : ascii := "009"%char.
Definition SPACE : ascii := " "%char.

Definition char_between (lo hi c : ascii) : bool :=
  (nat_of_ascii lo <=? nat_of_ascii c)%nat && (nat_of_ascii c <=? nat_of_ascii hi)%nat.

Fixpoint string_take (n : nat) (s : string) : string :=
  match n, s with
  | S k, String c r => String c (string_take k r)
  | _, _ => EmptyString
  end.

Fixpoint string_drop (n : nat) (s : string) : string :=
  match n, s with
  | S k, String _ r => string_drop k r
  | _, _ => s
  end.

(** the byte that ends a C string *)
Definition NUL : ascii := Ascii.zero.

(** C's [strstr] on a buffer that may hold more bytes than its C string:
    the rest of the buffer from the first occurrence of [needle] on.  The
    search ends at the first NUL byte of [hay]; what the buffer holds behind
    it is not looked at.  [needle] is a literal without a NUL byte. *)
Fixpoint strstr (hay needle : string) : option string :=
  if String.prefix needle hay then Some hay
  else match hay with
       | EmptyString => None
       | String c r => if Ascii.eqb c NUL then None else strstr r needle
       end.

(** A [gnutls_datum_t]: a run of raw bytes. *)
Definition datum := list byte.

Fixpoint datum_eqb (a b : datum) : bool :=
  match a, b with
  | [], [] => true
  | x :: a', y :: b' => Byte.eqb x y && datum_eqb a' b'
  | _, _ => false
  end.

(** ** The library *)

Inductive digest_algorithm := GNUTLS_DIG_MD5 | GNUTLS_DIG_SHA | GNUTLS_DIG_SHA256.

(** The calls into GnuTLS and the configuration the check reads. *)
Record Gnutls := {
  (** [conn->account.host] *)
  account_host : string;
  (** [$certificate_file] is set *)
  C_CertificateFile : bool;
  (** [$ssl_verify_dates != MUTT_NO] and [$ssl_verify_host != MUTT_NO] *)
  C_SslVerifyDates : bool;
  C_SslVerifyHost : bool;
  mutt_date_epoch : Z;
  (** [gnutls_x509_crt_init] followed by [gnutls_x509_crt_import] succeed *)
  x509_crt_import : datum -> bool;
  x509_crt_get_expiration_time : datum -> Z;
  x509_crt_get_activation_time : datum -> Z;
  x509_crt_check_hostname : datum -> string -> bool;
  (** [gnutls_fingerprint]: the digest bytes, or a failure *)
  gnutls_fingerprint : digest_algorithm -> datum -> option (list byte);
  (** [gnutls_pem_base64_decode_alloc] with no header: the first PEM block
      of the text, decoded *)
  pem_base64_decode : string -> option datum;
  (** [gnutls_pem_base64_encode_alloc "CERTIFICATE"] *)
  pem_base64_encode : datum -> option string;
  (** [gnutls_auth_get_type (state) == GNUTLS_CRD_CERTIFICATE] *)
  auth_is_certificate : bool;
  (** [gnutls_certificate_get_peers]: the peer's chain, leaf first; the
      library hands back NULL where this list is empty *)
  certificate_get_peers : list datum;
  (** [gnutls_certificate_verify_peers2] against the anchors added so far:
      its return value and the status it stores *)
  certificate_verify_peers2 : list datum -> Z * Z;
  (** [gnutls_certificate_type_get (state) == GNUTLS_CRT_X509] *)
  certificate_type_is_x509 : bool;
  (** [gnutls_certificate_set_x509_trust_mem]: the new anchors and the
      return value *)
  certificate_set_x509_trust_mem : list datum -> datum -> list datum * Z
}.

(** ** tls_fingerprint *)

Definition hex_digit (n : N) : ascii :=
  match String.get (N.to_nat n) "0123456789ABCDEF" with
  | Some c => c
  | None => "0"%char
  end.

(** [snprintf (ch, 8, "%02X%s", md[i], ((i % 2) ? " " : ""))] *)
Definition fingerprint_octet (i : nat) (b : byte) : string :=
  String (hex_digit (N.div (Byte.to_N b) 16))
    (String (hex_digit (N.modulo (Byte.to_N b) 16))
       (if Nat.odd i then " " else "")).

Fixpoint fingerprint_octets (i : nat) (md : list byte) : string :=
  match md with
  | [] => ""
  | b :: rest => fingerprint_octet i b ++ fingerprint_octets (S i) rest
  end.

(** [tls_fingerprint (algo, buf, buflen, data)] on a [buf] that starts empty,
    as every caller passes it.  [mutt_str_strcat] never lets the text grow
    beyond [buflen - 1] characters; the final store of a NUL at
    [2 * n + n / 2 - 1] cuts the trailing space. *)
Definition tls_fingerprint (g : Gnutls) (algo : digest_algorithm)
    (buflen : nat) (data : datum) : string :=
  match gnutls_fingerprint g algo data with
  | None => string_take (buflen - 1) "[unable to calculate]"
  | Some md =>
      let n := List.length md in
      string_take (2 * n + n / 2 - 1)
        (string_take (buflen - 1) (fingerprint_octets 0 md))
  end.

(** ** The certificate file *)

(** Modelled from the spec: [mutt_file_read_line] is part of mutt/file.c,
    which is not among the sources; the store is "plain text,
    line-oriented".  Called with the flags 0 until the end of the file, it
    yields every line up to its newline, which is cut together with a
    carriage return right before it; a last line without a newline is read
    as it is.  [raw_lines] keeps, with each line, whether a newline ended
    it. *)
Fixpoint raw_lines (s : string) : list (string * bool) :=
  match s with
  | EmptyString => []
  | String c r =>
      if Ascii.eqb c LF then (EmptyString, true) :: raw_lines r
      else match raw_lines r with
           | [] => [(String c EmptyString, false)]
           | (l, t) :: ls => (String c l, t) :: ls
           end
  end.

(** the carriage return at the end of a line is cut *)
Fixpoint chomp_cr (l : string) : string :=
  match l with
  | EmptyString => EmptyString
  | String c EmptyString => if Ascii.eqb c CR then EmptyString else l
  | String c r => String c (chomp_cr r)
  end.

(** Modelled from the spec: the lines that the calls of
    [mutt_file_read_line] (mutt/file.c, not among the sources) yield for a
    file with the text [s] *)
Definition mutt_file_read_lines (s : string) : list string :=
  map (fun lt : string * bool => if snd lt then chomp_cr (fst lt) else fst lt)
      (raw_lines s).

(** The regular expression of [tls_check_stored_hostname],
    [^#H ([a-zA-Z0-9_\.-]+) ([0-9A-F]{4}( [0-9A-F]{4}){7})[ \t]*$],
    compiled with [REG_ICASE]. *)

(** the backslash; inside a POSIX bracket expression it stands for itself *)
Definition BACKSLASH : ascii := "092"%char.

(** [[a-zA-Z0-9_\.-]]: letters, digits, underscore, backslash, dot and
    hyphen *)
Definition is_host_char (c : ascii) : bool :=
  char_between "a" "z" c || char_between "A" "Z" c || char_between "0" "9" c
  || Ascii.eqb c "_" || Ascii.eqb c BACKSLASH || Ascii.eqb c "."
  || Ascii.eqb c "-".

(** [[0-9A-F]] under [REG_ICASE] *)
Definition is_hex_char (c : ascii) : bool :=
  char_between "0" "9" c || char_between "A" "F" c || char_between "a" "f" c.

(** the longest run of host characters at the start, and what follows *)
Fixpoint span_host (s : string) : string * string :=
  match s with
  | String c r =>
      if is_host_char c
      then let (h, rest) := span_host r in (String c h, rest)
      else (EmptyString, s)
  | EmptyString => (EmptyString, EmptyString)
  end.

(** [[0-9A-F]{4}] *)
Definition eat_hex4 (s : string) : option string :=
  match s with
  | String a (String b (String c (String d r))) =>
      if is_hex_char a && is_hex_char b && is_hex_char c && is_hex_char d
      then Some r else None
  | _ => None
  end.

(** [( [0-9A-F]{4}){k}] *)
Fixpoint eat_groups (k : nat) (s : string) : option string :=
  match k with
  | O => Some s
  | S k' =>
      match s with
      | String sp r =>
          if Ascii.eqb sp SPACE
          then match eat_hex4 r with
               | Some r' => eat_groups k' r'
               | None => None
               end
          else None
      | EmptyString => None
      end
  end.

(** [[ \t]*$] *)
Fixpoint all_blank (s : string) : bool :=
  match s with
  | EmptyString => true
  | String c r => (Ascii.eqb c SPACE || Ascii.eqb c TAB) && all_blank r
  end.

(** [regexec (&preg, linestr, 3, pmatch, 0) == 0], with the text of the
    groups 1 and 2.  No host character is a space, so group 1 can only be the
    whole run of host characters after [#H ]. *)
Definition regexec_hostname_line (linestr : string) : option (string * string) :=
  match linestr with
  | String c0 (String c1 (String c2 r0)) =>
      if Ascii.eqb c0 "#" && (Ascii.eqb c1 "H" || Ascii.eqb c1 "h")
         && Ascii.eqb c2 SPACE
      then
        let (host, r1) := span_host r0 in
        match host, r1 with
        | String _ _, String sp r2 =>
            if Ascii.eqb sp SPACE
            then match eat_hex4 r2 with
                 | Some r3 =>
                     match eat_groups 7 r3 with
                     | Some r4 =>
                         if all_blank r4
                         then Some (host, string_take 39 r2)
                         else None
                     | None => None
                     end
                 | None => None
                 end
            else None
        | _, _ => None
        end
      else None
  | _ => None
  end.

(** the body of the [while] loop of [tls_check_stored_hostname] for one line:
    does it make the function return 1? *)
Definition hostname_line_matches (buf hostname linestr : string) : bool :=
  match linestr with
  | String c0 (String c1 _) =>
      if Ascii.eqb c0 "#" && Ascii.eqb c1 "H"
      then match regexec_hostname_line linestr with
           | Some (h, d) => String.eqb h hostname && String.eqb d buf
           | None => false
           end
      else false
  | _ => false
  end.

Fixpoint stored_hostname_scan (buf hostname : string) (lines : list string) : Z :=
  match lines with
  | [] => 0
  | linestr :: rest =>
      if hostname_line_matches buf hostname linestr then 1
      else stored_hostname_scan buf hostname rest
  end.

(** [tls_check_stored_hostname (cert, hostname)]; [file] is what
    [fopen (C_CertificateFile, "r")] gives. *)
Definition tls_check_stored_hostname (g : Gnutls) (file : option string)
    (cert : datum) (hostname : string) : Z :=
  match file with
  | Some text =>
      let buf := tls_fingerprint g GNUTLS_DIG_MD5 80 cert in
      stored_hostname_scan buf hostname (mutt_file_read_lines text)
  | None => 0
  end.

Definition CERT_SEP : string := "-----BEGIN".

(** the [do ... while (ptr)] loop of [tls_compare_certificates]; every round
    moves [b64_data] at least one character on, so [fuel] beyond the length
    of the text is never used up *)
Fixpoint compare_certificates_loop (g : Gnutls) (fuel : nat)
    (b64_data : string) (peercert : datum) : Z :=
  match fuel with
  | O => 0
  | S fuel' =>
      match pem_base64_decode g b64_data with
      | None => 0
      | Some cert =>
          match strstr b64_data CERT_SEP with
          | None => 0
          | Some ptr =>
              let next := strstr (string_drop 1 ptr) CERT_SEP in
              if datum_eqb cert peercert then 1
              else match next with
                   | Some b64_data' =>
                       compare_certificates_loop g fuel' b64_data' peercert
                   | None => 0
                   end
          end
      end
  end.

(** [tls_compare_certificates (peercert)]; [file] is the text of the file,
    [None] where [stat] or [fopen] fails. *)
Definition tls_compare_certificates (g : Gnutls) (file : option string)
    (peercert : datum) : Z :=
  match file with
  | Some text =>
      compare_certificates_loop g (S (String.length text)) text peercert
  | None => 0
  end.

(** ** tls_check_preauth *)

(** [flag] is set in [x] *)
Definition has_bit (x flag : Z) : bool := negb (Z.land x flag =? 0).

(** the date checks *)
Definition preauth_dates (g : Gnutls) (certdata : datum) (certerr : Z) : Z :=
  if C_SslVerifyDates g then
    let certerr :=
      if x509_crt_get_expiration_time g certdata <? mutt_date_epoch g
      then Z.lor certerr Certerr.EXPIRED else certerr in
    if x509_crt_get_activation_time g certdata >? mutt_date_epoch g
    then Z.lor certerr Certerr.NOTYETVALID else certerr
  else certerr.

(** the host name check *)
Definition preauth_hostname (g : Gnutls) (file : option string)
    (certdata : datum) (hostname : string) (chainidx : Z) (certerr : Z) : Z :=
  if (chainidx =? 0) && C_SslVerifyHost g
     && negb (x509_crt_check_hostname g certdata hostname)
     && (tls_check_stored_hostname g file certdata hostname =? 0)
  then Z.lor certerr Certerr.HOSTNAME else certerr.

(** [if (certstat & FLAG) { *certerr |= BIT; certstat ^= FLAG; }] *)
Definition consume (flag bit : Z) (st : Z * Z) : Z * Z :=
  let (certerr, certstat) := st in
  if has_bit certstat flag
  then (Z.lor certerr bit, Z.lxor certstat flag)
  else (certerr, certstat).

(** [tls_check_preauth] from its start to the look into the certificate
    file: [*certerr] and [certstat] as they stand there *)
Definition preauth_own_checks (g : Gnutls) (file : option string)
    (certdata : datum) (certstat : Z) (hostname : string) (chainidx : Z)
    : Z * Z :=
  let certerr := Certerr.VALID in
  let certerr := preauth_dates g certdata certerr in
  let certerr := preauth_hostname g file certdata hostname chainidx certerr in
  consume GnutlsCert.REVOKED Certerr.REVOKED (certerr, certstat).

(** the bits that can be set when the certificate file is looked into *)
Definition own_mask : Z :=
  Z.lor (Z.lor (Z.lor Certerr.EXPIRED Certerr.NOTYETVALID) Certerr.REVOKED)
        Certerr.HOSTNAME.

(** the rest of [tls_check_preauth]: what the library found *)
Definition preauth_library_status (st : Z * Z) : Z :=
  let st := consume GnutlsCert.INVALID Certerr.NOTTRUSTED st in
  let st := consume GnutlsCert.SIGNER_NOT_FOUND Certerr.NOTTRUSTED st in
  let st := consume GnutlsCert.SIGNER_NOT_CA Certerr.SIGNERNOTCA st in
  let st := consume GnutlsCert.INSECURE_ALGORITHM Certerr.INSECUREALG st in
  let (certerr, certstat) := st in
  if certstat =? 0 then certerr else Z.lor certerr Certerr.OTHER.

(** [tls_check_preauth (certdata, certstat, hostname, chainidx, &certerr,
    &savedcert)]: the return value, [*certerr] and [*savedcert].  [file] is
    the certificate file as the function can read it.  What the function
    shows through [mutt_error] is left out. *)
Definition tls_check_preauth (g : Gnutls) (file : option string)
    (certdata : datum) (certstat : Z) (hostname : string) (chainidx : Z)
    : Z * Z * Z :=
  if negb (x509_crt_import g certdata) then (-1, Certerr.VALID, 0)
  else
    let st := preauth_own_checks g file certdata certstat hostname chainidx in
    let savedcert := tls_compare_certificates g file certdata in
    if negb (savedcert =? 0) && (fst st =? Certerr.VALID)
    then (0, fst st, 1)
    else
      let certerr := preauth_library_status st in
      (if certerr =? Certerr.VALID then 0 else -1, certerr,
       if savedcert =? 0 then 0 else 1).

(** ** The world around the check *)

Inductive key_event :=
  | KeyChar (c : ascii)   (** a character is typed *)
  | KeyExit               (** a key bound to [<exit>] *)
  | KeyAbort              (** the input is lost or interrupted *)
  | KeyOther.             (** a key bound to any other function *)

(** what [mutt_menu_loop] returns: -1, [OP_EXIT], [OP_MAX + n], or another
    opcode *)
Inductive menu_op := OP_ABORT | OP_EXIT | OP_MAX_plus (n : nat) | OP_OTHER.

Inductive decision := Reject | AcceptOnce | AcceptAlways.

Inductive record_kind := HostnamePin | PinnedCert.

Inductive event :=
  | EvError (msg : string)          (** [mutt_error] *)
  | EvMessage (msg : string)        (** [mutt_message] *)
  | EvDialog (idx : Z) (len : Z) (certerr savedcert : Z) (keys : string)
                                    (** the dialog for a certificate opens *)
  | EvChoice (idx : Z) (d : decision) (** the dialog ends with a choice *)
  | EvSaved (idx : Z) (certerr : Z) (kind : record_kind) (text : string)
                                    (** a record reached the certificate file *)
  | EvTrust (idx : Z) (rc : Z)      (** a signer is added to the trust set *)
  | EvVerify (certstat : Z).        (** [tls_verify_peers] ran *)

Record World := {
  (** the text of the certificate file; [None]: there is no such file *)
  cert_file : option string;
  (** what [gnutls_certificate_set_x509_trust_mem] added to [data->xcred] *)
  xcred : list datum;
  (** the keys still to come *)
  keyboard : list key_event;
  (** how the next attempts to open the certificate file for appending or
      to write to it end; when the list is used up they succeed *)
  disk : list bool;
  (** what happened so far, oldest first *)
  trace : list event
}.

Definition emit (ev : event) (w : World) : World :=
  {| cert_file := cert_file w; xcred := xcred w; keyboard := keyboard w;
     disk := disk w; trace := (trace w ++ [ev])%list |}.

Definition set_keyboard (k : list key_event) (w : World) : World :=
  {| cert_file := cert_file w; xcred := xcred w; keyboard := k;
     disk := disk w; trace := trace w |}.

Definition set_cert_file (f : option string) (w : World) : World :=
  {| cert_file := f; xcred := xcred w; keyboard := keyboard w;
     disk := disk w; trace := trace w |}.

Definition set_xcred (x : list datum) (w : World) : World :=
  {| cert_file := cert_file w; xcred := x; keyboard := keyboard w;
     disk := disk w; trace := trace w |}.

(** the outcome of the next file operation *)
Definition next_outcome (w : World) : bool * World :=
  match disk w with
  | [] => (true, w)
  | ok :: rest =>
      (ok, {| cert_file := cert_file w; xcred := xcred w;
              keyboard := keyboard w; disk := rest; trace := trace w |})
  end.

(** [fopen (C_CertificateFile, "r")] and [stat (C_CertificateFile)] *)
Definition read_cert_file (g : Gnutls) (w : World) : option string :=
  if C_CertificateFile g then cert_file w else None.

(** [mutt_file_fopen (C_CertificateFile, "a")]: a file that is not there yet
    is created *)
Definition fopen_append (g : Gnutls) (w : World) : bool * World :=
  if C_CertificateFile g then
    let (ok, w1) := next_outcome w in
    if ok then
      (true, set_cert_file (Some (match cert_file w1 with
                                  | Some text => text
                                  | None => EmptyString
                                  end)) w1)
    else (false, w1)
  else (false, w).

(** [fprintf] and [fwrite] on the file opened for appending: [text] is added
    at the end, or the write fails and the file stays as it is *)
Definition append_text (text : string) (w : World) : bool * World :=
  let (ok, w1) := next_outcome w in
  if ok then
    (true, set_cert_file (match cert_file w1 with
                          | Some old => Some (old ++ text)
                          | None => None
                          end) w1)
  else (false, w1).

(** ** tls_check_one_certificate *)

(** position of [c] in [keys], as [strchr] finds it *)
Fixpoint key_offset (c : ascii) (keys : string) : option nat :=
  match keys with
  | EmptyString => None
  | String k rest =>
      if Ascii.eqb k c then Some O
      else match key_offset c rest with
           | Some p => Some (S p)
           | None => None
           end
  end.

(** Modelled from the spec: [mutt_menu_loop] is part of menu.c, which is not
    among the sources; it is the port through which the human decision
    comes.  For a dialog, a typed character found in [menu->keys] at offset
    [p] yields [OP_MAX + p + 1], lost input yields -1, and any other key
    yields the opcode bound to it. *)
Definition mutt_menu_loop (keys : string) (k : key_event) : menu_op :=
  match k with
  | KeyChar c =>
      match key_offset c keys with
      | Some p => OP_MAX_plus (S p)
      | None => OP_OTHER
      end
  | KeyExit => OP_EXIT
  | KeyAbort => OP_ABORT
  | KeyOther => OP_OTHER
  end.

(** the choice of [menu->keys]: is "accept always" on offer? *)
Definition always_offered (g : Gnutls) (certerr savedcert : Z) : bool :=
  C_CertificateFile g && (savedcert =? 0)
  && (Z.land certerr
        (Z.lor (Z.lor Certerr.EXPIRED Certerr.NOTYETVALID) Certerr.REVOKED) =? 0).

Definition menu_keys (g : Gnutls) (certerr savedcert : Z) : string :=
  if always_offered g certerr savedcert then "roa" else "ro".

(** the line [fprintf (fp, "#H %s %s\n", hostname, fpbuf)] writes *)
Definition hostname_pin_line (hostname fpbuf : string) : string :=
  "#H " ++ hostname ++ " " ++ fpbuf ++ String LF EmptyString.

(** [case OP_MAX + 3], down to the fall through: the attempt to save *)
Definition save_certificate (g : Gnutls) (certdata : datum)
    (hostname : string) (idx certerr : Z) (w : World) : World :=
  let (opened, w) := fopen_append g w in
  let (done, w) :=
    if opened then
      (* save hostname if necessary *)
      let (done, w) :=
        if has_bit certerr Certerr.HOSTNAME then
          let fpbuf := tls_fingerprint g GNUTLS_DIG_MD5 128 certdata in
          let line := hostname_pin_line hostname fpbuf in
          let (ok, w) := append_text line w in
          (1, if ok then emit (EvSaved idx certerr HostnamePin line) w else w)
        else (0, w) in
      (* Save the cert for all other errors *)
      if negb (Z.lxor certerr Certerr.HOSTNAME =? 0) then
        match pem_base64_encode g certdata with
        | Some pemdata =>
            let (ok, w) := append_text pemdata w in
            if ok then (1, emit (EvSaved idx certerr PinnedCert pemdata) w)
            else (0, w)
        | None => (0, w)
        end
      else (done, w)
    else (0, w) in
  if done =? 0
  then emit (EvError "Warning: Couldn't save certificate") w
  else emit (EvMessage "Certificate saved") w.

(** [while (done == 0) switch (mutt_menu_loop (menu))]: the value of [done]
    that ends the loop.  [None]: the keys ran out while the dialog was
    still waiting. *)
Fixpoint certificate_dialog (g : Gnutls) (certdata : datum)
    (hostname : string) (idx certerr : Z) (keys : string)
    (kbd : list key_event) (w : World) : option (Z * World) :=
  match kbd with
  | [] => None
  | k :: kbd' =>
      match mutt_menu_loop keys k with
      | OP_ABORT | OP_EXIT | OP_MAX_plus 1 =>
          Some (1, emit (EvChoice idx Reject) (set_keyboard kbd' w))
      | OP_MAX_plus 3 =>
          let w := emit (EvChoice idx AcceptAlways) (set_keyboard kbd' w) in
          Some (2, save_certificate g certdata hostname idx certerr w)
      | OP_MAX_plus 2 =>
          Some (2, emit (EvChoice idx AcceptOnce) (set_keyboard kbd' w))
      | _ => certificate_dialog g certdata hostname idx certerr keys kbd' w
      end
  end.

(** [tls_check_one_certificate (certdata, certstat, hostname, idx, len)] *)
Definition tls_check_one_certificate (g : Gnutls) (certdata : datum)
    (certstat : Z) (hostname : string) (idx len : Z) (w : World)
    : option (Z * World) :=
  match tls_check_preauth g (read_cert_file g w) certdata certstat hostname idx
  with
  | (rc, certerr, savedcert) =>
      if rc =? 0 then Some (1, w)
      else if negb (x509_crt_import g certdata)
      then Some (0, emit (EvError "Error processing certificate data") w)
      else
        let keys := menu_keys g certerr savedcert in
        let w := emit (EvDialog idx len certerr savedcert keys) w in
        match certificate_dialog g certdata hostname idx certerr keys
                (keyboard w) w with
        | Some (done, w) => Some (if done =? 2 then 1 else 0, w)
        | None => None
        end
  end.

(** ** tls_check_certificate *)

(** [tls_verify_peers (tlsstate)] *)
Definition tls_verify_peers (g : Gnutls) (w : World) : Z * World :=
  let (verify_ret, status) := certificate_verify_peers2 g (xcred w) in
  let (certstat, w) :=
    if verify_ret =? 0 then (status, w)
    else if status =? GnutlsCert.E_NO_CERTIFICATE_FOUND_as_unsigned
    then (0, emit (EvError "Unable to get certificate from peer") w)
    else if verify_ret <? 0
    then (0, emit (EvError "Certificate verification error") w)
    else if negb (certificate_type_is_x509 g)
    then (0, emit (EvError "Certificate is not X.509") w)
    else (status, w) in
  (certstat, emit (EvVerify certstat) w).

(** how the first loop of [tls_check_certificate] ends *)
Inductive preauth_walk_result :=
  | SavedAndClean                   (** [return 1] *)
  | GoInteractive (rc rcpeer : Z).  (** on to the second loop *)

(** the first loop, from the leaf up: [certs] are [cert_list[i]] and above *)
Fixpoint preauth_walk (g : Gnutls) (file : option string) (certstat : Z)
    (certs : list datum) (i : Z) (preauthrc rcpeer rc : Z)
    : preauth_walk_result :=
  match certs with
  | [] => GoInteractive rc rcpeer
  | certdata :: above =>
      match tls_check_preauth g file certdata certstat (account_host g) i with
      | (rc, certerr, savedcert) =>
          let preauthrc := preauthrc + rc in
          let rcpeer := if i =? 0 then rc else rcpeer in
          if negb (savedcert =? 0) then
            if preauthrc =? 0 then SavedAndClean
            else GoInteractive rc rcpeer
          else preauth_walk g file certstat above (i + 1) preauthrc rcpeer rc
      end
  end.

(** the second loop, from the root down: [certs] are [cert_list[i]],
    [cert_list[i-1]], ..., [cert_list[0]] *)
Fixpoint interactive_walk (g : Gnutls) (len rcpeer : Z) (certs : list datum)
    (certstat rc : Z) (w : World) : option (Z * World) :=
  match certs with
  | [] => Some (rc, w)
  | certdata :: below =>
      let i := Z.of_nat (List.length below) in
      match tls_check_one_certificate g certdata certstat (account_host g)
              i len w with
      | None => None
      | Some (rc, w) =>
          (* add signers to trust set, then reverify *)
          if negb (i =? 0) && negb (rc =? 0) then
            let (anchors, rc) :=
              certificate_set_x509_trust_mem g (xcred w) certdata in
            let w := emit (EvTrust i rc) (set_xcred anchors w) in
            let (certstat, w) := tls_verify_peers g w in
            if (certstat =? 0) && (rcpeer =? 0) then Some (1, w)
            else interactive_walk g len rcpeer below certstat rc w
          else interactive_walk g len rcpeer below certstat rc w
      end
  end.

(** [tls_check_certificate (conn)] *)
Definition tls_check_certificate (g : Gnutls) (w : World)
    : option (Z * World) :=
  if negb (auth_is_certificate g)
  then Some (0, emit (EvError "Unable to get certificate from peer") w)
  else
    let (certstat, w) := tls_verify_peers g w in
    match certificate_get_peers g with
    | [] => Some (0, emit (EvError "Unable to get certificate from peer") w)
    | cert_list =>
        match preauth_walk g (read_cert_file g w) certstat cert_list
                0 0 (-1) 0 with
        | SavedAndClean => Some (1, w)
        | GoInteractive rc rcpeer =>
            interactive_walk g (Z.of_nat (List.length cert_list)) rcpeer
              (rev cert_list) certstat rc w
        end
    end.

(** ** Hostname pins as records *)

Fixpoint string_forall (p : ascii -> bool) (s : string) : bool :=
  match s with
  | EmptyString => true
  | String c r => p c && string_forall p r
  end.

(** a host name the pattern of the pin line admits: [[a-zA-Z0-9_\.-]+] *)
Definition hostname_ok (h : string) : bool :=
  match h with
  | EmptyString => false
  | String _ _ => string_forall is_host_char h
  end.

(** the characters of a digest *)
Definition is_digest_char (c : ascii) : bool :=
  is_hex_char c || Ascii.eqb c SPACE.

(** a digest the pattern of the pin line admits:
    [[0-9A-F]{4}( [0-9A-F]{4}){7}] *)
Definition digest_ok (d : string) : bool :=
  match eat_hex4 d with
  | Some r =>
      match eat_groups 7 r with
      | Some EmptyString => true
      | _ => false
      end
  | None => false
  end.

(** [linestr] is a hostname pin for [h] with the digest [d]: the text
    [#H h d], then blanks *)
Definition is_hostname_pin (linestr h d : string) : Prop :=
  hostname_ok h = true /\ digest_ok d = true /\
  exists blanks, all_blank blanks = true /\
                 linestr = "#H " ++ h ++ " " ++ d ++ blanks.

(** neither a newline nor a carriage return *)
Definition not_eol (c : ascii) : bool :=
  negb (Ascii.eqb c LF) && negb (Ascii.eqb c CR).

(** the text is empty or its last line ends with a newline *)
Fixpoint complete_lines (s : string) : bool :=
  match s with
  | EmptyString => true
  | String c EmptyString => Ascii.eqb c LF
  | String _ r => complete_lines r
  end.

(** the certificate file after the pins [(hostname, digest)] were appended,
    one [fprintf] each *)
Definition append_hostname_pins (text : string) (pins : list (string * string))
    : string :=
  fold_left (fun t p => t ++ hostname_pin_line (fst p) (snd p)) pins text.

(** comparison of host names without regard to case, as the design document
    words the lookup *)
Definition ascii_tolower (c : ascii) : ascii :=
  if char_between "A" "Z" c then ascii_of_nat (nat_of_ascii c + 32) else c.

Fixpoint string_tolower (s : string) : string :=
  match s with
  | EmptyString => EmptyString
  | String c r => String (ascii_tolower c) (string_tolower r)
  end.

Definition eq_nocase (a b : string) : Prop :=
  string_tolower a = string_tolower b.

(** ** What a run leaves behind *)

(** the kinds of the records that reached the certificate file, in order *)
Definition saved_kinds (tr : list event) : list record_kind :=
  flat_map (fun ev => match ev with
                      | EvSaved _ _ kind _ => [kind]
                      | _ => []
                      end) tr.

(** the text of the certificate file; a file that is not there holds none *)
Definition file_text (w : World) : string :=
  match cert_file w with
  | Some text => text
  | None => EmptyString
  end.

(** what was written to the certificate file, in order *)
Fixpoint saved_text (tr : list event) : string :=
  match tr with
  | [] => EmptyString
  | EvSaved _ _ _ text :: rest => text ++ saved_text rest
  | _ :: rest => saved_text rest
  end.

(** the position in the chain that an event belongs to *)
Definition ev_pos (ev : event) : option Z :=
  match ev with
  | EvDialog idx _ _ _ _ | EvChoice idx _ | EvSaved idx _ _ _ | EvTrust idx _ =>
      Some idx
  | EvError _ | EvMessage _ | EvVerify _ => None
  end.

(** [ev] records a write for the certificate at [idx] with the error bits
    [certerr] *)
Definition is_saved_at (idx certerr : Z) (ev : event) : Prop :=
  match ev with
  | EvSaved i e _ _ => i = idx /\ e = certerr
  | _ => False
  end.

(** the user is asked, or answers *)
Definition asks_user (ev : event) : bool :=
  match ev with
  | EvDialog _ _ _ _ _ | EvChoice _ _ => true
  | _ => false
  end.

(** a defect of the dates or a revocation: [CERTERR_EXPIRED],
    [CERTERR_NOTYETVALID] or [CERTERR_REVOKED] is set *)
Definition dated_defect (certerr : Z) : bool :=
  has_bit certerr Certerr.EXPIRED || has_bit certerr Certerr.NOTYETVALID
  || has_bit certerr Certerr.REVOKED.

(** [mutt_error (_("Warning: Couldn't save certificate"))] *)
Definition save_warning : event :=
  EvError "Warning: Couldn't save certificate".

(** what follows the choice [d] in a dialog with the keys [keys] for the
    certificate at [idx]: the value [tls_check_one_certificate] returns and
    the events after the choice *)
Definition dialog_outcome (idx certerr : Z) (keys : string) (d : decision)
    (rc : Z) (tail : list event) : Prop :=
  match d with
  | Reject => rc = 0 /\ tail = []
  | AcceptOnce => rc = 1 /\ tail = []
  | AcceptAlways =>
      rc = 1 /\ keys = "roa" /\
      exists saves msg,
        tail = (saves ++ [msg])%list
        /\ Forall (is_saved_at idx certerr) saves
        /\ (msg = save_warning \/ msg = EvMessage "Certificate saved")
  end.

(** the events of one call of [tls_check_one_certificate], where
    [tls_check_preauth] gave [(prc, certerr, savedcert)] and the call
    returns [rc] *)
Definition check_one_events (g : Gnutls) (idx len certerr savedcert : Z)
    (prc rc : Z) (new : list event) : Prop :=
  (prc = 0 /\ rc = 1 /\ new = [])
  \/ (prc <> 0 /\ rc = 0 /\ exists msg, new = [EvError msg])
  \/ (prc <> 0 /\
      exists d tail,
        new = EvDialog idx len certerr savedcert (menu_keys g certerr savedcert)
                :: EvChoice idx d :: tail
        /\ dialog_outcome idx certerr (menu_keys g certerr savedcert) d rc tail).

(** [ev] belongs to no position, or to [idx] *)
Definition at_pos (idx : Z) (ev : event) : Prop :=
  match ev_pos ev with
  | Some p => p = idx
  | None => True
  end.

(** [ev] belongs to no position, or to one of the [n] lowest *)
Definition pos_below (n : nat) (ev : event) : Prop :=
  match ev_pos ev with
  | Some p => 0 <= p < Z.of_nat n
  | None => True
  end.

(** a dialog offers the keys that [menu_keys] chooses, and a write is for a
    certificate without a defect of the dates or a revocation *)
Definition respects_dates (g : Gnutls) (ev : event) : Prop :=
  match ev with
  | EvSaved _ certerr _ _ => dated_defect certerr = false
  | EvDialog _ _ certerr savedcert keys => keys = menu_keys g certerr savedcert
  | _ => True
  end.

(** [mutt_file_fopen (C_CertificateFile, "a")] is going to fail *)
Definition open_fails (g : Gnutls) (w : World) : bool :=
  negb (C_CertificateFile g) || negb (hd true (disk w)).

(** the certificate block cannot be coded, or [fwrite] is going to fail; the
    [fwrite] is the second file operation after the [fopen], or the third
    when a hostname pin is written first *)
Definition cert_write_fails (g : Gnutls) (certdata : datum) (certerr : Z)
    (w : World) : bool :=
  match pem_base64_encode g certdata with
  | Some _ =>
      negb (nth (if has_bit certerr Certerr.HOSTNAME then 2 else 1)
                (disk w) true)
  | None => true
  end.

(** a key that ends the dialog whichever keys it offers *)
Definition decisive (k : key_event) : bool :=
  match k with
  | KeyChar c => Ascii.eqb "r" c || Ascii.eqb "o" c
  | KeyExit | KeyAbort => true
  | KeyOther => false
  end.

(** ** A sample session

    Stand-ins for the library, used where a property is shown at a concrete
    input. *)
Module Sample.

Definition leaf : datum := list_byte_of_string "leaf".
Definition inter : datum := list_byte_of_string "intermediate".
Definition root : datum := list_byte_of_string "root".

(** a 16-byte stand-in for the digest: the data, cut or padded with zeros *)
Definition digest (d : datum) : list byte :=
  firstn 16 (d ++ repeat x00 16)%list.

Definition pem_begin : string :=
  "-----BEGIN CERTIFICATE-----" ++ String LF "".
Definition pem_end : string :=
  String LF "-----END CERTIFICATE-----" ++ String LF "".

(** a stand-in for the PEM coding: the bytes themselves between the two
    marker lines, where the library writes them in base64 *)
Definition pem_encode (d : datum) : string :=
  pem_begin ++ string_of_list_byte d ++ pem_end.

Fixpoint first_line (s : string) : string :=
  match s with
  | EmptyString => EmptyString
  | String c r => if Ascii.eqb c LF then EmptyString
                  else String c (first_line r)
  end.

(** the first place where [needle] stands in [hay], whatever bytes [hay]
    holds: the library goes by the size of the data, not by a NUL byte *)
Fixpoint find_text (hay needle : string) : option string :=
  if String.prefix needle hay then Some hay
  else match hay with
       | EmptyString => None
       | String _ r => find_text r needle
       end.

Definition pem_decode (text : string) : option datum :=
  match find_text text pem_begin with
  | Some s =>
      Some (list_byte_of_string
              (first_line (string_drop (String.length pem_begin) s)))
  | None => None
  end.

(** a session with the host [host] and the chain [peers]; [bad_dates]
    tells the certificates that have expired, [names_match] whether the
    leaf names the host, [status] what the library's verification reports
    for the anchors it was given *)
Definition session (host : string) (peers : list datum)
    (bad_dates : datum -> bool) (names_match : bool)
    (status : list datum -> Z) : Gnutls :=
  {| account_host := host;
     C_CertificateFile := true;
     C_SslVerifyDates := true;
     C_SslVerifyHost := true;
     mutt_date_epoch := 1000;
     x509_crt_import := fun _ => true;
     x509_crt_get_expiration_time :=
       fun c => if bad_dates c then 500 else 2000;
     x509_crt_get_activation_time := fun _ => 0;
     x509_crt_check_hostname := fun _ _ => names_match;
     gnutls_fingerprint := fun _ d => Some (digest d);
     pem_base64_decode := pem_decode;
     pem_base64_encode := fun d => Some (pem_encode d);
     auth_is_certificate := true;
     certificate_get_peers := peers;
     certificate_verify_peers2 := fun anchors => (0, status anchors);
     certificate_type_is_x509 := true;
     certificate_set_x509_trust_mem :=
       fun anchors d => ((anchors ++ [d])%list, 1) |}.

(** the chain verifies once [root] is among the anchors; before that the
    library reports [GNUTLS_CERT_INVALID | GNUTLS_CERT_SIGNER_NOT_FOUND] *)
Definition needs_root (anchors : list datum) : Z :=
  if existsb (datum_eqb root) anchors then 0
  else Z.lor GnutlsCert.INVALID GnutlsCert.SIGNER_NOT_FOUND.

Definition world (file : option string) (keys : list key_event)
    (outcomes : list bool) : World :=
  {| cert_file := file; xcred := []; keyboard := keys; disk := outcomes;
     trace := [] |}.

Definition never (_ : datum) : bool := false.
Definition clean (_ : list datum) : Z := 0.

End Sample.

(** ** Proof steps used more than once *)

(** case analysis on every condition of the goal *)
Ltac case_ifs :=
  repeat match goal with
         | |- context [if ?c then _ else _] => destruct c eqn:?
         end.

(** closes a goal that describes the events of a save *)
Ltac shape_done :=
  repeat match goal with
         | |- _ /\ _ => split
         | |- Forall _ [] => constructor
         | |- Forall _ (_ :: _) => constructor
         | |- is_saved_at _ _ _ => cbn; auto
         | |- _ \/ _ => (left; reflexivity) || (right; reflexivity)
         | |- _ = _ => reflexivity
         end.

From Stdlib Require Import Sorted.


(** ** Reading a fingerprint back *)

(** the value of an upper-case hex digit *)
Definition hex_value (c : ascii) : N :=
  match String.index 0 (String c EmptyString) "0123456789ABCDEF" with
  | Some p => N.of_nat p
  | None => 0%N
  end.

(** the byte that two hex digits stand for *)
Definition octet_value (hi lo : ascii) : option byte :=
  Byte.of_N (16 * hex_value hi + hex_value lo).

(** ** Certificate blocks in the file *)

(** [pem] is a block that the library decodes to [d]: it starts with the
    marker; [strstr], which stops at a NUL byte, runs from its second
    character to its end without finding the marker again, so it holds no
    NUL byte; and whatever follows it in the file,
    [gnutls_pem_base64_decode_alloc] finds it first *)
Definition pem_block_of (g : Gnutls) (d : datum) (pem : string) : Prop :=
  String.prefix CERT_SEP pem = true
  /\ (forall rest,
        strstr (string_drop 1 (pem ++ rest)) CERT_SEP = strstr rest CERT_SEP)
  /\ (forall rest, pem_base64_decode g (pem ++ rest) = Some d).

(** a file that holds the blocks [blocks], one after the other *)
Definition pem_file (blocks : list (datum * string)) : string :=
  fold_right (fun b text => snd b ++ text) EmptyString blocks.

(** [head] is text without a certificate block: whatever follows it in the
    file, neither [strstr] nor [gnutls_pem_base64_decode_alloc] finds
    anything before the end of [head] *)
Definition no_block_in (g : Gnutls) (head : string) : Prop :=
  (forall rest, strstr (head ++ rest) CERT_SEP = strstr rest CERT_SEP)
  /\ (forall rest, pem_base64_decode g (head ++ rest) = pem_base64_decode g rest).

(** ** The library's status *)

(** the bits of the library's status that [tls_check_preauth] knows *)
Definition known_status : Z :=
  Z.lor GnutlsCert.REVOKED
    (Z.lor GnutlsCert.INVALID
       (Z.lor GnutlsCert.SIGNER_NOT_FOUND
          (Z.lor GnutlsCert.SIGNER_NOT_CA GnutlsCert.INSECURE_ALGORITHM))).

(** ** The verdict *)

(** the last event is a rejection of the certificate at [idx], or an error
    message *)
Definition ends_in_refusal (idx : Z) (new : list event) : Prop :=
  exists pre,
    new = (pre ++ [EvChoice idx Reject])%list
    \/ exists msg, new = (pre ++ [EvError msg])%list.

(** ** Dates, and a failing verification *)

(** the dates of [certdata] are in order, or are not to be checked *)
Definition dates_in_order (g : Gnutls) (certdata : datum) : Prop :=
  C_SslVerifyDates g = false \/
  (mutt_date_epoch g <= x509_crt_get_expiration_time g certdata /\
   x509_crt_get_activation_time g certdata <= mutt_date_epoch g).

(** a session in which [gnutls_certificate_verify_peers2] fails with [ret] *)
Definition with_verification_error (g : Gnutls) (ret : Z) : Gnutls :=
  {| account_host := account_host g;
     C_CertificateFile := C_CertificateFile g;
     C_SslVerifyDates := C_SslVerifyDates g;
     C_SslVerifyHost := C_SslVerifyHost g;
     mutt_date_epoch := mutt_date_epoch g;
     x509_crt_import := x509_crt_import g;
     x509_crt_get_expiration_time := x509_crt_get_expiration_time g;
     x509_crt_get_activation_time := x509_crt_get_activation_time g;
     x509_crt_check_hostname := x509_crt_check_hostname g;
     gnutls_fingerprint := gnutls_fingerprint g;
     pem_base64_decode := pem_base64_decode g;
     pem_base64_encode := pem_base64_encode g;
     auth_is_certificate := auth_is_certificate g;
     certificate_get_peers := certificate_get_peers g;
     certificate_verify_peers2 := fun _ => (ret, 0);
     certificate_type_is_x509 := certificate_type_is_x509 g;
     certificate_set_x509_trust_mem := certificate_set_x509_trust_mem g |}.

(** * The connection *)

Module GnutlsE.
(** error codes of <gnutls/gnutls.h> *)
Definition AGAIN : Z := -28.
Definition INTERRUPTED : Z := -52.
End GnutlsE.

(** conversion to [int] and to [size_t], 32 and 64 bits wide *)
Definition to_int (z : Z) : Z := (z + 2 ^ 31) mod 2 ^ 32 - 2 ^ 31.
Definition to_size_t (z : Z) : Z := z mod 2 ^ 64.

(** The options the connection code reads and the calls it makes, besides
    those of the certificate check. *)
Record Tls := {
  (** [$ssl_ciphers], [None] where it is unset *)
  C_SslCiphers : option string;
  C_SslUseTlsv13 : bool;
  C_SslUseTlsv12 : bool;
  C_SslUseTlsv11 : bool;
  C_SslUseTlsv1 : bool;
  C_SslUseSslv3 : bool;
  OptNoCurses : bool;
  (** the return values of the calls *)
  gnutls_global_init : Z;
  certificate_allocate_credentials : Z;
  gnutls_init : Z;
  server_name_set : Z;
  priority_set_direct : string -> Z;
  cipher_get_key_size : Z;
  (** [gnutls_certificate_get_ours]: our certificate, if we sent one *)
  certificate_get_ours : option datum;
  (** [gnutls_x509_crt_get_dn], asked for the length of the DN: [dnlen]
      after the call, 0 where the library gives none *)
  x509_crt_get_dn_size : datum -> Z;
  (** [gnutls_x509_crt_get_dn], asked for the text: what [dn] holds *)
  x509_crt_get_dn : datum -> string;
  raw_socket_open : Z;
  raw_socket_close : Z
}.

(** the functions a connection can be wired to *)
Inductive conn_fn :=
  | fn_raw_socket_open | fn_raw_socket_read | fn_raw_socket_write
  | fn_raw_socket_close | fn_raw_socket_poll
  | fn_tls_socket_open | fn_tls_socket_read | fn_tls_socket_write
  | fn_tls_socket_close | fn_tls_socket_poll | fn_tls_starttls_close.

Record Methods := {
  conn_open : conn_fn;
  conn_read : conn_fn;
  conn_write : conn_fn;
  conn_close : conn_fn;
  conn_poll : conn_fn
}.

(** what the connection code does to the library and to the user *)
Inductive conn_event :=
  | CeError (msg : string)        (** [mutt_error] *)
  | CeMessage (msg : string)      (** [mutt_message] *)
  | CeGlobalInit                  (** [gnutls_global_init] *)
  | CeAllocCred                   (** credentials were allocated *)
  | CeFreeCred                    (** [gnutls_certificate_free_credentials] *)
  | CeInit                        (** a session was set up by [gnutls_init] *)
  | CeDeinit                      (** [gnutls_deinit] *)
  | CePriority (priority : string) (** [gnutls_priority_set_direct] *)
  | CeHandshake (err : Z)         (** the handshake ended with [err] *)
  | CeBye                         (** [gnutls_bye] *)
  | CeGetUser                     (** [mutt_account_getuser] *)
  | CeRawOpen                     (** [raw_socket_open] *)
  | CeRawClose.                   (** [raw_socket_close] *)

(** the other end, as the library shows it: what the calls to come return.
    A call to send or to receive answers to the number of bytes asked for. *)
Record Peer := {
  handshakes : list Z;
  sends : list (Z -> Z);
  recvs : list (Z -> Z);
  (** the bytes the library took for sending *)
  wire : list byte
}.

Record Conn := {
  (** [conn->sockdata] is not NULL *)
  sockdata : bool;
  (** [conn->ssf] *)
  ssf : Z;
  methods : Methods;
  (** the [static bool init_complete] of [tls_init]; it belongs to the
      process, and is carried along with the one connection looked at *)
  init_complete : bool;
  (** the world of the certificate check *)
  world : World;
  peer : Peer;
  (** what happened so far, oldest first *)
  log : list conn_event
}.

Definition log_event (ev : conn_event) (c : Conn) : Conn :=
  {| sockdata := sockdata c; ssf := ssf c; methods := methods c;
     init_complete := init_complete c; world := world c; peer := peer c;
     log := (log c ++ [ev])%list |}.

Definition set_sockdata (d : bool) (c : Conn) : Conn :=
  {| sockdata := d; ssf := ssf c; methods := methods c;
     init_complete := init_complete c; world := world c; peer := peer c;
     log := log c |}.

Definition set_ssf (n : Z) (c : Conn) : Conn :=
  {| sockdata := sockdata c; ssf := n; methods := methods c;
     init_complete := init_complete c; world := world c; peer := peer c;
     log := log c |}.

Definition set_methods (m : Methods) (c : Conn) : Conn :=
  {| sockdata := sockdata c; ssf := ssf c; methods := m;
     init_complete := init_complete c; world := world c; peer := peer c;
     log := log c |}.

Definition set_init_complete (b : bool) (c : Conn) : Conn :=
  {| sockdata := sockdata c; ssf := ssf c; methods := methods c;
     init_complete := b; world := world c; peer := peer c; log := log c |}.

Definition set_world (w : World) (c : Conn) : Conn :=
  {| sockdata := sockdata c; ssf := ssf c; methods := methods c;
     init_complete := init_complete c; world := w; peer := peer c;
     log := log c |}.

Definition set_peer (p : Peer) (c : Conn) : Conn :=
  {| sockdata := sockdata c; ssf := ssf c; methods := methods c;
     init_complete := init_complete c; world := world c; peer := p;
     log := log c |}.

Definition set_handshakes (rs : list Z) (p : Peer) : Peer :=
  {| handshakes := rs; sends := sends p; recvs := recvs p; wire := wire p |}.

Definition set_sends (rs : list (Z -> Z)) (p : Peer) : Peer :=
  {| handshakes := handshakes p; sends := rs; recvs := recvs p; wire := wire p |}.

Definition set_recvs (rs : list (Z -> Z)) (p : Peer) : Peer :=
  {| handshakes := handshakes p; sends := sends p; recvs := rs; wire := wire p |}.

Definition add_wire (bytes : list byte) (p : Peer) : Peer :=
  {| handshakes := handshakes p; sends := sends p; recvs := recvs p;
     wire := (wire p ++ bytes)%list |}.

(** ** tls_init *)

Definition tls_init (t : Tls) (c : Conn) : Z * Conn :=
  if init_complete c then (0, c)
  else
    let c := log_event CeGlobalInit c in
    if gnutls_global_init t <? 0
    then (-1, log_event (CeError "gnutls_global_init") c)
    else (0, set_init_complete true c).

(** ** tls_set_priority *)

(** [if (!C_SslUse...) { nproto--; mutt_buffer_addstr (priority, vers); }] *)
Definition disable_protocol (use : bool) (vers : string) (st : Z * string)
    : Z * string :=
  if use then st else (fst st - 1, snd st ++ vers).

(** [nproto] and [priority] as they stand before [if (nproto == 0)] *)
Definition priority_of (t : Tls) : Z * string :=
  let st := (5, match C_SslCiphers t with
                | Some ciphers => ciphers
                | None => "NORMAL"
                end) in
  let st := disable_protocol (C_SslUseTlsv13 t) ":-VERS-TLS1.3" st in
  let st := disable_protocol (C_SslUseTlsv12 t) ":-VERS-TLS1.2" st in
  let st := disable_protocol (C_SslUseTlsv11 t) ":-VERS-TLS1.1" st in
  let st := disable_protocol (C_SslUseTlsv1 t) ":-VERS-TLS1.0" st in
  disable_protocol (C_SslUseSslv3 t) ":-VERS-SSL3.0" st.

(** [tls_set_priority (data)], as built with
    [HAVE_GNUTLS_PRIORITY_SET_DIRECT] *)
Definition tls_set_priority (t : Tls) (c : Conn) : Z * Conn :=
  let (nproto, priority) := priority_of t in
  if nproto =? 0
  then (-1, log_event
              (CeError "All available protocols for TLS/SSL connection disabled")
              c)
  else
    let err := priority_set_direct t priority in
    let c := log_event (CePriority priority) c in
    if err <? 0
    then (-1, log_event (CeError "gnutls_priority_set_direct") c)
    else (0, c).

(** ** tls_get_client_cert *)

(** Modelled from the spec: [mutt_mem_calloc] is part of mutt/memory.c, which
    is not among the sources.  It hands back zeroed memory for [nmemb]
    elements of [size] bytes, and NULL where either is 0.  [true]: the
    pointer handed back is NULL. *)
Definition mutt_mem_calloc_null (nmemb size : Z) : bool :=
  (nmemb =? 0) || (size =? 0).

(** [tls_get_client_cert (conn)]: the user name is asked for when we sent a
    certificate that can be read and whose DN holds a CN.  Where the library
    gives no length for the DN, [dn] is NULL and [strstr (dn, ...)] reads
    through it: the program does not go on from there, [None]. *)
Definition tls_get_client_cert (g : Gnutls) (t : Tls) (c : Conn)
    : option Conn :=
  match certificate_get_ours t with
  | None => Some c
  | Some crtdata =>
      if negb (x509_crt_import g crtdata) then Some c
      else
        let dnlen := x509_crt_get_dn_size t crtdata in
        if mutt_mem_calloc_null 1 dnlen then None
        else
          match strstr (x509_crt_get_dn t crtdata) "CN=" with
          | None => Some c
          | Some _ => Some (log_event CeGetUser c)
          end
  end.

(** ** tls_negotiate *)

(** [err = gnutls_handshake (...); while (err == GNUTLS_E_AGAIN) err =
    gnutls_handshake (...);]: the last [err] and the answers not used.
    [None]: the answers ran out while the loop was still turning. *)
Fixpoint handshake_loop (answers : list Z) : option (Z * list Z) :=
  match answers with
  | [] => None
  | err :: rest =>
      if err =? GnutlsE.AGAIN then handshake_loop rest else Some (err, rest)
  end.

(** the label [fail:] *)
Definition negotiate_fail (c : Conn) : Z * Conn :=
  (-1, set_sockdata false (log_event CeDeinit (log_event CeFreeCred c))).

(** [tls_negotiate (conn)].  Left out are the calls whose result is not
    looked at and that change nothing this model follows: the trust files
    and the key file, the verify flags, the transport pointer, the prime
    bits and [gnutls_credentials_set].  [None]: the function does not
    return; the handshake or a dialog is still waiting for an answer, or
    [tls_get_client_cert] did not come back. *)
Definition tls_negotiate (g : Gnutls) (t : Tls) (c : Conn)
    : option (Z * Conn) :=
  let c := set_sockdata true c in
  if certificate_allocate_credentials t <? 0 then
    Some (-1, log_event (CeError "gnutls_certificate_allocate_credentials")
                (set_sockdata false c))
  else
    let c := set_world (set_xcred [] (world c)) (log_event CeAllocCred c) in
    if negb (gnutls_init t =? 0)
    then Some (negotiate_fail (log_event (CeError "gnutls_handshake") c))
    else
      let c := log_event CeInit c in
      let c :=
        if negb (server_name_set t =? 0)
        then log_event (CeError "Warning: unable to set TLS SNI host name") c
        else c in
      let (rv, c) := tls_set_priority t c in
      if rv <? 0 then Some (negotiate_fail c)
      else
        match handshake_loop (handshakes (peer c)) with
        | None => None
        | Some (err, rest) =>
            let c := log_event (CeHandshake err)
                       (set_peer (set_handshakes rest (peer c)) c) in
            if err <? 0
            then Some (negotiate_fail (log_event (CeError "gnutls_handshake") c))
            else
              match tls_check_certificate g (world c) with
              | None => None
              | Some (rc, w) =>
                  let c := set_world w c in
                  if rc =? 0 then Some (negotiate_fail c)
                  else
                    (* set Security Strength Factor (SSF) for SASL *)
                    let c := set_ssf (cipher_get_key_size t * 8) c in
                    match tls_get_client_cert g t c with
                    | None => None
                    | Some c =>
                        let c :=
                          if negb (OptNoCurses t)
                          then log_event
                                 (CeMessage "SSL/TLS connection using") c
                          else c in
                        Some (0, c)
                    end
              end
        end.

(** ** tls_socket_close, tls_socket_open, tls_starttls_close *)

Definition tls_socket_close (t : Tls) (c : Conn) : Z * Conn :=
  let c :=
    if sockdata c
    then set_sockdata false
           (log_event CeDeinit (log_event CeFreeCred (log_event CeBye c)))
    else c in
  (raw_socket_close t, log_event CeRawClose c).

Definition tls_socket_open (g : Gnutls) (t : Tls) (c : Conn)
    : option (Z * Conn) :=
  let c := log_event CeRawOpen c in
  if raw_socket_open t <? 0 then Some (-1, c)
  else
    match tls_negotiate g t c with
    | None => None
    | Some (rc, c) =>
        if rc <? 0 then Some (-1, snd (tls_socket_close t c))
        else Some (0, c)
    end.

Definition tls_starttls_close (t : Tls) (c : Conn) : Z * Conn :=
  let (rc, c) := tls_socket_close t c in
  (rc, set_methods {| conn_open := conn_open (methods c);
                      conn_read := fn_raw_socket_read;
                      conn_write := fn_raw_socket_write;
                      conn_close := fn_raw_socket_close;
                      conn_poll := fn_raw_socket_poll |} c).

(** ** mutt_ssl_socket_setup, mutt_ssl_starttls *)

Definition mutt_ssl_socket_setup (t : Tls) (c : Conn) : Z * Conn :=
  let (rc, c) := tls_init t c in
  if rc <? 0 then (-1, c)
  else (0, set_methods {| conn_open := fn_tls_socket_open;
                          conn_read := fn_tls_socket_read;
                          conn_write := fn_tls_socket_write;
                          conn_close := fn_tls_socket_close;
                          conn_poll := fn_tls_socket_poll |} c).

Definition mutt_ssl_starttls (g : Gnutls) (t : Tls) (c : Conn)
    : option (Z * Conn) :=
  let (rc, c) := tls_init t c in
  if rc <? 0 then Some (-1, c)
  else
    match tls_negotiate g t c with
    | None => None
    | Some (rc, c) =>
        if rc <? 0 then Some (-1, c)
        else Some (0, set_methods {| conn_open := conn_open (methods c);
                                     conn_read := fn_tls_socket_read;
                                     conn_write := fn_tls_socket_write;
                                     conn_close := fn_tls_starttls_close;
                                     conn_poll := fn_tls_socket_poll |} c)
    end.

(** ** tls_socket_read, tls_socket_write *)

(** [do { rc = gnutls_record_recv (...); } while (rc == GNUTLS_E_AGAIN ||
    rc == GNUTLS_E_INTERRUPTED);] with the answers of the library still to
    come: [rc].  [None]: the answers ran out while the loop was still
    turning. *)
Fixpoint record_recv_loop (answers : list (Z -> Z)) (count : Z) (c : Conn)
    : option (Z * Conn) :=
  match answers with
  | [] => None
  | recv :: rest =>
      let c := set_peer (set_recvs rest (peer c)) c in
      let rc := to_int (recv count) in
      if (rc =? GnutlsE.AGAIN) || (rc =? GnutlsE.INTERRUPTED)
      then record_recv_loop rest count c
      else Some (rc, c)
  end.

(** [tls_socket_read (conn, buf, count)]; the bytes that reach [buf] are not
    followed *)
Definition tls_socket_read (c : Conn) (count : Z) : option (Z * Conn) :=
  if negb (sockdata c)
  then Some (-1, log_event (CeError "Error: no TLS socket open") c)
  else
    match record_recv_loop (recvs (peer c)) count c with
    | None => None
    | Some (rc, c) =>
        if rc <? 0 then Some (-1, log_event (CeError "tls_socket_read") c)
        else Some (rc, c)
    end.

(** the two loops of [tls_socket_write], one answer of the library at a
    time, with [sent] as it stands: the value [tls_socket_write] returns.
    The library takes the first [ret] of the bytes it is handed.  [None]:
    the answers ran out while a loop was still turning. *)
Fixpoint record_send_loop (answers : list (Z -> Z)) (buf : list byte)
    (count sent : Z) (c : Conn) : option (Z * Conn) :=
  match answers with
  | [] => None
  | send :: rest =>
      let c := set_peer (set_sends rest (peer c)) c in
      let ret := to_int (send (to_size_t (count - sent))) in
      if (ret =? GnutlsE.AGAIN) || (ret =? GnutlsE.INTERRUPTED)
      then record_send_loop rest buf count sent c
      else if ret <? 0
      then Some (-1, log_event (CeError "tls_socket_write") c)
      else
        let taken := firstn (Z.to_nat ret) (skipn (Z.to_nat sent) buf) in
        let c := set_peer (add_wire taken (peer c)) c in
        let sent := to_size_t (sent + ret) in
        if sent <? count then record_send_loop rest buf count sent c
        else Some (to_int sent, c)
  end.

(** [tls_socket_write (conn, buf, count)] with [count] the length of [buf] *)
Definition tls_socket_write (c : Conn) (buf : list byte) : option (Z * Conn) :=
  if negb (sockdata c)
  then Some (-1, log_event (CeError "Error: no TLS socket open") c)
  else record_send_loop (sends (peer c)) buf (Z.of_nat (List.length buf)) 0 c.

(** ** What a connection holds *)

(** the credentials allocated and not freed in [evs] *)
Fixpoint creds_held (evs : list conn_event) : Z :=
  match evs with
  | [] => 0
  | CeAllocCred :: rest => 1 + creds_held rest
  | CeFreeCred :: rest => creds_held rest - 1
  | _ :: rest => creds_held rest
  end.

(** the library took the call to send as it should: it answers with an error
    code that fits an [int], or with a number of bytes not above the number
    it was asked to send *)
Definition send_in_bounds (send : Z -> Z) : Prop :=
  forall asked, 0 <= asked -> - 2 ^ 31 <= send asked <= asked.

(** the library does not fail and makes headway: asked for at least one
    byte, it takes at least one *)
Definition send_makes_headway (send : Z -> Z) : Prop :=
  forall asked, 0 <= asked -> 0 <= send asked /\ (0 < asked -> 0 < send asked).

(** [c'] is [c] with the events [new] added to its log *)
Definition only_logs (c c' : Conn) (new : list conn_event) : Prop :=
  sockdata c' = sockdata c /\ ssf c' = ssf c /\ methods c' = methods c
  /\ init_complete c' = init_complete c /\ world c' = world c
  /\ peer c' = peer c /\ log c' = (log c ++ new)%list.

(** one of the five protocols is switched on *)
Definition some_protocol (t : Tls) : bool :=
  C_SslUseTlsv13 t || C_SslUseTlsv12 t || C_SslUseTlsv11 t
  || C_SslUseTlsv1 t || C_SslUseSslv3 t.

(** ** A sample connection *)
Module SampleConn.

(** a library that does as it is asked; [on] switches the protocols on or
    off, all but SSL 3.0, which is off *)
Definition tls (on : bool) : Tls :=
  {| C_SslCiphers := None;
     C_SslUseTlsv13 := on;
     C_SslUseTlsv12 := on;
     C_SslUseTlsv11 := on;
     C_SslUseTlsv1 := on;
     C_SslUseSslv3 := false;
     OptNoCurses := false;
     gnutls_global_init := 0;
     certificate_allocate_credentials := 0;
     gnutls_init := 0;
     server_name_set := 0;
     priority_set_direct := fun _ => 0;
     cipher_get_key_size := 32;
     certificate_get_ours := None;
     x509_crt_get_dn_size := fun _ => 0;
     x509_crt_get_dn := fun _ => EmptyString;
     raw_socket_open := 0;
     raw_socket_close := 0 |}.

Definition plain : Methods :=
  {| conn_open := fn_raw_socket_open;
     conn_read := fn_raw_socket_read;
     conn_write := fn_raw_socket_write;
     conn_close := fn_raw_socket_close;
     conn_poll := fn_raw_socket_poll |}.

(** the other end: the handshake is done at the second call; a call to send
    takes at most three bytes, after one call that is to be tried again; a
    call to receive gives what is asked for, after one that was
    interrupted *)
Definition other_end : Peer :=
  {| handshakes := [GnutlsE.AGAIN; 0];
     sends := (fun _ => GnutlsE.AGAIN)
                :: repeat (fun asked => Z.min asked 3) 8;
     recvs := [fun _ => GnutlsE.INTERRUPTED; fun asked => asked];
     wire := [] |}.

(** a plain connection that was just opened *)
Definition conn : Conn :=
  {| sockdata := false;
     ssf := 0;
     methods := plain;
     init_complete := false;
     world := Sample.world None [] [];
     peer := other_end;
     log := [] |}.

End SampleConn.

(** a failed [tls_negotiate], step by step *)
Ltac negotiate_failed H :=
  unfold negotiate_fail in H; inversion H; subst; clear H; cbn;
  split; [reflexivity|]; split; [reflexivity|];
  eexists; split; [rewrite <- ?app_assoc; reflexivity|];
  right; repeat split; reflexivity.

(** ** Keys the dialog does not offer *)

(** the dialog with the keys [keys] takes no notice of [k] *)
Definition ignored_by (keys : string) (k : key_event) : bool :=
  match mutt_menu_loop keys k with
  | OP_OTHER => true
  | _ => false
  end.

(** ** The dialogs of a run *)

(** the positions of the certificates that a dialog was opened for, in the
    order of the dialogs *)
Fixpoint dialog_positions (evs : list event) : list Z :=
  match evs with
  | [] => []
  | EvDialog idx _ _ _ _ :: rest => idx :: dialog_positions rest
  | _ :: rest => dialog_positions rest
  end.

(** * Properties *)

(** ** Strings *)

Lemma append_nil_r (s : string) : s ++ "" = s.
Proof. induction s; simpl; congruence. Qed.

Lemma append_assoc (a b c : string) : (a ++ b) ++ c = a ++ (b ++ c).
Proof. induction a; simpl; congruence. Qed.

Lemma length_append (a b : string) :
  String.length (a ++ b) = (String.length a + String.length b)%nat.
Proof. induction a; simpl; congruence. Qed.

Lemma string_take_append (a b : string) :
  string_take (String.length a) (a ++ b) = a.
Proof. induction a; simpl; congruence. Qed.

Lemma string_forall_append (p : ascii -> bool) (a b : string) :
  string_forall p (a ++ b) = string_forall p a && string_forall p b.
Proof.
  induction a as [|c a IH]; simpl; [reflexivity|].
  rewrite IH. now rewrite andb_assoc.
Qed.

Lemma string_forall_impl (p q : ascii -> bool) (s : string) :
  (forall c, p c = true -> q c = true) ->
  string_forall p s = true -> string_forall q s = true.
Proof.
  intros Hpq. induction s as [|c s IH]; simpl; [reflexivity|].
  intros H. apply andb_true_iff in H as [Hc Hs].
  apply andb_true_iff. auto.
Qed.

(** ** The pattern of the pin line *)

Lemma span_host_append (h : string) (c : ascii) (r : string) :
  string_forall is_host_char h = true -> is_host_char c = false ->
  span_host (h ++ String c r) = (h, String c r).
Proof.
  intros Hh Hc. induction h as [|a h IH]; simpl in *.
  - now rewrite Hc.
  - apply andb_true_iff in Hh as [Ha Hh]. rewrite Ha, (IH Hh). reflexivity.
Qed.

Lemma span_host_sound (s h r : string) :
  span_host s = (h, r) ->
  s = h ++ r /\ string_forall is_host_char h = true.
Proof.
  revert h r. induction s as [|a s IH]; simpl; intros h r H.
  - inversion H. auto.
  - destruct (is_host_char a) eqn:Ha.
    + destruct (span_host s) as [h' r'] eqn:Hs. inversion H; subst.
      destruct (IH _ _ eq_refl) as [-> Hh]. simpl. rewrite Ha. auto.
    + inversion H. auto.
Qed.

Lemma eat_hex4_append (s r t : string) :
  eat_hex4 s = Some r -> eat_hex4 (s ++ t) = Some (r ++ t).
Proof.
  destruct s as [|a [|b [|c [|d s]]]]; simpl; try discriminate.
  destruct (is_hex_char a && is_hex_char b && is_hex_char c && is_hex_char d);
    [|discriminate].
  intros H. inversion H. reflexivity.
Qed.

Lemma eat_hex4_split (s r : string) :
  eat_hex4 s = Some r ->
  exists p, s = p ++ r /\ eat_hex4 p = Some "" /\ String.length p = 4%nat
            /\ string_forall is_hex_char p = true.
Proof.
  destruct s as [|a [|b [|c [|d s]]]]; simpl; try discriminate.
  destruct (is_hex_char a && is_hex_char b && is_hex_char c && is_hex_char d)
    eqn:E; [|discriminate].
  intros H. inversion H; subst.
  exists (String a (String b (String c (String d "")))). simpl. rewrite E.
  repeat split.
  apply andb_true_iff in E as [E Hd]. apply andb_true_iff in E as [E Hc].
  apply andb_true_iff in E as [Ha Hb]. now rewrite Ha, Hb, Hc, Hd.
Qed.

Lemma eat_groups_append (k : nat) (s r t : string) :
  eat_groups k s = Some r -> eat_groups k (s ++ t) = Some (r ++ t).
Proof.
  revert s. induction k as [|k IH]; simpl; intros s H.
  - inversion H. reflexivity.
  - destruct s as [|sp s]; [discriminate|]. simpl.
    destruct (Ascii.eqb sp SPACE); [|discriminate].
    destruct (eat_hex4 s) as [r'|] eqn:E; [|discriminate].
    rewrite (eat_hex4_append _ _ t E). auto.
Qed.

Lemma eat_groups_split (k : nat) (s r : string) :
  eat_groups k s = Some r ->
  exists p, s = p ++ r /\ eat_groups k p = Some ""
            /\ String.length p = (5 * k)%nat
            /\ string_forall is_digest_char p = true.
Proof.
  revert s. induction k as [|k IH]; simpl; intros s H.
  - inversion H. exists "". auto.
  - destruct s as [|sp s]; [discriminate|].
    destruct (Ascii.eqb sp SPACE) eqn:Hsp; [|discriminate].
    destruct (eat_hex4 s) as [r'|] eqn:E; [|discriminate].
    destruct (eat_hex4_split _ _ E) as (p1 & -> & E1 & L1 & F1).
    destruct (IH _ H) as (p2 & -> & E2 & L2 & F2).
    exists (String sp (p1 ++ p2)). simpl. rewrite Hsp.
    rewrite (eat_hex4_append _ _ p2 E1). simpl. rewrite E2.
    rewrite append_assoc, length_append, L1, L2, string_forall_append, F2.
    rewrite (string_forall_impl is_hex_char is_digest_char p1); auto.
    + unfold is_digest_char at 1. rewrite Hsp, orb_true_r.
      repeat split. lia.
    + intros c Hc. unfold is_digest_char. now rewrite Hc.
Qed.

Lemma digest_ok_length (d : string) :
  digest_ok d = true -> String.length d = 39%nat.
Proof.
  unfold digest_ok. destruct (eat_hex4 d) as [r|] eqn:E; [|discriminate].
  destruct (eat_groups 7 r) as [[|]|] eqn:G; try discriminate. intros _.
  destruct (eat_hex4_split _ _ E) as (p1 & -> & _ & L1 & _).
  destruct (eat_groups_split _ _ _ G) as (p2 & -> & _ & L2 & _).
  rewrite !length_append, L1, L2. reflexivity.
Qed.

Lemma digest_ok_chars (d : string) :
  digest_ok d = true -> string_forall is_digest_char d = true.
Proof.
  unfold digest_ok. destruct (eat_hex4 d) as [r|] eqn:E; [|discriminate].
  destruct (eat_groups 7 r) as [[|]|] eqn:G; try discriminate. intros _.
  destruct (eat_hex4_split _ _ E) as (p1 & -> & _ & _ & F1).
  destruct (eat_groups_split _ _ _ G) as (p2 & -> & _ & _ & F2).
  rewrite !string_forall_append, F2.
  rewrite (string_forall_impl is_hex_char is_digest_char p1); auto.
  intros c Hc. unfold is_digest_char. now rewrite Hc.
Qed.

Lemma digest_ok_parse (d b : string) :
  digest_ok d = true ->
  exists r, eat_hex4 (d ++ b) = Some r /\ eat_groups 7 r = Some b
            /\ string_take 39 (d ++ b) = d.
Proof.
  intros Hd. pose proof (digest_ok_length _ Hd) as L. revert Hd.
  unfold digest_ok. destruct (eat_hex4 d) as [r|] eqn:E; [|discriminate].
  destruct (eat_groups 7 r) as [[|]|] eqn:G; try discriminate. intros _.
  exists (r ++ b). split; [now apply eat_hex4_append|]. split.
  - now rewrite (eat_groups_append _ _ _ b G).
  - rewrite <- L. apply string_take_append.
Qed.

Lemma digest_parse_ok (r2 r3 r4 : string) :
  eat_hex4 r2 = Some r3 -> eat_groups 7 r3 = Some r4 ->
  exists d, r2 = d ++ r4 /\ digest_ok d = true /\ string_take 39 r2 = d.
Proof.
  intros E G.
  destruct (eat_hex4_split _ _ E) as (p1 & -> & E1 & L1 & _).
  destruct (eat_groups_split _ _ _ G) as (p2 & -> & G2 & L2 & _).
  exists (p1 ++ p2). rewrite append_assoc. split; [reflexivity|].
  assert (Hd : digest_ok (p1 ++ p2) = true).
  { unfold digest_ok. rewrite (eat_hex4_append _ _ p2 E1). cbn [append]. now rewrite G2. }
  split; [exact Hd|].
  rewrite <- append_assoc.
  replace 39%nat with (String.length (p1 ++ p2)).
  - apply string_take_append.
  - now apply digest_ok_length.
Qed.

Lemma space_not_host : is_host_char SPACE = false.
Proof. reflexivity. Qed.

Lemma regexec_hostname_pin (h d blanks : string) :
  hostname_ok h = true -> digest_ok d = true -> all_blank blanks = true ->
  regexec_hostname_line ("#H " ++ h ++ " " ++ d ++ blanks) = Some (h, d).
Proof.
  intros Hh Hd Hb. cbn [append regexec_hostname_line].
  replace (Ascii.eqb "#" "#" && (Ascii.eqb "H" "H" || Ascii.eqb "H" "h")
           && Ascii.eqb " " SPACE) with true by reflexivity.
  assert (Fh : string_forall is_host_char h = true)
    by (destruct h; [discriminate | exact Hh]).
  rewrite (span_host_append h " "%char (d ++ blanks) Fh space_not_host).
  destruct h as [|c h]; [discriminate|].
  rewrite Ascii.eqb_refl.
  destruct (digest_ok_parse d blanks Hd) as (r & E & G & T).
  now rewrite E, G, Hb, T.
Qed.

Lemma regexec_hostname_sound (r h d : string) :
  regexec_hostname_line (String "#" (String "H" r)) = Some (h, d) ->
  is_hostname_pin (String "#" (String "H" r)) h d.
Proof.
  destruct r as [|c2 r0]; try discriminate.
  cbn [regexec_hostname_line].
  destruct (Ascii.eqb "#" "#" && (Ascii.eqb "H" "H" || Ascii.eqb "H" "h")
            && Ascii.eqb c2 SPACE) eqn:E; [|discriminate].
  apply andb_true_iff in E as [_ E2].
  apply Ascii.eqb_eq in E2. subst c2.
  destruct (span_host r0) as [host r1] eqn:Hs.
  destruct host as [|a host]; [discriminate|].
  destruct r1 as [|sp r2]; [discriminate|].
  destruct (Ascii.eqb sp SPACE) eqn:Esp; [|discriminate].
  apply Ascii.eqb_eq in Esp. subst sp.
  destruct (eat_hex4 r2) as [r3|] eqn:E4; [|discriminate].
  destruct (eat_groups 7 r3) as [r4|] eqn:G; [|discriminate].
  destruct (all_blank r4) eqn:B; [|discriminate].
  intros H.
  assert (HH : (String a host, string_take 39 r2) = (h, d)) by congruence.
  clear H. apply pair_equal_spec in HH as [<- <-].
  destruct (span_host_sound _ _ _ Hs) as [-> Fh].
  destruct (digest_parse_ok _ _ _ E4 G) as (d & Hr2 & Hd & T).
  rewrite T. split; [exact Fh|]. split; [exact Hd|].
  exists r4. split; [exact B|]. rewrite Hr2 at 1.
  cbn [append]. reflexivity.
Qed.

Lemma hostname_line_matches_iff (buf hostname linestr : string) :
  hostname_line_matches buf hostname linestr = true <->
  is_hostname_pin linestr hostname buf.
Proof.
  split.
  - unfold hostname_line_matches.
    destruct linestr as [|c0 [|c1 r]]; try discriminate.
    destruct (Ascii.eqb c0 "#" && Ascii.eqb c1 "H") eqn:E; [|discriminate].
    apply andb_true_iff in E as [E0 E1]. apply Ascii.eqb_eq in E0, E1. subst.
    destruct (regexec_hostname_line (String "#" (String "H" r)))
      as [[h d]|] eqn:R; [|discriminate].
    intros H. apply andb_true_iff in H as [Hh Hd].
    apply String.eqb_eq in Hh, Hd. subst.
    now apply regexec_hostname_sound.
  - intros (Hh & Hd & blanks & Hb & ->).
    unfold hostname_line_matches.
    rewrite (regexec_hostname_pin _ _ _ Hh Hd Hb).
    cbn [append]. change (Ascii.eqb "#" "#" && Ascii.eqb "H" "H") with true.
    cbv iota. now rewrite !String.eqb_refl.
Qed.

(** a well-formed pin line matches a query exactly when host name and digest
    are the same text *)
Lemma hostname_pin_line_matches (buf hostname h d : string) :
  hostname_ok h = true -> digest_ok d = true ->
  hostname_line_matches buf hostname ("#H " ++ h ++ " " ++ d)
  = String.eqb h hostname && String.eqb d buf.
Proof.
  intros Hh Hd. unfold hostname_line_matches.
  pose proof (regexec_hostname_pin h d "" Hh Hd eq_refl) as R.
  rewrite append_nil_r in R. rewrite R. reflexivity.
Qed.

Lemma stored_hostname_scan_iff (buf hostname : string) (lines : list string) :
  stored_hostname_scan buf hostname lines = 1 <->
  exists l, In l lines /\ hostname_line_matches buf hostname l = true.
Proof.
  induction lines as [|l lines IH]; simpl.
  - split; [discriminate|]. intros (l & [] & _).
  - destruct (hostname_line_matches buf hostname l) eqn:M.
    + split; [|reflexivity]. intros _. exists l. auto.
    + rewrite IH. split.
      * intros (l' & Hin & Hm). eauto.
      * intros (l' & [<-|Hin] & Hm); [congruence|eauto].
Qed.

Lemma stored_hostname_scan_app (buf hostname : string) (a b : list string) :
  stored_hostname_scan buf hostname (a ++ b)%list
  = if stored_hostname_scan buf hostname a =? 1 then 1
    else stored_hostname_scan buf hostname b.
Proof.
  induction a as [|l a IH]; simpl; [reflexivity|].
  destruct (hostname_line_matches buf hostname l); [reflexivity|exact IH].
Qed.

Lemma stored_hostname_scan_01 (buf hostname : string) (lines : list string) :
  stored_hostname_scan buf hostname lines = 0 \/
  stored_hostname_scan buf hostname lines = 1.
Proof.
  induction lines as [|l lines IH]; simpl; [auto|].
  destruct (hostname_line_matches buf hostname l); auto.
Qed.

(** ** The rendered fingerprint *)

Lemma hex_digit_is_hex (n : N) : is_hex_char (hex_digit n) = true.
Proof.
  unfold hex_digit. generalize (N.to_nat n) as m. intros m.
  do 16 (destruct m as [|m]; [reflexivity|]).
  reflexivity.
Qed.

Lemma string_take_all (n : nat) (s : string) :
  (String.length s <= n)%nat -> string_take n s = s.
Proof.
  revert n. induction s as [|c s IH]; intros [|n] H; simpl in *;
    try reflexivity; try lia.
  now rewrite IH by lia.
Qed.

Lemma eat_hex4_two_octets (i : nat) (a b : byte) (rest : list byte) (t : string) :
  Nat.odd i = false ->
  eat_hex4 (fingerprint_octets i (a :: b :: rest) ++ t)
  = Some (String SPACE (fingerprint_octets (S (S i)) rest ++ t)).
Proof.
  intros Hi. cbn [fingerprint_octets]. unfold fingerprint_octet.
  assert (Hs : Nat.odd (S i) = true).
  { rewrite Nat.odd_succ, <- Nat.negb_odd, Hi. reflexivity. }
  rewrite Hi, Hs. cbn [append eat_hex4].
  now rewrite !hex_digit_is_hex.
Qed.

Lemma eat_groups_octets (k i : nat) (md : list byte) (t : string) :
  Nat.odd i = false -> List.length md = (2 * k)%nat ->
  eat_groups k (String SPACE (fingerprint_octets i md ++ t))
  = Some (String SPACE t).
Proof.
  revert i md. induction k as [|k IH]; intros i md Hi L.
  - destruct md; [reflexivity|discriminate].
  - destruct md as [|a [|b rest]]; try (simpl in L; lia).
    cbn [eat_groups]. rewrite Ascii.eqb_refl.
    rewrite (eat_hex4_two_octets i a b rest t Hi).
    apply IH.
    + now rewrite !Nat.odd_succ, Nat.even_succ.
    + simpl in L. lia.
Qed.

(** the MD5 fingerprint, 16 octets, is a digest the pin line admits *)
Lemma tls_fingerprint_md5_ok (g : Gnutls) (algo : digest_algorithm)
    (buflen : nat) (data : datum) (md : list byte) :
  gnutls_fingerprint g algo data = Some md -> List.length md = 16%nat ->
  (41 <= buflen)%nat ->
  digest_ok (tls_fingerprint g algo buflen data) = true /\
  fingerprint_octets 0 md = tls_fingerprint g algo buflen data ++ " " /\
  tls_fingerprint g algo buflen data = string_take 39 (fingerprint_octets 0 md).
Proof.
  intros Hf L Hb. unfold tls_fingerprint. rewrite Hf, L.
  destruct md as [|a [|b rest]]; try discriminate.
  pose proof (eat_hex4_two_octets 0 a b rest "" eq_refl) as E.
  pose proof (eat_groups_octets 7 2 rest "" eq_refl) as G.
  rewrite !append_nil_r in E. rewrite !append_nil_r in G.
  assert (L' : List.length rest = (2 * 7)%nat) by (simpl in L; lia).
  specialize (G L').
  destruct (digest_parse_ok _ _ _ E G) as (d & Hs & Hd & T).
  assert (Hlen : String.length (fingerprint_octets 0 (a :: b :: rest)) = 40%nat).
  { rewrite Hs, length_append, (digest_ok_length _ Hd). reflexivity. }
  rewrite (string_take_all (buflen - 1)) by lia.
  change (2 * 16 + 16 / 2 - 1)%nat with 39%nat.
  split; [now rewrite T|]. split; [rewrite T, Hs at 1; reflexivity|reflexivity].
Qed.

(** ** Reading the file line by line *)

Lemma raw_lines_nil (s : string) : raw_lines s = [] -> s = "".
Proof.
  destruct s as [|c r]; [reflexivity|]. simpl.
  destruct (Ascii.eqb c LF); [discriminate|].
  destruct (raw_lines r) as [|[l t] ls]; discriminate.
Qed.

Lemma raw_lines_app (a b : string) :
  complete_lines a = true ->
  raw_lines (a ++ b) = (raw_lines a ++ raw_lines b)%list.
Proof.
  induction a as [|c r IH]; [reflexivity|].
  intros H. cbn [append raw_lines].
  assert (Hr : r = "" \/ complete_lines r = true).
  { destruct r; [auto|right; exact H]. }
  destruct (Ascii.eqb c LF) eqn:E.
  - destruct Hr as [->|Hr]; [reflexivity|]. now rewrite (IH Hr).
  - destruct Hr as [->|Hr]; [simpl in H; congruence|].
    rewrite (IH Hr).
    destruct (raw_lines r) as [|[l t] ls] eqn:R.
    + apply raw_lines_nil in R. subst r. simpl in H. congruence.
    + reflexivity.
Qed.

Lemma raw_lines_line (l : string) :
  string_forall not_eol l = true ->
  raw_lines (l ++ String LF "") = [(l, true)].
Proof.
  induction l as [|c l IH]; [reflexivity|].
  intros H. simpl in H. apply andb_true_iff in H as [Hc Hl].
  cbn [append raw_lines]. rewrite (IH Hl).
  unfold not_eol in Hc. apply andb_true_iff in Hc as [Hc _].
  apply negb_true_iff in Hc. now rewrite Hc.
Qed.

Lemma chomp_cr_id (l : string) :
  string_forall not_eol l = true -> chomp_cr l = l.
Proof.
  induction l as [|c l IH]; [reflexivity|].
  intros H. simpl in H. apply andb_true_iff in H as [Hc Hl].
  cbn [chomp_cr]. rewrite (IH Hl).
  unfold not_eol in Hc. apply andb_true_iff in Hc as [_ Hc].
  apply negb_true_iff in Hc. rewrite Hc. now destruct l.
Qed.

Lemma read_lines_append_line (text l : string) :
  complete_lines text = true -> string_forall not_eol l = true ->
  mutt_file_read_lines (text ++ l ++ String LF "")
  = (mutt_file_read_lines text ++ [l])%list.
Proof.
  intros Ht Hl. unfold mutt_file_read_lines.
  rewrite (raw_lines_app _ _ Ht), map_app, (raw_lines_line _ Hl).
  cbn [map fst snd]. now rewrite (chomp_cr_id _ Hl).
Qed.

Lemma complete_lines_append_line (text l : string) :
  complete_lines (text ++ l ++ String LF "") = true.
Proof.
  assert (H : forall s, complete_lines (s ++ String LF "") = true).
  { induction s as [|c s IH]; [reflexivity|].
    cbn [append complete_lines]. rewrite IH.
    destruct (s ++ String LF "") eqn:E; [|reflexivity].
    destruct s; discriminate. }
  rewrite <- append_assoc. apply H.
Qed.

Lemma hostname_pin_line_split (h d : string) :
  hostname_pin_line h d = ("#H " ++ h ++ " " ++ d) ++ String LF "".
Proof.
  unfold hostname_pin_line. now rewrite !append_assoc.
Qed.

Lemma pin_line_no_eol (h d : string) :
  hostname_ok h = true -> digest_ok d = true ->
  string_forall not_eol ("#H " ++ h ++ " " ++ d) = true.
Proof.
  intros Hh Hd.
  assert (Fh : string_forall is_host_char h = true)
    by (destruct h; [discriminate | exact Hh]).
  assert (Nh : string_forall not_eol h = true).
  { apply (string_forall_impl is_host_char); [|exact Fh].
    intros c Hc. destruct c as [[] [] [] [] [] [] [] []]; try reflexivity;
      discriminate. }
  assert (Nd : string_forall not_eol d = true).
  { apply (string_forall_impl is_digest_char); [|now apply digest_ok_chars].
    intros c Hc. destruct c as [[] [] [] [] [] [] [] []]; try reflexivity;
      discriminate. }
  rewrite !string_forall_append, Nh, Nd. reflexivity.
Qed.

(** the lookup after one more pin line was appended *)
Lemma stored_hostname_after_pin (g : Gnutls) (text h d : string)
    (cert : datum) (hostname : string) :
  complete_lines text = true -> hostname_ok h = true -> digest_ok d = true ->
  tls_check_stored_hostname g (Some (text ++ hostname_pin_line h d)) cert hostname
  = if tls_check_stored_hostname g (Some text) cert hostname =? 1 then 1
    else if String.eqb h hostname
            && String.eqb d (tls_fingerprint g GNUTLS_DIG_MD5 80 cert)
         then 1 else 0.
Proof.
  intros Ht Hh Hd. unfold tls_check_stored_hostname.
  rewrite hostname_pin_line_split.
  rewrite (read_lines_append_line _ _ Ht (pin_line_no_eol _ _ Hh Hd)).
  rewrite stored_hostname_scan_app.
  destruct (stored_hostname_scan _ hostname (mutt_file_read_lines text) =? 1);
    [reflexivity|].
  cbn [stored_hostname_scan].
  now rewrite (hostname_pin_line_matches _ _ _ _ Hh Hd).
Qed.

Lemma append_hostname_pins_complete (pins : list (string * string)) (text : string) :
  complete_lines text = true ->
  complete_lines (append_hostname_pins text pins) = true.
Proof.
  revert text. induction pins as [|[h d] pins IH]; intros text Ht; [exact Ht|].
  cbn [append_hostname_pins fold_left fst snd]. apply IH.
  rewrite hostname_pin_line_split. apply complete_lines_append_line.
Qed.

(** ** The lookup of hostname pins *)

Lemma stored_hostname_01 (g : Gnutls) (file : option string) (cert : datum)
    (hostname : string) :
  tls_check_stored_hostname g file cert hostname = 0 \/
  tls_check_stored_hostname g file cert hostname = 1.
Proof.
  destruct file as [text|]; [apply stored_hostname_scan_01 | now left].
Qed.

(** the lookup after a run of pin lines was appended *)
Lemma stored_hostname_after_pins (g : Gnutls) (pins : list (string * string))
    (text : string) (cert : datum) (hostname : string) :
  complete_lines text = true ->
  Forall (fun p => hostname_ok (fst p) = true /\ digest_ok (snd p) = true) pins ->
  tls_check_stored_hostname g (Some (append_hostname_pins text pins)) cert hostname
  = if tls_check_stored_hostname g (Some text) cert hostname =? 1 then 1
    else if existsb (fun p => String.eqb (fst p) hostname
                       && String.eqb (snd p) (tls_fingerprint g GNUTLS_DIG_MD5 80 cert))
                    pins
         then 1 else 0.
Proof.
  revert text. induction pins as [|[h d] pins IH]; intros text Ht Hp.
  - cbn [append_hostname_pins fold_left existsb].
    destruct (stored_hostname_01 g (Some text) cert hostname) as [-> | ->];
      reflexivity.
  - inversion Hp as [|p ps [Hh Hd] Hps]; subst. cbn [fst snd] in Hh, Hd.
    change (append_hostname_pins text ((h, d) :: pins))
      with (append_hostname_pins (text ++ hostname_pin_line h d) pins).
    rewrite IH; [|rewrite hostname_pin_line_split;
                  apply complete_lines_append_line | exact Hps].
    rewrite (stored_hostname_after_pin g text h d cert hostname Ht Hh Hd).
    cbn [existsb fst snd].
    destruct (tls_check_stored_hostname g (Some text) cert hostname =? 1);
      [reflexivity|].
    destruct (String.eqb h hostname
              && String.eqb d (tls_fingerprint g GNUTLS_DIG_MD5 80 cert));
      reflexivity.
Qed.

(** C9, as amended.  [tls_check_stored_hostname] returns 1 exactly when the
    certificate file can be read and one of its lines is a hostname pin whose
    host name is the very text of the queried host name, letter case
    included, and whose digest is the very text of the MD5 fingerprint of the
    certificate; otherwise it returns 0. *)
Theorem stored_hostname_exact_match (g : Gnutls) (file : option string)
    (cert : datum) (hostname : string) :
  (tls_check_stored_hostname g file cert hostname = 1 <->
   exists text, file = Some text /\
     exists linestr, In linestr (mutt_file_read_lines text) /\
       is_hostname_pin linestr hostname
         (tls_fingerprint g GNUTLS_DIG_MD5 80 cert))
  /\ (tls_check_stored_hostname g file cert hostname = 0 \/
      tls_check_stored_hostname g file cert hostname = 1).
Proof.
  split; [|apply stored_hostname_01].
  destruct file as [text|]; cbn [tls_check_stored_hostname].
  - rewrite stored_hostname_scan_iff. split.
    + intros (l & Hin & Hm). exists text. split; [reflexivity|].
      exists l. split; [exact Hin|]. now apply hostname_line_matches_iff.
    + intros (text' & [= <-] & l & Hin & Hp).
      exists l. split; [exact Hin|]. now apply hostname_line_matches_iff.
  - split; [discriminate|]. intros (text & H & _). discriminate.
Qed.

(** C9, as the design document states it, fails: the file holds a pin for
    [Mail.Example.org] with the digest of the certificate, the lookup for
    [mail.example.org] returns 0. *)
Lemma stored_hostname_case_sensitive :
  let g := Sample.session "mail.example.org" [Sample.leaf]
             Sample.never false Sample.clean in
  let digest := tls_fingerprint g GNUTLS_DIG_MD5 80 Sample.leaf in
  let text := hostname_pin_line "Mail.Example.org" digest in
  ~ (tls_check_stored_hostname g (Some text) Sample.leaf "mail.example.org" = 1
     <-> exists linestr h,
           In linestr (mutt_file_read_lines text) /\
           is_hostname_pin linestr h digest /\
           eq_nocase h "mail.example.org").
Proof.
  intros g digest text [_ H].
  assert (E : tls_check_stored_hostname g (Some text) Sample.leaf
                "mail.example.org" = 0) by (vm_compute; reflexivity).
  rewrite E in H. enough (0 = 1) by discriminate. apply H.
  exists ("#H Mail.Example.org " ++ digest), "Mail.Example.org".
  split; [vm_compute; auto|]. split; [|reflexivity].
  split; [reflexivity|]. split; [reflexivity|].
  exists "". split; [reflexivity|]. vm_compute. reflexivity.
Qed.

(** X26.  Pins whose host names are made of the characters the pattern of
    the pin line admits (letters, digits, underscore, backslash, dot and
    hyphen) and whose digests have the rendered form of an MD5 fingerprint
    are appended to a certificate file that is empty or ends
    with a newline.  Then the lookup of a host name with a certificate whose
    fingerprint was appended for it returns 1; and the lookup with a
    certificate whose fingerprint differs from every digest appended for that
    host name returns 0, where it returned 0 before the pins were appended. *)
Theorem hostname_pin_roundtrip (g : Gnutls) (base : string)
    (pins : list (string * string)) (hostname : string) (cert : datum) :
  complete_lines base = true ->
  Forall (fun p => hostname_ok (fst p) = true /\ digest_ok (snd p) = true) pins ->
  let buf := tls_fingerprint g GNUTLS_DIG_MD5 80 cert in
  let file := Some (append_hostname_pins base pins) in
  (In (hostname, buf) pins ->
   tls_check_stored_hostname g file cert hostname = 1) /\
  (tls_check_stored_hostname g (Some base) cert hostname = 0 ->
   (forall d, In (hostname, d) pins -> d <> buf) ->
   tls_check_stored_hostname g file cert hostname = 0).
Proof.
  intros Hb Hp buf file. unfold file.
  rewrite (stored_hostname_after_pins g pins base cert hostname Hb Hp).
  fold buf. split.
  - intros Hin.
    destruct (tls_check_stored_hostname g (Some base) cert hostname =? 1);
      [reflexivity|].
    replace (existsb _ pins) with true; [reflexivity|].
    symmetry. apply existsb_exists. exists (hostname, buf).
    split; [exact Hin|]. cbn [fst snd]. now rewrite !String.eqb_refl.
  - intros H0 Hd. rewrite H0. cbn.
    destruct (existsb _ pins) eqn:E; [|reflexivity].
    apply existsb_exists in E as ([h d] & Hin & Hm). cbn [fst snd] in Hm.
    apply andb_true_iff in Hm as [Hh Hd']. apply String.eqb_eq in Hh, Hd'.
    subst. now elim (Hd _ Hin).
Qed.

Lemma hostname_pin_roundtrip_witness :
  let g := Sample.session "mail.example.org" [Sample.leaf]
             Sample.never false Sample.clean in
  let file := Some (append_hostname_pins ""
                [("mail.example.org", tls_fingerprint g GNUTLS_DIG_MD5 80 Sample.leaf)]) in
  tls_check_stored_hostname g file Sample.leaf "mail.example.org" = 1 /\
  tls_check_stored_hostname g file Sample.root "mail.example.org" = 0.
Proof.
  intros g file.
  split.
  - apply (hostname_pin_roundtrip g ""
             [("mail.example.org", tls_fingerprint g GNUTLS_DIG_MD5 80 Sample.leaf)]
             "mail.example.org" Sample.leaf).
    + reflexivity.
    + repeat constructor.
    + left. reflexivity.
  - apply (hostname_pin_roundtrip g ""
             [("mail.example.org", tls_fingerprint g GNUTLS_DIG_MD5 80 Sample.leaf)]
             "mail.example.org" Sample.root).
    + reflexivity.
    + repeat constructor.
    + reflexivity.
    + intros d [[= <-]|[]]. vm_compute. discriminate.
Defined.

(** C8.  The writer and the reader of a hostname pin do not agree.  The
    host is the IPv6 address [::1], which the leaf does not name.  The user
    accepts the leaf for ever, the hostname pin is written and "Certificate
    saved" is shown; the lookup of the same host with the same certificate
    then returns 0, for the pattern of the reader admits no colon, where
    the writer prints any host name. *)
Theorem hostname_pin_roundtrip_fails_for_ipv6 :
  let g := Sample.session "::1" [Sample.leaf] Sample.never false Sample.clean in
  let line := hostname_pin_line "::1"
                (tls_fingerprint g GNUTLS_DIG_MD5 128 Sample.leaf) in
  let w := {| cert_file := Some line; xcred := []; keyboard := []; disk := [];
              trace := [EvDialog 0 1 Certerr.HOSTNAME 0 "roa";
                        EvChoice 0 AcceptAlways;
                        EvSaved 0 Certerr.HOSTNAME HostnamePin line;
                        EvMessage "Certificate saved"] |} in
  tls_check_one_certificate g Sample.leaf 0 "::1" 0 1
    (Sample.world None [KeyChar "a"] []) = Some (1, w)
  /\ tls_check_stored_hostname g (read_cert_file g w) Sample.leaf "::1" = 0.
Proof. intros g line w. split; vm_compute; reflexivity. Qed.

(** ** tls_check_preauth *)

(** up to the look into the certificate file only the dates, the host name
    and the revocation can have set a bit *)
Lemma preauth_own_checks_bits (g : Gnutls) (file : option string)
    (certdata : datum) (certstat : Z) (hostname : string) (chainidx : Z) :
  let own := fst (preauth_own_checks g file certdata certstat hostname chainidx) in
  Z.land own own_mask = own.
Proof.
  unfold preauth_own_checks, preauth_dates, preauth_hostname, consume.
  case_ifs; reflexivity.
Qed.

Lemma preauth_own_checks_revoked (g : Gnutls) (file : option string)
    (certdata : datum) (certstat : Z) (hostname : string) (chainidx : Z) :
  has_bit (fst (preauth_own_checks g file certdata certstat hostname chainidx))
          Certerr.REVOKED
  = has_bit certstat GnutlsCert.REVOKED.
Proof.
  unfold preauth_own_checks, preauth_dates, preauth_hostname, consume.
  destruct (has_bit certstat GnutlsCert.REVOKED); case_ifs; reflexivity.
Qed.

Lemma consume_keeps (flag bit : Z) (st : Z * Z) :
  fst (consume flag bit st) = 0 -> fst st = 0.
Proof.
  unfold consume. destruct st as [certerr certstat].
  destruct (has_bit certstat flag); cbn [fst]; [|auto].
  intros H. apply Z.lor_eq_0_iff in H. tauto.
Qed.

Lemma preauth_library_status_keeps (st : Z * Z) :
  preauth_library_status st = 0 -> fst st = 0.
Proof.
  unfold preauth_library_status.
  destruct (consume GnutlsCert.INSECURE_ALGORITHM _ _) as [certerr certstat] eqn:E.
  intros H.
  assert (H0 : certerr = 0).
  { destruct (certstat =? 0); [exact H|]. apply Z.lor_eq_0_iff in H. tauto. }
  subst certerr.
  apply (f_equal fst) in E. cbn [fst] in E.
  now do 4 apply consume_keeps in E.
Qed.

(** [tls_check_preauth] returns 0 exactly when it leaves [*certerr] at
    [CERTERR_VALID] and the certificate could be read *)
Lemma preauth_rc_zero (g : Gnutls) (file : option string) (certdata : datum)
    (certstat : Z) (hostname : string) (chainidx : Z) (rc certerr savedcert : Z) :
  tls_check_preauth g file certdata certstat hostname chainidx
  = (rc, certerr, savedcert) ->
  (rc = 0 <-> x509_crt_import g certdata = true /\ certerr = Certerr.VALID)
  /\ (rc = 0 \/ rc = -1).
Proof.
  unfold tls_check_preauth.
  destruct (x509_crt_import g certdata); cbn [negb].
  - destruct (negb (tls_compare_certificates g file certdata =? 0)
              && (fst (preauth_own_checks g file certdata certstat hostname chainidx)
                  =? Certerr.VALID)) eqn:E.
    + intros [= <- <- <-]. apply andb_true_iff in E as [_ E].
      apply Z.eqb_eq in E. tauto.
    + destruct (preauth_library_status _ =? Certerr.VALID) eqn:V;
        intros [= <- <- <-].
      * apply Z.eqb_eq in V. tauto.
      * apply Z.eqb_neq in V. split; [|tauto]. split; [discriminate|tauto].
  - intros [= <- <- <-]. split; [|tauto]. split; [discriminate|].
    intros [? _]. discriminate.
Qed.

Lemma compare_certificates_loop_01 (g : Gnutls) (fuel : nat) (b64_data : string)
    (peercert : datum) :
  compare_certificates_loop g fuel b64_data peercert = 0 \/
  compare_certificates_loop g fuel b64_data peercert = 1.
Proof.
  revert b64_data. induction fuel as [|fuel IH]; intros b64_data; cbn; [auto|].
  destruct (pem_base64_decode g b64_data); [|auto].
  destruct (strstr b64_data CERT_SEP); [|auto].
  destruct (datum_eqb d peercert); [auto|].
  destruct (strstr _ CERT_SEP); auto.
Qed.

Lemma compare_certificates_01 (g : Gnutls) (file : option string)
    (peercert : datum) :
  tls_compare_certificates g file peercert = 0 \/
  tls_compare_certificates g file peercert = 1.
Proof.
  destruct file; [apply compare_certificates_loop_01 | now left].
Qed.

Lemma has_bit_nonzero (x flag : Z) : has_bit x flag = true -> x <> 0.
Proof.
  unfold has_bit. intros H ->. rewrite Z.land_0_l in H. discriminate.
Qed.

(** C2, as amended.  [tls_check_preauth] takes the short cut for a saved
    certificate (it returns 0 with [*certerr] cleared and [*savedcert] set)
    exactly when the certificate can be read, [tls_compare_certificates]
    finds it in the certificate file, and none of [CERTERR_EXPIRED],
    [CERTERR_NOTYETVALID], [CERTERR_REVOKED] and [CERTERR_HOSTNAME] was set
    before.  A revoked certificate never takes the short cut, and neither
    does one whose host name check failed. *)
Theorem preauth_saved_short_circuit (g : Gnutls) (file : option string)
    (certdata : datum) (certstat : Z) (hostname : string) (chainidx : Z) :
  let own := fst (preauth_own_checks g file certdata certstat hostname chainidx) in
  let short_cut :=
    tls_check_preauth g file certdata certstat hostname chainidx
    = (0, Certerr.VALID, 1) in
  (short_cut <->
   x509_crt_import g certdata = true /\
   tls_compare_certificates g file certdata = 1 /\
   Z.land own own_mask = 0)
  /\ (has_bit certstat GnutlsCert.REVOKED = true -> ~ short_cut)
  /\ (has_bit own Certerr.HOSTNAME = true -> ~ short_cut).
Proof.
  intros own short_cut.
  pose proof (preauth_own_checks_bits g file certdata certstat hostname chainidx)
    as Hmask. cbv zeta in Hmask. fold own in Hmask.
  assert (A : short_cut <->
              x509_crt_import g certdata = true /\
              tls_compare_certificates g file certdata = 1 /\
              Z.land own own_mask = 0).
  { rewrite Hmask. unfold short_cut, tls_check_preauth. fold own.
    destruct (x509_crt_import g certdata); cbn [negb].
    - destruct (compare_certificates_01 g file certdata) as [C|C]; rewrite C;
        cbn [Z.eqb negb andb].
      + split; [intros [= _ _ ?]; discriminate | intros (_ & ? & _); discriminate].
      + destruct (own =? Certerr.VALID) eqn:V.
        * apply Z.eqb_eq in V. rewrite V. tauto.
        * apply Z.eqb_neq in V. split; [|tauto].
          intros [= _ S]. apply preauth_library_status_keeps in S. tauto.
    - split; [discriminate | intros [? _]; discriminate]. }
  split; [exact A|]. split.
  - intros R SC. apply A in SC as (_ & _ & SC). rewrite Hmask in SC.
    rewrite <- (preauth_own_checks_revoked g file certdata certstat hostname chainidx)
      in R.
    now apply has_bit_nonzero in R.
  - intros R SC. apply A in SC as (_ & _ & SC). rewrite Hmask in SC.
    now apply has_bit_nonzero in R.
Qed.

Lemma preauth_saved_short_circuit_witness :
  let g := Sample.session "mail.example.org" [Sample.leaf]
             Sample.never false Sample.clean in
  let file := Some (Sample.pem_encode Sample.leaf) in
  ~ tls_check_preauth g file Sample.leaf GnutlsCert.REVOKED "mail.example.org" 0
    = (0, Certerr.VALID, 1)
  /\ ~ tls_check_preauth g file Sample.leaf 0 "mail.example.org" 0
       = (0, Certerr.VALID, 1).
Proof.
  intros g file. split.
  - apply (preauth_saved_short_circuit g file Sample.leaf GnutlsCert.REVOKED
             "mail.example.org" 0). reflexivity.
  - apply (preauth_saved_short_circuit g file Sample.leaf 0
             "mail.example.org" 0). reflexivity.
Defined.

(** C2, as the design document states it, fails: the certificate is in the
    certificate file, its dates are good and it is not revoked, but it does
    not name the host; [tls_check_preauth] does not take the short cut and
    reports [CERTERR_HOSTNAME]. *)
Lemma preauth_hostname_blocks_short_circuit :
  let g := Sample.session "mail.example.org" [Sample.leaf]
             Sample.never false Sample.clean in
  let file := Some (Sample.pem_encode Sample.leaf) in
  let own := fst (preauth_own_checks g file Sample.leaf 0 "mail.example.org" 0) in
  tls_check_preauth g file Sample.leaf 0 "mail.example.org" 0
  = (-1, Certerr.HOSTNAME, 1)
  /\ ~ (tls_check_preauth g file Sample.leaf 0 "mail.example.org" 0
        = (0, Certerr.VALID, 1)
        <-> tls_compare_certificates g file Sample.leaf = 1 /\
            Z.land own (Z.lor (Z.lor Certerr.EXPIRED Certerr.NOTYETVALID)
                              Certerr.REVOKED) = 0).
Proof.
  intros g file own. split; [reflexivity|].
  intros [_ H]. specialize (H (conj eq_refl eq_refl)). discriminate.
Qed.

(** C7.  [tls_check_preauth] sets [CERTERR_HOSTNAME] only for the certificate
    at index 0 of the chain. *)
Theorem preauth_hostname_only_for_leaf (g : Gnutls) (file : option string)
    (certdata : datum) (certstat : Z) (hostname : string) (chainidx : Z) :
  has_bit (snd (fst (tls_check_preauth g file certdata certstat hostname chainidx)))
          Certerr.HOSTNAME = true ->
  chainidx = 0.
Proof.
  destruct (chainidx =? 0) eqn:E; [intros _; now apply Z.eqb_eq|].
  unfold tls_check_preauth, preauth_library_status, preauth_own_checks,
    preauth_dates, preauth_hostname, consume.
  rewrite E. cbn [andb].
  repeat match goal with
         | |- context [if ?c then _ else _] => destruct c eqn:?; cbn [fst snd]
         end; discriminate.
Qed.

Lemma preauth_hostname_only_for_leaf_witness :
  let g := Sample.session "mail.example.org" [Sample.leaf]
             Sample.never false Sample.clean in
  has_bit (snd (fst (tls_check_preauth g None Sample.leaf 0 "mail.example.org" 0)))
          Certerr.HOSTNAME = true
  /\ 0 = 0.
Proof.
  intros g. split; [reflexivity|].
  apply (preauth_hostname_only_for_leaf g None Sample.leaf 0 "mail.example.org" 0).
  reflexivity.
Defined.

(** ** Saving a certificate *)

(** a save whose file operations all succeed *)
Lemma save_certificate_succeeds (g : Gnutls) (certdata : datum)
    (hostname : string) (idx certerr : Z) (w : World) (pemdata : string) :
  C_CertificateFile g = true ->
  Forall (eq true) (disk w) ->
  certerr = Certerr.HOSTNAME \/ pem_base64_encode g certdata = Some pemdata ->
  let line := hostname_pin_line hostname
                (tls_fingerprint g GNUTLS_DIG_MD5 128 certdata) in
  let pin := if has_bit certerr Certerr.HOSTNAME then [(HostnamePin, line)] else [] in
  let cert := if certerr =? Certerr.HOSTNAME then [] else [(PinnedCert, pemdata)] in
  let records := (pin ++ cert)%list in
  let w' := save_certificate g certdata hostname idx certerr w in
  cert_file w' = Some (file_text w ++ String.concat "" (map snd records))
  /\ trace w'
     = (trace w
          ++ map (fun r => EvSaved idx certerr (fst r) (snd r)) records
          ++ [EvMessage "Certificate saved"])%list.
Proof.
  intros Hc Hd Hp line pin cert records.
  unfold save_certificate, fopen_append, append_text, next_outcome, file_text.
  rewrite Hc. unfold records, pin, cert. clear records pin cert.
  destruct w as [file anchors keys outcomes tr]. cbn [disk] in Hd.
  cbn [emit set_keyboard set_cert_file cert_file disk trace xcred keyboard].
  fold line. clearbody line.
  assert (Ho : forall n, nth n outcomes true = true).
  { intros n. destruct (nth_in_or_default n outcomes true) as [Hin|H]; [|exact H].
    rewrite Forall_forall in Hd. symmetry. now apply Hd. }
  pose proof (Ho 0%nat) as H0. pose proof (Ho 1%nat) as H1.
  pose proof (Ho 2%nat) as H2. clear Ho Hd.
  destruct (Z.eq_dec certerr Certerr.HOSTNAME) as [->|N].
  - change (has_bit Certerr.HOSTNAME Certerr.HOSTNAME) with true.
    change (Z.lxor Certerr.HOSTNAME Certerr.HOSTNAME =? 0) with true.
    change (Certerr.HOSTNAME =? Certerr.HOSTNAME) with true.
    destruct outcomes as [|o1 [|o2 outcomes]]; cbn in H0, H1; subst;
      destruct file as [text|]; cbn;
      rewrite ?append_nil_r, <- ?app_assoc; cbn [app]; auto.
  - destruct Hp as [Hp|Hp]; [contradiction|]. rewrite Hp.
    assert (E : (Z.lxor certerr Certerr.HOSTNAME =? 0) = false).
    { apply Z.eqb_neq. intros H. now apply Z.lxor_eq in H. }
    apply Z.eqb_neq in N. rewrite E, N.
    destruct (has_bit certerr Certerr.HOSTNAME);
      destruct outcomes as [|o1 [|o2 [|o3 outcomes]]]; cbn in H0, H1, H2; subst;
      destruct file as [text|]; cbn;
      rewrite ?append_nil_r, <- ?app_assoc, ?append_assoc; cbn [app]; auto.
Qed.

(** a hostname pin that [tls_check_one_certificate] saved is found by
    [tls_check_stored_hostname] when the host name is one the pattern
    admits *)
Lemma saved_hostname_pin_is_found (g : Gnutls) (cert : datum)
    (hostname : string) (idx : Z) (w : World) (md : list byte) :
  C_CertificateFile g = true ->
  Forall (eq true) (disk w) ->
  hostname_ok hostname = true ->
  gnutls_fingerprint g GNUTLS_DIG_MD5 cert = Some md ->
  List.length md = 16%nat ->
  complete_lines (file_text w) = true ->
  tls_check_stored_hostname g
    (read_cert_file g (save_certificate g cert hostname idx Certerr.HOSTNAME w))
    cert hostname = 1.
Proof.
  intros Hc Hd Hh Hf Hl Ht.
  destruct (save_certificate_succeeds g cert hostname idx Certerr.HOSTNAME w ""
              Hc Hd (or_introl eq_refl)) as [Hfile _].
  change (file_text w ++ _)
    with (file_text w ++ hostname_pin_line hostname
                           (tls_fingerprint g GNUTLS_DIG_MD5 128 cert)) in Hfile.
  unfold read_cert_file. rewrite Hc, Hfile.
  destruct (tls_fingerprint_md5_ok g GNUTLS_DIG_MD5 128 cert md Hf Hl)
    as (Hd128 & _ & E128); [lia|].
  destruct (tls_fingerprint_md5_ok g GNUTLS_DIG_MD5 80 cert md Hf Hl)
    as (_ & _ & E80); [lia|].
  rewrite (stored_hostname_after_pin g _ _ _ cert hostname Ht Hh Hd128).
  rewrite E128, <- E80, !String.eqb_refl.
  now destruct (tls_check_stored_hostname g _ cert hostname =? 1).
Qed.

(** C5, as amended.  The decision is "accept always" and the file operations
    succeed.  A hostname pin is appended exactly when [CERTERR_HOSTNAME] is
    among the error bits, and the certificate exactly when the error bits
    are anything but [CERTERR_HOSTNAME] alone, the pin first where both are
    written. *)
Theorem accept_always_records (g : Gnutls) (certdata : datum)
    (hostname : string) (idx certerr : Z) (kbd : list key_event) (w : World)
    (pemdata : string) :
  C_CertificateFile g = true ->
  Forall (eq true) (disk w) ->
  pem_base64_encode g certdata = Some pemdata ->
  let line := hostname_pin_line hostname
                (tls_fingerprint g GNUTLS_DIG_MD5 128 certdata) in
  let pin := if has_bit certerr Certerr.HOSTNAME then [(HostnamePin, line)] else [] in
  let cert := if certerr =? Certerr.HOSTNAME then [] else [(PinnedCert, pemdata)] in
  let records := (pin ++ cert)%list in
  exists w',
    certificate_dialog g certdata hostname idx certerr "roa"
      (KeyChar "a" :: kbd) w = Some (2, w')
    /\ file_text w' = file_text w ++ String.concat "" (map snd records)
    /\ trace w'
       = (trace w ++ EvChoice idx AcceptAlways
            :: map (fun r => EvSaved idx certerr (fst r) (snd r)) records
            ++ [EvMessage "Certificate saved"])%list.
Proof.
  intros Hc Hd Hp line pin cert records.
  cbn [certificate_dialog mutt_menu_loop key_offset Ascii.eqb Bool.eqb].
  eexists. split; [reflexivity|].
  destruct (save_certificate_succeeds g certdata hostname idx certerr
              (emit (EvChoice idx AcceptAlways) (set_keyboard kbd w)) pemdata
              Hc Hd (or_intror Hp)) as [Hfile Htrace].
  split.
  - unfold file_text at 1. rewrite Hfile. reflexivity.
  - rewrite Htrace. cbn [emit set_keyboard trace].
    now rewrite <- app_assoc.
Qed.

Lemma accept_always_records_witness :
  let g := Sample.session "mail.example.org" [Sample.leaf]
             Sample.never false Sample.clean in
  let line := hostname_pin_line "mail.example.org"
                (tls_fingerprint g GNUTLS_DIG_MD5 128 Sample.leaf) in
  exists w',
    certificate_dialog g Sample.leaf "mail.example.org" 0 Certerr.HOSTNAME "roa"
      [KeyChar "a"] (Sample.world None [] []) = Some (2, w')
    /\ file_text w' = line
    /\ trace w' = [EvChoice 0 AcceptAlways;
                   EvSaved 0 Certerr.HOSTNAME HostnamePin line;
                   EvMessage "Certificate saved"].
Proof.
  intros g line.
  exact (accept_always_records g Sample.leaf "mail.example.org" 0
           Certerr.HOSTNAME [] (Sample.world None [] [])
           (Sample.pem_encode Sample.leaf) eq_refl (Forall_nil _) eq_refl).
Defined.

(** C5, as the design document states it, fails: the leaf does not name the
    host and the library does not trust it, so its error bits are
    [CERTERR_NOTTRUSTED | CERTERR_HOSTNAME]; on "accept always" both a
    hostname pin and the certificate are written. *)
Lemma accept_always_saves_pin_and_certificate :
  let g := Sample.session "mail.example.org" [Sample.leaf]
             Sample.never false Sample.needs_root in
  let certstat := Sample.needs_root [] in
  exists w',
    tls_check_one_certificate g Sample.leaf certstat "mail.example.org" 0 1
      (Sample.world None [KeyChar "a"] []) = Some (1, w')
    /\ snd (fst (tls_check_preauth g None Sample.leaf certstat "mail.example.org" 0))
       = Z.lor Certerr.NOTTRUSTED Certerr.HOSTNAME
    /\ saved_kinds (trace w') = [HostnamePin; PinnedCert].
Proof. intros g certstat. eexists. vm_compute. repeat split. Qed.

(** C6, as amended.  The decision is "accept always", and the certificate
    file cannot be opened for appending, or the error bits are not
    [CERTERR_HOSTNAME] alone and the certificate cannot be coded or written.
    Then the warning is shown and the dialog ends as it does for "accept
    once"; no certificate is written; the file holds what it held, but for a
    hostname pin that was written before the certificate failed. *)
Theorem failed_save_accepts_once (g : Gnutls) (certdata : datum)
    (hostname : string) (idx certerr : Z) (kbd : list key_event) (w : World) :
  open_fails g w = true \/
  (certerr <> Certerr.HOSTNAME /\ cert_write_fails g certdata certerr w = true) ->
  let line := hostname_pin_line hostname
                (tls_fingerprint g GNUTLS_DIG_MD5 128 certdata) in
  exists wa wo new,
    certificate_dialog g certdata hostname idx certerr "roa"
      (KeyChar "a" :: kbd) w = Some (2, wa)
    /\ certificate_dialog g certdata hostname idx certerr "roa"
         (KeyChar "o" :: kbd) w = Some (2, wo)
    /\ trace wa = (trace w ++ EvChoice idx AcceptAlways :: new ++ [save_warning])%list
    /\ ~ In PinnedCert (saved_kinds new)
    /\ keyboard wa = keyboard wo /\ xcred wa = xcred wo
    /\ (file_text wa = file_text wo \/
        (has_bit certerr Certerr.HOSTNAME = true /\
         new = [EvSaved idx certerr HostnamePin line] /\
         file_text wa = file_text wo ++ line))
    /\ (open_fails g w = true \/ has_bit certerr Certerr.HOSTNAME = false ->
        new = [] /\ file_text wa = file_text wo).
Proof.
  intros F line.
  cbn [certificate_dialog mutt_menu_loop key_offset Ascii.eqb Bool.eqb].
  unfold save_certificate, fopen_append, append_text, next_outcome, file_text.
  unfold open_fails, cert_write_fails in *.
  fold line. clearbody line.
  assert (E : (Z.lxor certerr Certerr.HOSTNAME =? 0) = (certerr =? Certerr.HOSTNAME)).
  { destruct (certerr =? Certerr.HOSTNAME) eqn:E.
    - apply Z.eqb_eq in E. subst. reflexivity.
    - apply Z.eqb_neq. intros H. apply Z.lxor_eq in H. apply Z.eqb_neq in E. tauto. }
  rewrite E. clear E.
  destruct w as [file anchors keys outcomes tr].
  cbn [emit set_keyboard set_cert_file cert_file disk trace xcred keyboard] in *.
  unfold save_warning.
  destruct (Z.eqb_spec certerr Certerr.HOSTNAME) as [->|N].
  - change (has_bit Certerr.HOSTNAME Certerr.HOSTNAME) with true in *.
    destruct (C_CertificateFile g);
      destruct outcomes as [|[] outcomes];
      cbn in F; try (exfalso; intuition congruence);
      destruct file as [text|];
      do 2 eexists; exists [];
      (repeat split; try reflexivity; cbn in *; rewrite <- ?app_assoc;
       cbn [app]; auto; try (intuition congruence)).
  - destruct (C_CertificateFile g);
      destruct (has_bit certerr Certerr.HOSTNAME);
      destruct (pem_base64_encode g certdata) as [pemdata|];
      destruct outcomes as [|[] [|[] [|[] outcomes]]];
      cbn in F; try (exfalso; intuition congruence);
      destruct file as [text|];
      do 2 eexists;
      first [ exists [];
              (repeat split; try reflexivity; cbn in *; rewrite <- ?app_assoc;
               cbn [app]; auto; try (intuition congruence)); fail
            | exists [EvSaved idx certerr HostnamePin line];
              (repeat split; try reflexivity; cbn in *; rewrite <- ?app_assoc;
               cbn [app]; auto; try (intuition congruence)); fail ].
Qed.

Lemma failed_save_accepts_once_witness :
  let g := Sample.session "mail.example.org" [Sample.leaf]
             Sample.never false Sample.needs_root in
  let w := Sample.world None [] [false] in
  let certerr := Certerr.NOTTRUSTED in
  open_fails g w = true /\
  exists wa wo new,
    certificate_dialog g Sample.leaf "mail.example.org" 0 certerr "roa"
      [KeyChar "a"] w = Some (2, wa)
    /\ certificate_dialog g Sample.leaf "mail.example.org" 0 certerr "roa"
         [KeyChar "o"] w = Some (2, wo)
    /\ trace wa = (trace w ++ EvChoice 0 AcceptAlways :: new ++ [save_warning])%list
    /\ ~ In PinnedCert (saved_kinds new)
    /\ keyboard wa = keyboard wo /\ xcred wa = xcred wo
    /\ (file_text wa = file_text wo \/
        (has_bit certerr Certerr.HOSTNAME = true /\
         new = [EvSaved 0 certerr HostnamePin
                  (hostname_pin_line "mail.example.org"
                     (tls_fingerprint g GNUTLS_DIG_MD5 128 Sample.leaf))] /\
         file_text wa
         = file_text wo ++ hostname_pin_line "mail.example.org"
                             (tls_fingerprint g GNUTLS_DIG_MD5 128 Sample.leaf)))
    /\ (open_fails g w = true \/ has_bit certerr Certerr.HOSTNAME = false ->
        new = [] /\ file_text wa = file_text wo).
Proof.
  intros g w certerr. split; [reflexivity|].
  exact (failed_save_accepts_once g Sample.leaf "mail.example.org" 0 certerr
           [] w (or_introl eq_refl)).
Defined.

(** C6, as the design document states it, fails: the error bits of the leaf
    are [CERTERR_NOTTRUSTED | CERTERR_HOSTNAME]; on "accept always" the
    file is opened and the hostname pin written, then the write of the
    certificate fails.  The warning is shown and the certificate accepted,
    but the store now holds the pin, which "accept once" does not leave
    there. *)
Lemma failed_save_keeps_hostname_pin :
  let g := Sample.session "mail.example.org" [Sample.leaf]
             Sample.never false Sample.needs_root in
  let certstat := Sample.needs_root [] in
  let outcomes := [true; true; false] in
  exists wa wo,
    tls_check_one_certificate g Sample.leaf certstat "mail.example.org" 0 1
      (Sample.world None [KeyChar "a"] outcomes) = Some (1, wa)
    /\ tls_check_one_certificate g Sample.leaf certstat "mail.example.org" 0 1
         (Sample.world None [KeyChar "o"] outcomes) = Some (1, wo)
    /\ In save_warning (trace wa)
    /\ file_text wo = ""
    /\ file_text wa
       = hostname_pin_line "mail.example.org"
           (tls_fingerprint g GNUTLS_DIG_MD5 128 Sample.leaf).
Proof.
  intros g certstat outcomes. do 2 eexists.
  split; [vm_compute; reflexivity|]. split; [vm_compute; reflexivity|].
  split; [|split; reflexivity].
  cbn. right. right. right. left. reflexivity.
Qed.

(** ** The events of one dialog *)

Lemma saved_text_app (a b : list event) :
  saved_text (a ++ b) = saved_text a ++ saved_text b.
Proof.
  induction a as [|ev a IH]; [reflexivity|].
  destruct ev; cbn [app saved_text]; rewrite ?IH, ?append_assoc; reflexivity.
Qed.

(** what [case OP_MAX + 3] leaves behind: some writes, each one recorded,
    then the message or the warning *)
Lemma save_certificate_events (g : Gnutls) (certdata : datum)
    (hostname : string) (idx certerr : Z) (w : World) :
  let w' := save_certificate g certdata hostname idx certerr w in
  xcred w' = xcred w /\ keyboard w' = keyboard w /\
  exists saves msg,
    trace w' = (trace w ++ saves ++ [msg])%list
    /\ Forall (is_saved_at idx certerr) saves
    /\ (msg = save_warning \/ msg = EvMessage "Certificate saved")
    /\ file_text w' = file_text w ++ saved_text saves.
Proof.
  unfold save_certificate, fopen_append, append_text, next_outcome, file_text,
    save_warning.
  set (line := hostname_pin_line hostname _). clearbody line.
  destruct w as [file anchors keys outcomes tr].
  cbn [emit set_keyboard set_cert_file cert_file disk trace xcred keyboard].
  destruct (C_CertificateFile g);
    destruct (has_bit certerr Certerr.HOSTNAME);
    destruct (Z.lxor certerr Certerr.HOSTNAME =? 0);
    destruct (pem_base64_encode g certdata) as [pemdata|];
    destruct outcomes as [|[] [|[] [|[] outcomes]]];
    destruct file as [text|]; cbn;
    (split; [reflexivity|]); (split; [reflexivity|]);
    rewrite <- ?app_assoc; cbn [app];
    first
      [ exists []; eexists; split; [reflexivity|]; cbn;
        rewrite ?append_nil_r; solve [shape_done]
      | eexists [EvSaved idx certerr _ _]; eexists; split; [reflexivity|]; cbn;
        rewrite ?append_nil_r; solve [shape_done]
      | eexists [EvSaved idx certerr _ _; EvSaved idx certerr _ _]; eexists;
        split; [reflexivity|]; cbn;
        rewrite ?append_nil_r, ?append_assoc; solve [shape_done] ].
Qed.

Lemma certificate_dialog_events (g : Gnutls) (certdata : datum)
    (hostname : string) (idx certerr : Z) (keys : string)
    (kbd : list key_event) (w : World) (done : Z) (w' : World) :
  keys = "roa" \/ keys = "ro" ->
  certificate_dialog g certdata hostname idx certerr keys kbd w = Some (done, w') ->
  xcred w' = xcred w /\
  exists d tail,
    trace w' = (trace w ++ EvChoice idx d :: tail)%list
    /\ file_text w' = file_text w ++ saved_text tail
    /\ dialog_outcome idx certerr keys d (if done =? 2 then 1 else 0) tail.
Proof.
  intros Hk. induction kbd as [|k kbd IH]; [discriminate|].
  assert (R : forall d, xcred (emit (EvChoice idx d) (set_keyboard kbd w)) = xcred w
              /\ trace (emit (EvChoice idx d) (set_keyboard kbd w))
                 = (trace w ++ [EvChoice idx d])%list
              /\ file_text (emit (EvChoice idx d) (set_keyboard kbd w))
                 = file_text w) by (intros; repeat split).
  assert (Hreject : Some (1, emit (EvChoice idx Reject) (set_keyboard kbd w))
                    = Some (done, w') ->
          xcred w' = xcred w /\
          exists d tail,
            trace w' = (trace w ++ EvChoice idx d :: tail)%list
            /\ file_text w' = file_text w ++ saved_text tail
            /\ dialog_outcome idx certerr keys d (if done =? 2 then 1 else 0) tail).
  { intros [= <- <-]. split; [reflexivity|]. exists Reject, [].
    cbn. rewrite append_nil_r. auto. }
  assert (Honce : Some (2, emit (EvChoice idx AcceptOnce) (set_keyboard kbd w))
                  = Some (done, w') ->
          xcred w' = xcred w /\
          exists d tail,
            trace w' = (trace w ++ EvChoice idx d :: tail)%list
            /\ file_text w' = file_text w ++ saved_text tail
            /\ dialog_outcome idx certerr keys d (if done =? 2 then 1 else 0) tail).
  { intros [= <- <-]. split; [reflexivity|]. exists AcceptOnce, [].
    cbn. rewrite append_nil_r. auto. }
  assert (Halways : keys = "roa" ->
            Some (2, save_certificate g certdata hostname idx certerr
                       (emit (EvChoice idx AcceptAlways) (set_keyboard kbd w)))
            = Some (done, w') ->
          xcred w' = xcred w /\
          exists d tail,
            trace w' = (trace w ++ EvChoice idx d :: tail)%list
            /\ file_text w' = file_text w ++ saved_text tail
            /\ dialog_outcome idx certerr keys d (if done =? 2 then 1 else 0) tail).
  { intros Hroa [= <- <-].
    destruct (save_certificate_events g certdata hostname idx certerr
                (emit (EvChoice idx AcceptAlways) (set_keyboard kbd w)))
      as (Hx & _ & saves & msg & Ht & Hf & Hm & Hfile).
    destruct (R AcceptAlways) as (Rx & Rt & Rf).
    split; [congruence|]. exists AcceptAlways, (saves ++ [msg])%list.
    rewrite Ht, Rt, <- app_assoc. split; [reflexivity|].
    rewrite Hfile, Rf, saved_text_app.
    assert (saved_text [msg] = "") as -> by (destruct Hm as [-> | ->]; reflexivity).
    rewrite append_nil_r. split; [reflexivity|].
    cbn. split; [reflexivity|]. split; [exact Hroa|]. eauto. }
  cbn [certificate_dialog].
  destruct k as [c| | |]; cbn [mutt_menu_loop]; auto.
  destruct Hk as [-> | ->]; cbn [key_offset].
  - destruct (Ascii.eqb "r" c); [auto|].
    destruct (Ascii.eqb "o" c); [auto|].
    destruct (Ascii.eqb "a" c); auto.
  - destruct (Ascii.eqb "r" c); [auto|].
    destruct (Ascii.eqb "o" c); auto.
Qed.

Lemma menu_keys_cases (g : Gnutls) (certerr savedcert : Z) :
  menu_keys g certerr savedcert = "roa" \/ menu_keys g certerr savedcert = "ro".
Proof. unfold menu_keys. destruct (always_offered g certerr savedcert); auto. Qed.

(** the events of one call of [tls_check_one_certificate] *)
Lemma check_one_certificate_events (g : Gnutls) (certdata : datum)
    (certstat : Z) (hostname : string) (idx len : Z) (w : World)
    (rc : Z) (w' : World) :
  tls_check_one_certificate g certdata certstat hostname idx len w = Some (rc, w') ->
  xcred w' = xcred w /\
  exists new,
    trace w' = (trace w ++ new)%list
    /\ file_text w' = file_text w ++ saved_text new
    /\ match tls_check_preauth g (read_cert_file g w) certdata certstat hostname idx
       with
       | (prc, certerr, savedcert) =>
           check_one_events g idx len certerr savedcert prc rc new
       end.
Proof.
  unfold tls_check_one_certificate.
  destruct (tls_check_preauth g (read_cert_file g w) certdata certstat hostname idx)
    as [[prc certerr] savedcert].
  destruct (prc =? 0) eqn:P.
  - intros [= <- <-]. split; [reflexivity|]. exists [].
    rewrite app_nil_r, append_nil_r. apply Z.eqb_eq in P.
    repeat split. left. auto.
  - apply Z.eqb_neq in P. destruct (x509_crt_import g certdata); cbn [negb].
    + destruct (certificate_dialog _ _ _ _ _ _ _ _) as [[done w1]|] eqn:D;
        [|discriminate].
      intros [= <- <-].
      apply certificate_dialog_events in D; [|apply menu_keys_cases].
      destruct D as (Hx & d & tail & Ht & Hf & Ho).
      split; [exact Hx|].
      exists (EvDialog idx len certerr savedcert (menu_keys g certerr savedcert)
                :: EvChoice idx d :: tail).
      split; [rewrite Ht; cbn; now rewrite <- app_assoc|].
      split; [exact Hf|]. right. right. split; [exact P|]. eauto.
    + intros [= <- <-]. split; [reflexivity|]. eexists. split; [reflexivity|].
      split; [cbn; now rewrite append_nil_r|]. right. left. eauto.
Qed.

(** ** "Accept always" and the dates *)

Lemma dated_defect_mask (certerr : Z) :
  (Z.land certerr
     (Z.lor (Z.lor Certerr.EXPIRED Certerr.NOTYETVALID) Certerr.REVOKED) =? 0)
  = negb (dated_defect certerr).
Proof.
  unfold dated_defect, has_bit. rewrite !Z.land_lor_distr_r.
  destruct (Z.land certerr Certerr.EXPIRED =? 0) eqn:E1;
    destruct (Z.land certerr Certerr.NOTYETVALID =? 0) eqn:E2;
    destruct (Z.land certerr Certerr.REVOKED =? 0) eqn:E3; cbn;
    rewrite ?Z.eqb_eq, ?Z.eqb_neq in *;
    rewrite ?Z.lor_eq_0_iff; tauto.
Qed.

Lemma always_offered_iff (g : Gnutls) (certerr savedcert : Z) :
  menu_keys g certerr savedcert = "roa" <->
  C_CertificateFile g = true /\ savedcert = 0 /\ dated_defect certerr = false.
Proof.
  unfold menu_keys, always_offered. rewrite dated_defect_mask.
  destruct (C_CertificateFile g); destruct (Z.eqb_spec savedcert 0);
    destruct (dated_defect certerr); cbn; intuition congruence.
Qed.

Lemma Forall_is_saved_respects (g : Gnutls) (idx certerr : Z) (saves : list event) :
  dated_defect certerr = false ->
  Forall (is_saved_at idx certerr) saves ->
  Forall (respects_dates g) saves /\ Forall (at_pos idx) saves
  /\ (forall i d, ~ In (EvChoice i d) saves) /\ (forall i r, ~ In (EvTrust i r) saves).
Proof.
  intros Hd. induction 1 as [|ev saves Hev _ IH].
  - repeat split; auto.
  - destruct IH as (I1 & I2 & I3 & I4).
    destruct ev; try contradiction. destruct Hev as [-> ->].
    split; [constructor; [exact Hd | exact I1]|].
    split; [constructor; [reflexivity | exact I2]|].
    split.
    + intros i d [H|H]; [discriminate|]. now apply (I3 i d).
    + intros i r [H|H]; [discriminate|]. now apply (I4 i r).
Qed.

(** what the events of one call tell *)
Lemma check_one_events_facts (g : Gnutls) (idx len certerr savedcert prc rc : Z)
    (new : list event) :
  check_one_events g idx len certerr savedcert prc rc new ->
  Forall (respects_dates g) new
  /\ Forall (at_pos idx) new
  /\ (forall i r, ~ In (EvTrust i r) new)
  /\ (forall j, In (EvChoice j Reject) new ->
        j = idx /\ rc = 0 /\ exists pre, new = (pre ++ [EvChoice j Reject])%list).
Proof.
  intros [(_ & _ & ->) | [(_ & _ & msg & ->) | (_ & d & tail & -> & Ho)]].
  - split; [constructor|]. split; [constructor|].
    split; [intros i r []|intros j []].
  - split; [repeat constructor|]. split; [repeat constructor|].
    split; [intros i r [H|[]]; discriminate | intros j [H|[]]; discriminate].
  - destruct d; cbn in Ho.
    + destruct Ho as [-> ->].
      split; [repeat constructor|]. split; [repeat constructor|].
      split; [intros i r [H|[H|[]]]; discriminate|].
      intros j [H|[H|[]]]; [discriminate|]. inversion H; subst.
      split; [reflexivity|]. split; [reflexivity|].
      now exists [EvDialog j len certerr savedcert (menu_keys g certerr savedcert)].
    + destruct Ho as [-> ->].
      split; [repeat constructor|]. split; [repeat constructor|].
      split; [intros i r [H|[H|[]]]; discriminate|].
      intros j [H|[H|[]]]; discriminate.
    + destruct Ho as (-> & Hk & saves & msg & -> & Hs & Hm).
      apply always_offered_iff in Hk as (_ & _ & Hd).
      destruct (Forall_is_saved_respects g idx certerr saves Hd Hs)
        as (S1 & S2 & S3 & S4).
      assert (M1 : respects_dates g msg) by (destruct Hm as [-> | ->]; exact I).
      assert (M2 : at_pos idx msg) by (destruct Hm as [-> | ->]; exact I).
      assert (M3 : forall i d, msg <> EvChoice i d)
        by (destruct Hm as [-> | ->]; discriminate).
      assert (M4 : forall i r, msg <> EvTrust i r)
        by (destruct Hm as [-> | ->]; discriminate).
      assert (NC : forall j d, ~ In (EvChoice j d) (saves ++ [msg])).
      { intros j d H. apply in_app_or in H as [H|[H|[]]];
          [now apply (S3 j d) | now apply (M3 j d)]. }
      split; [|split; [|split]].
      * constructor; [reflexivity|]. constructor; [exact I|].
        apply Forall_app. split; [exact S1|]. now constructor.
      * constructor; [reflexivity|]. constructor; [reflexivity|].
        apply Forall_app. split; [exact S2|]. now constructor.
      * intros i r [H|[H|H]]; try discriminate.
        apply in_app_or in H as [H|[H|[]]];
          [now apply (S4 i r) | now apply (M4 i r)].
      * intros j [H|[H|H]]; try discriminate. now apply NC in H.
Qed.

(** ** The two walks over the chain *)

Lemma tls_verify_peers_events (g : Gnutls) (w : World) :
  cert_file (snd (tls_verify_peers g w)) = cert_file w
  /\ xcred (snd (tls_verify_peers g w)) = xcred w
  /\ keyboard (snd (tls_verify_peers g w)) = keyboard w
  /\ disk (snd (tls_verify_peers g w)) = disk w
  /\ exists msgs,
       trace (snd (tls_verify_peers g w))
       = (trace w ++ msgs ++ [EvVerify (fst (tls_verify_peers g w))])%list
       /\ (msgs = [] \/ exists msg, msgs = [EvError msg]).
Proof.
  unfold tls_verify_peers.
  destruct (certificate_verify_peers2 g (xcred w)) as [verify_ret status].
  destruct (verify_ret =? 0);
    [|destruct (status =? GnutlsCert.E_NO_CERTIFICATE_FOUND_as_unsigned);
      [|destruct (verify_ret <? 0);
        [|destruct (certificate_type_is_x509 g)]]];
    cbn; repeat split;
    first [ exists []; split; [reflexivity | now left]
          | eexists [_]; split; [now rewrite <- app_assoc | right; eauto] ].
Qed.

(** the events between a trust step and the walk below it *)
Lemma trust_step_events (i r st : Z) (msgs : list event) :
  (msgs = [] \/ exists msg, msgs = [EvError msg]) ->
  let T := (EvTrust i r :: msgs ++ [EvVerify st])%list in
  saved_text T = "" /\ (forall g, Forall (respects_dates g) T)
  /\ Forall (at_pos i) T
  /\ (forall j d, ~ In (EvChoice j d) T)
  /\ (forall j r', In (EvTrust j r') T -> j = i).
Proof.
  intros [-> | [msg ->]]; cbn.
  - split; [reflexivity|]. split; [repeat constructor|].
    split; [repeat constructor|].
    split; [intros j d [H|[H|[]]]; discriminate|].
    intros j r' [H|[H|[]]]; [now inversion H | discriminate].
  - split; [reflexivity|]. split; [repeat constructor|].
    split; [repeat constructor|].
    split; [intros j d [H|[H|[H|[]]]]; discriminate|].
    intros j r' [H|[H|[H|[]]]]; [now inversion H | discriminate | discriminate].
Qed.

Lemma at_pos_below (n : nat) (evs : list event) :
  Forall (at_pos (Z.of_nat n)) evs -> Forall (pos_below (S n)) evs.
Proof.
  apply Forall_impl. intros ev. unfold at_pos, pos_below.
  destruct (ev_pos ev); [|auto]. intros ->. lia.
Qed.

Lemma pos_below_S (n : nat) (evs : list event) :
  Forall (pos_below n) evs -> Forall (pos_below (S n)) evs.
Proof.
  apply Forall_impl. intros ev. unfold pos_below.
  destruct (ev_pos ev); [|auto]. lia.
Qed.

(** the events of the second loop of [tls_check_certificate] *)
Lemma interactive_walk_events (g : Gnutls) (len rcpeer : Z) (certs : list datum) :
  forall (certstat rc0 : Z) (w : World) (rc : Z) (w' : World),
  interactive_walk g len rcpeer certs certstat rc0 w = Some (rc, w') ->
  exists new,
    trace w' = (trace w ++ new)%list
    /\ file_text w' = file_text w ++ saved_text new
    /\ Forall (respects_dates g) new
    /\ Forall (pos_below (List.length certs)) new
    /\ (In (EvChoice 0 Reject) new ->
        rc = 0 /\ exists pre, new = (pre ++ [EvChoice 0 Reject])%list)
    /\ (forall i, In (EvChoice i Reject) new -> forall r, ~ In (EvTrust i r) new).
Proof.
  induction certs as [|certdata below IH]; intros certstat rc0 w rc w' H.
  - inversion H; subst. exists []. rewrite app_nil_r, append_nil_r.
    split; [reflexivity|]. split; [reflexivity|]. split; [constructor|].
    split; [constructor|]. split; [intros []|intros i []].
  - cbn [interactive_walk] in H.
    destruct (tls_check_one_certificate g certdata certstat (account_host g)
                (Z.of_nat (List.length below)) len w) as [[rc1 w1]|] eqn:C;
      [|discriminate].
    apply check_one_certificate_events in C as (Hx1 & new1 & Ht1 & Hf1 & Hs1).
    destruct (tls_check_preauth _ _ _ _ _ _) as [[prc certerr] savedcert].
    apply check_one_events_facts in Hs1 as (D1 & P1 & NT1 & R1).
    destruct (negb (Z.of_nat (List.length below) =? 0) && negb (rc1 =? 0)) eqn:Step.
    + (* the signer is added to the trust set *)
      apply andb_true_iff in Step as [Hi Hrc].
      apply negb_true_iff in Hi, Hrc. apply Z.eqb_neq in Hi, Hrc.
      destruct (certificate_set_x509_trust_mem g (xcred w1) certdata)
        as [anchors r].
      set (w2 := emit (EvTrust (Z.of_nat (List.length below)) r)
                   (set_xcred anchors w1)) in H.
      pose proof (tls_verify_peers_events g w2) as (V1 & _ & _ & _ & msgs & Vt & Vm).
      destruct (tls_verify_peers g w2) as [st w3]. cbn [fst snd] in *.
      destruct (trust_step_events (Z.of_nat (List.length below)) r st msgs Vm)
        as (T1 & T2 & T3 & T4 & T5).
      set (T := (EvTrust (Z.of_nat (List.length below)) r
                   :: msgs ++ [EvVerify st])%list) in *.
      assert (Ht3 : trace w3 = (trace w ++ new1 ++ T)%list).
      { rewrite Vt. unfold w2, T. cbn. rewrite Ht1, <- !app_assoc. reflexivity. }
      assert (Hf3 : file_text w3 = file_text w ++ saved_text (new1 ++ T)).
      { unfold file_text at 1. rewrite V1. unfold w2. cbn.
        fold (file_text w1). rewrite Hf1, saved_text_app, T1.
        now rewrite append_nil_r. }
      assert (NR1 : forall j, ~ In (EvChoice j Reject) new1).
      { intros j Hin. apply R1 in Hin as (_ & ? & _). contradiction. }
      destruct ((st =? 0) && (rcpeer =? 0)).
      * inversion H; subst. exists (new1 ++ T)%list.
        split; [exact Ht3|]. split; [exact Hf3|].
        split; [apply Forall_app; auto|].
        split; [apply Forall_app; split; now apply at_pos_below|].
        assert (NR : forall j, ~ In (EvChoice j Reject) (new1 ++ T)).
        { intros j Hin. apply in_app_or in Hin as [Hin|Hin];
            [now apply (NR1 j) | now apply (T4 j Reject)]. }
        split; [intros Hin; now apply NR in Hin|].
        intros i Hin. now apply NR in Hin.
      * apply IH in H as (new2 & Ht & Hf & D2 & P2 & A2 & B2).
        exists (new1 ++ T ++ new2)%list.
        split; [rewrite Ht, Ht3, <- !app_assoc; reflexivity|].
        split; [rewrite Hf, Hf3, !saved_text_app, !append_assoc; reflexivity|].
        split; [repeat (apply Forall_app; split); auto|].
        split; [repeat (apply Forall_app; split);
                [now apply at_pos_below | now apply at_pos_below
                 | now apply pos_below_S]|].
        assert (Hin2 : forall j, In (EvChoice j Reject) (new1 ++ T ++ new2) ->
                                 In (EvChoice j Reject) new2).
        { intros j Hin. apply in_app_or in Hin as [Hin|Hin];
            [now apply NR1 in Hin|].
          apply in_app_or in Hin as [Hin|Hin]; [now apply T4 in Hin | exact Hin]. }
        split.
        -- intros Hin. apply Hin2, A2 in Hin as (-> & pre & ->).
           split; [reflexivity|]. exists (new1 ++ T ++ pre)%list.
           now rewrite <- !app_assoc.
        -- intros i Hin r' Htr. apply Hin2 in Hin.
           apply in_app_or in Htr as [Htr|Htr]; [now apply NT1 in Htr|].
           apply in_app_or in Htr as [Htr|Htr]; [|now apply (B2 i Hin r')].
           apply T5 in Htr. subst i.
           rewrite Forall_forall in P2. apply P2 in Hin.
           unfold pos_below in Hin. cbn in Hin. lia.
    + (* the walk goes on with the certificate below *)
      pose proof (IH _ _ _ _ _ H) as (new2 & Ht & Hf & D2 & P2 & A2 & B2).
      exists (new1 ++ new2)%list.
      split; [rewrite Ht, Ht1, <- app_assoc; reflexivity|].
      split; [rewrite Hf, Hf1, saved_text_app, append_assoc; reflexivity|].
      split; [apply Forall_app; auto|].
      split; [apply Forall_app; split;
              [now apply at_pos_below | now apply pos_below_S]|].
      assert (NT2 : forall i, In (EvChoice i Reject) new1 ->
                              forall r, ~ In (EvTrust i r) new2).
      { intros i Hin r' Htr. apply R1 in Hin as (-> & _).
        rewrite Forall_forall in P2. apply P2 in Htr.
        unfold pos_below in Htr. cbn in Htr. lia. }
      split.
      * intros Hin. apply in_app_or in Hin as [Hin|Hin].
        -- apply R1 in Hin as (Hi & -> & pre & ->).
           destruct below; [|discriminate]. inversion H; subst.
           rewrite <- (app_nil_r (trace w')) in Ht at 1.
           apply app_inv_head in Ht. subst new2.
           split; [reflexivity|]. exists pre. now rewrite app_nil_r.
        -- apply A2 in Hin as (-> & pre & ->). split; [reflexivity|].
           exists (new1 ++ pre)%list. now rewrite <- app_assoc.
      * intros i Hin r' Htr.
        apply in_app_or in Htr as [Htr|Htr]; [now apply NT1 in Htr|].
        apply in_app_or in Hin as [Hin|Hin];
          [now apply (NT2 i Hin r') | now apply (B2 i Hin r')].
Qed.

Lemma preauth_walk_keeps_rcpeer (g : Gnutls) (file : option string)
    (certstat : Z) (certs : list datum) :
  forall (i preauthrc rcpeer rc rc' rcpeer' : Z),
  i <> 0 ->  0 <= i ->
  preauth_walk g file certstat certs i preauthrc rcpeer rc
  = GoInteractive rc' rcpeer' ->
  rcpeer' = rcpeer.
Proof.
  induction certs as [|certdata above IH]; intros i preauthrc rcpeer rc rc' rcpeer' Hi Hp.
  - cbn. now intros [= _ <-].
  - cbn [preauth_walk].
    destruct (tls_check_preauth g file certdata certstat (account_host g) i)
      as [[prc certerr] savedcert].
    apply Z.eqb_neq in Hi. rewrite Hi.
    destruct (negb (savedcert =? 0)).
    + destruct (preauthrc + prc =? 0); [discriminate|]. now intros [= _ <-].
    + apply IH; lia.
Qed.

(** the second loop is entered with the result of [tls_check_preauth] for
    the leaf, as the first loop found it *)
Lemma preauth_walk_rcpeer (g : Gnutls) (file : option string) (certstat : Z)
    (leaf : datum) (above : list datum) (rc rcpeer : Z) :
  preauth_walk g file certstat (leaf :: above) 0 0 (-1) 0 = GoInteractive rc rcpeer ->
  rcpeer = fst (fst (tls_check_preauth g file leaf certstat (account_host g) 0)).
Proof.
  cbn [preauth_walk].
  destruct (tls_check_preauth g file leaf certstat (account_host g) 0)
    as [[prc certerr] savedcert]. cbn [fst Z.eqb].
  destruct (negb (savedcert =? 0)).
  - destruct (0 + prc =? 0); [discriminate|]. now intros [= _ <-].
  - intros H. apply preauth_walk_keeps_rcpeer in H; [exact H | lia | lia].
Qed.

(** the events of [tls_check_certificate] *)
Lemma tls_check_certificate_events (g : Gnutls) (w : World) (rc : Z) (w' : World) :
  tls_check_certificate g w = Some (rc, w') ->
  exists new,
    trace w' = (trace w ++ new)%list
    /\ file_text w' = file_text w ++ saved_text new
    /\ Forall (respects_dates g) new
    /\ (In (EvChoice 0 Reject) new ->
        rc = 0 /\ exists pre, new = (pre ++ [EvChoice 0 Reject])%list)
    /\ (forall i, In (EvChoice i Reject) new -> forall r, ~ In (EvTrust i r) new).
Proof.
  unfold tls_check_certificate.
  destruct (auth_is_certificate g); cbn [negb].
  2:{ intros [= <- <-]. exists [EvError "Unable to get certificate from peer"].
      split; [reflexivity|]. split; [cbn; now rewrite append_nil_r|].
      split; [repeat constructor|].
      split; [intros [H|[]]; discriminate | intros i [H|[]]; discriminate]. }
  pose proof (tls_verify_peers_events g w) as (V1 & _ & _ & _ & msgs & Vt & Vm).
  destruct (tls_verify_peers g w) as [certstat w0]. cbn [fst snd] in *.
  set (V := (msgs ++ [EvVerify certstat])%list) in *.
  assert (Vs : saved_text V = "" /\ Forall (respects_dates g) V
               /\ (forall i d, ~ In (EvChoice i d) V)
               /\ (forall i r, ~ In (EvTrust i r) V)).
  { unfold V. destruct Vm as [-> | [msg ->]]; cbn.
    - split; [reflexivity|]. split; [repeat constructor|].
      split; [intros i d [H|[]]; discriminate | intros i r [H|[]]; discriminate].
    - split; [reflexivity|]. split; [repeat constructor|].
      split; [intros i d [H|[H|[]]]; discriminate
             | intros i r [H|[H|[]]]; discriminate]. }
  destruct Vs as (V2 & V3 & V4 & V5).
  assert (Hf0 : file_text w0 = file_text w) by (unfold file_text; now rewrite V1).
  destruct (certificate_get_peers g) as [|leaf above].
  { intros [= <- <-].
    exists (V ++ [EvError "Unable to get certificate from peer"])%list.
    split; [cbn; rewrite Vt, <- app_assoc; reflexivity|].
    split; [change (file_text (emit _ w0)) with (file_text w0);
            rewrite Hf0, saved_text_app, V2; cbn; now rewrite append_nil_r|].
    split; [apply Forall_app; split; [exact V3 | repeat constructor]|].
    split.
    - intros H. apply in_app_or in H as [H|[H|[]]];
        [now apply V4 in H | discriminate].
    - intros i H. apply in_app_or in H as [H|[H|[]]];
        [now apply V4 in H | discriminate]. }
  destruct (preauth_walk g (read_cert_file g w0) certstat (leaf :: above) 0 0 (-1) 0)
    as [|rc1 rcpeer].
  { intros [= <- <-]. exists V. split; [exact Vt|].
    split; [now rewrite Hf0, V2, append_nil_r|]. split; [exact V3|].
    split; [intros H; now apply V4 in H | intros i H; now apply V4 in H]. }
  intros H. apply interactive_walk_events in H
    as (new & Ht & Hf & D & _ & A & B).
  exists (V ++ new)%list.
  split; [rewrite Ht, Vt, <- app_assoc; reflexivity|].
  split; [rewrite Hf, Hf0, saved_text_app, V2; reflexivity|].
  split; [apply Forall_app; auto|].
  split.
  - intros H. apply in_app_or in H as [H|H]; [now apply V4 in H|].
    apply A in H as (-> & pre & ->). split; [reflexivity|].
    exists (V ++ pre)%list. now rewrite <- app_assoc.
  - intros i H r Htr. apply in_app_or in H as [H|H]; [now apply V4 in H|].
    apply in_app_or in Htr as [Htr|Htr]; [now apply V5 in Htr|].
    now apply (B i H r).
Qed.

(** ** The verdict of [tls_check_certificate] *)

(** X27.  When the user rejects the leaf, [tls_check_certificate] returns
    0, and the rejection is the last thing that happens: no other dialog, no
    write to the certificate file, no trust step and no verification come
    after it.  And a certificate the user rejects, at whichever position, is
    never added to the trust set. *)
Theorem reject_at_leaf_ends_check (g : Gnutls) (w : World) (rc : Z)
    (w' : World) (new : list event) :
  tls_check_certificate g w = Some (rc, w') ->
  trace w' = (trace w ++ new)%list ->
  (In (EvChoice 0 Reject) new ->
   rc = 0 /\ exists pre, new = (pre ++ [EvChoice 0 Reject])%list)
  /\ (forall i, In (EvChoice i Reject) new -> forall r, ~ In (EvTrust i r) new).
Proof.
  intros H Ht.
  apply tls_check_certificate_events in H as (new' & Ht' & _ & _ & A & B).
  rewrite Ht' in Ht. apply app_inv_head in Ht. subst new'.
  split; [exact A | exact B].
Qed.

Lemma reject_at_leaf_ends_check_witness :
  let g := Sample.session "mail.example.org" [Sample.leaf]
             Sample.never true Sample.needs_root in
  let w := Sample.world None [KeyChar "r"] [] in
  let new := [EvVerify (Sample.needs_root []);
              EvDialog 0 1 Certerr.NOTTRUSTED 0 "roa"; EvChoice 0 Reject] in
  let w' := {| cert_file := None; xcred := []; keyboard := []; disk := [];
               trace := new |} in
  tls_check_certificate g w = Some (0, w')
  /\ 0 = 0 /\ exists pre, new = (pre ++ [EvChoice 0 Reject])%list.
Proof.
  intros g w new w'. split; [reflexivity|].
  apply (reject_at_leaf_ends_check g w 0 w' new); [reflexivity | reflexivity|].
  right. right. left. reflexivity.
Defined.

(** C1.  The code does not end the check at a rejection above the leaf.
    The chain is the leaf and an expired root, and the library reports no
    defect: the one dialog is for the root, the user rejects it, and
    [tls_check_certificate] goes on to the leaf, which passes without a
    question, and returns 1.  With a chain the library does not trust, the
    user rejects the root and is asked about the leaf all the same; accepting
    it once gives 1. *)
Theorem rejection_above_leaf_is_passed_over :
  (let g := Sample.session "mail.example.org" [Sample.leaf; Sample.root]
              (datum_eqb Sample.root) true Sample.clean in
   let w := Sample.world None [KeyChar "r"] [] in
   tls_check_certificate g w
   = Some (1, {| cert_file := None; xcred := []; keyboard := []; disk := [];
                 trace := [EvVerify 0;
                           EvDialog 1 2 Certerr.EXPIRED 0 "ro";
                           EvChoice 1 Reject] |}))
  /\ (let g := Sample.session "mail.example.org" [Sample.leaf; Sample.root]
                 Sample.never true Sample.needs_root in
      let w := Sample.world None [KeyChar "r"; KeyChar "o"] [] in
      tls_check_certificate g w
      = Some (1, {| cert_file := None; xcred := []; keyboard := []; disk := [];
                    trace := [EvVerify (Sample.needs_root []);
                              EvDialog 1 2 Certerr.NOTTRUSTED 0 "roa";
                              EvChoice 1 Reject;
                              EvDialog 0 2 Certerr.NOTTRUSTED 0 "roa";
                              EvChoice 0 AcceptOnce] |})).
Proof. split; reflexivity. Qed.

(** C10.  "Accept always" is among the keys of the dialog exactly when a
    certificate file is configured, the certificate is not in it yet, and
    none of [CERTERR_EXPIRED], [CERTERR_NOTYETVALID], [CERTERR_REVOKED] is
    set.  So in a run of [tls_check_certificate] every dialog offers the
    keys chosen that way, every write to the certificate file is for a
    certificate without such a defect, and the file grows by those writes
    and nothing else. *)
Theorem always_only_without_dated_defect (g : Gnutls) (w : World) (rc : Z)
    (w' : World) (new : list event) :
  tls_check_certificate g w = Some (rc, w') ->
  trace w' = (trace w ++ new)%list ->
  (forall certerr savedcert,
     menu_keys g certerr savedcert = "roa" <->
     C_CertificateFile g = true /\ savedcert = 0 /\ dated_defect certerr = false)
  /\ (forall idx len certerr savedcert keys,
        In (EvDialog idx len certerr savedcert keys) new ->
        keys = menu_keys g certerr savedcert)
  /\ (forall idx certerr kind text,
        In (EvSaved idx certerr kind text) new -> dated_defect certerr = false)
  /\ file_text w' = file_text w ++ saved_text new.
Proof.
  intros H Ht.
  apply tls_check_certificate_events in H as (new' & Ht' & Hf & D & _ & _).
  rewrite Ht' in Ht. apply app_inv_head in Ht. subst new'.
  rewrite Forall_forall in D.
  split; [apply always_offered_iff|].
  split; [intros idx len certerr savedcert keys Hin; exact (D _ Hin)|].
  split; [intros idx certerr kind text Hin; exact (D _ Hin)|exact Hf].
Qed.

Lemma always_only_without_dated_defect_witness :
  let g := Sample.session "mail.example.org" [Sample.leaf]
             Sample.never true Sample.needs_root in
  let w := Sample.world None [KeyChar "a"] [] in
  let pem := Sample.pem_encode Sample.leaf in
  let new := [EvVerify (Sample.needs_root []);
              EvDialog 0 1 Certerr.NOTTRUSTED 0 "roa"; EvChoice 0 AcceptAlways;
              EvSaved 0 Certerr.NOTTRUSTED PinnedCert pem;
              EvMessage "Certificate saved"] in
  let w' := {| cert_file := Some pem; xcred := []; keyboard := []; disk := [];
               trace := new |} in
  tls_check_certificate g w = Some (1, w')
  /\ dated_defect Certerr.NOTTRUSTED = false
  /\ file_text w' = file_text w ++ saved_text new.
Proof.
  intros g w pem new w'. split; [reflexivity|].
  pose proof (always_only_without_dated_defect g w 1 w' new eq_refl eq_refl)
    as (_ & _ & S & F).
  split; [|exact F].
  apply (S 0 Certerr.NOTTRUSTED PinnedCert pem).
  right. right. right. left. reflexivity.
Defined.

(** C4.  Every certificate of the chain is in the certificate file and
    [tls_check_preauth] returns 0 for every one of them.  Then
    [tls_check_certificate] returns 1 from its first loop: no dialog is
    opened, and the certificate file and the trust set stay as they are. *)
Theorem pinned_clean_chain_accepted (g : Gnutls) (w : World) :
  auth_is_certificate g = true ->
  certificate_get_peers g <> [] ->
  (forall i certdata,
     nth_error (certificate_get_peers g) i = Some certdata ->
     tls_compare_certificates g (read_cert_file g w) certdata = 1 /\
     fst (fst (tls_check_preauth g (read_cert_file g w) certdata
                 (fst (tls_verify_peers g w)) (account_host g) (Z.of_nat i)))
     = 0) ->
  let w' := snd (tls_verify_peers g w) in
  tls_check_certificate g w = Some (1, w')
  /\ filter asks_user (trace w') = filter asks_user (trace w)
  /\ cert_file w' = cert_file w /\ xcred w' = xcred w
  /\ keyboard w' = keyboard w.
Proof.
  intros Ha Hp Hall w'.
  pose proof (tls_verify_peers_events g w) as (V1 & V2 & V3 & _ & msgs & Vt & Vm).
  fold w' in V1, V2, V3, Vt.
  split; [|split; [|auto]].
  - unfold tls_check_certificate. rewrite Ha. cbn [negb].
    destruct (certificate_get_peers g) as [|leaf above] eqn:P; [contradiction|].
    destruct (Hall 0%nat leaf eq_refl) as [Hc Hrc].
    destruct (tls_verify_peers g w) as [certstat w0] eqn:V. cbn [fst snd] in *.
    subst w'.
    assert (Hfile : read_cert_file g w0 = read_cert_file g w)
      by (unfold read_cert_file; now rewrite V1).
    cbn [preauth_walk]. rewrite Hfile.
    revert Hrc. unfold tls_check_preauth. rewrite Hc.
    destruct (x509_crt_import g leaf); cbn [negb fst snd Z.of_nat];
      [|discriminate].
    change (negb (1 =? 0)) with true. cbn [andb].
    destruct (fst (preauth_own_checks _ _ _ _ _ _) =? Certerr.VALID).
    + reflexivity.
    + cbn [fst snd]. change (1 =? 0) with false. cbv iota.
      destruct (preauth_library_status _ =? Certerr.VALID); [|discriminate].
      reflexivity.
  - rewrite Vt, filter_app.
    assert (filter asks_user (msgs ++ [EvVerify (fst (tls_verify_peers g w))]) = [])
      as -> by (destruct Vm as [-> | [msg ->]]; reflexivity).
    now rewrite app_nil_r.
Qed.

Lemma pinned_clean_chain_accepted_witness :
  let g := Sample.session "mail.example.org" [Sample.leaf; Sample.root]
             Sample.never true Sample.clean in
  let file := Some (Sample.pem_encode Sample.leaf ++ Sample.pem_encode Sample.root) in
  let w := Sample.world file [] [] in
  tls_check_certificate g w
  = Some (1, {| cert_file := file; xcred := []; keyboard := []; disk := [];
                trace := [EvVerify 0] |}).
Proof.
  intros g file w.
  apply (pinned_clean_chain_accepted g w).
  - reflexivity.
  - discriminate.
  - intros [|[|i]] certdata H; try (destruct i; discriminate);
      inversion H; subst; split; reflexivity.
Defined.

(** C3, as amended.  The second loop of [tls_check_certificate] runs with
    the value [tls_check_preauth] returned for the leaf in the first loop,
    under the status the library reported first; it is not computed again.
    After a certificate above the leaf passed [tls_check_one_certificate],
    it is handed to the trust set and the chain is verified again; when the
    new status is clean and that stored value is 0, the function returns 1
    at once, and otherwise the walk goes on with the certificate below
    under the new status. *)
Theorem reverify_short_cut (g : Gnutls) (w : World) (leaf : datum)
    (above : list datum) (certdata : datum) (below : list datum)
    (certstat rc0 : Z) (wi : World) (rc1 : Z) (w1 : World) :
  auth_is_certificate g = true ->
  certificate_get_peers g = leaf :: above ->
  below <> [] ->
  let certstat0 := fst (tls_verify_peers g w) in
  let w0 := snd (tls_verify_peers g w) in
  let rcpeer := fst (fst (tls_check_preauth g (read_cert_file g w0) leaf
                            certstat0 (account_host g) 0)) in
  let len := Z.of_nat (List.length (leaf :: above)) in
  let i := Z.of_nat (List.length below) in
  tls_check_one_certificate g certdata certstat (account_host g) i len wi
  = Some (rc1, w1) ->
  rc1 <> 0 ->
  let added := certificate_set_x509_trust_mem g (xcred w1) certdata in
  let w2 := emit (EvTrust i (snd added)) (set_xcred (fst added) w1) in
  let newstat := fst (tls_verify_peers g w2) in
  let w3 := snd (tls_verify_peers g w2) in
  (tls_check_certificate g w = Some (1, w0) \/
   exists rc, tls_check_certificate g w
              = interactive_walk g len rcpeer (rev (leaf :: above)) certstat0 rc w0)
  /\ interactive_walk g len rcpeer (certdata :: below) certstat rc0 wi
     = if (newstat =? 0) && (rcpeer =? 0) then Some (1, w3)
       else interactive_walk g len rcpeer below newstat (snd added) w3.
Proof.
  intros Ha Hp Hb certstat0 w0 rcpeer len i Hone Hrc added w2 newstat w3.
  split.
  - unfold tls_check_certificate. rewrite Ha, Hp. cbn [negb].
    fold certstat0 w0.
    destruct (tls_verify_peers g w) as [st ww] eqn:V.
    cbn [fst snd] in certstat0, w0. subst certstat0 w0.
    destruct (preauth_walk g (read_cert_file g ww) st (leaf :: above) 0 0 (-1) 0)
      as [|rc rcpeer'] eqn:W; [now left|].
    right. exists rc. apply preauth_walk_rcpeer in W. now subst rcpeer'.
  - cbn [interactive_walk]. fold i. rewrite Hone.
    assert (Hi : (i =? 0) = false).
    { apply Z.eqb_neq. unfold i. destruct below; [contradiction|]. cbn. lia. }
    apply Z.eqb_neq in Hrc. rewrite Hi, Hrc. cbn [negb andb].
    unfold newstat, w3, w2, added.
    destruct (certificate_set_x509_trust_mem g (xcred w1) certdata) as [anchors r].
    cbn [fst snd].
    destruct (tls_verify_peers g (emit (EvTrust i r) (set_xcred anchors w1)))
      as [st ww]. reflexivity.
Qed.

Lemma reverify_short_cut_witness :
  let g := Sample.session "mail.example.org" [Sample.leaf; Sample.root]
             (datum_eqb Sample.root) true Sample.clean in
  let w := Sample.world None [KeyChar "o"] [] in
  let w0 := snd (tls_verify_peers g w) in
  interactive_walk g 2 0 [Sample.root; Sample.leaf] 0 (-1) w0
  = Some (1, {| cert_file := None; xcred := [Sample.root]; keyboard := [];
                disk := [];
                trace := [EvVerify 0; EvDialog 1 2 Certerr.EXPIRED 0 "ro";
                          EvChoice 1 AcceptOnce; EvTrust 1 1; EvVerify 0] |}).
Proof.
  intros g w w0.
  refine (proj2 (reverify_short_cut g w Sample.leaf [Sample.root] Sample.root
                   [Sample.leaf] 0 (-1) w0 1 _ eq_refl eq_refl _ eq_refl _)).
  - discriminate.
  - discriminate.
Defined.

(** C3, as the design document states it, fails: the chain is leaf,
    intermediate and root; the intermediate has expired, and the library
    trusts the chain once the root is an anchor.  The user accepts the root;
    the new status is clean, and [tls_check_preauth] for the leaf, computed
    at that time, reports [CERTERR_VALID].  Still the function does not
    return: the value stored for the leaf in the first loop was -1, and the
    dialog for the intermediate opens. *)
Lemma reverify_uses_first_leaf_result :
  let g := Sample.session "mail.example.org"
             [Sample.leaf; Sample.inter; Sample.root]
             (datum_eqb Sample.inter) true Sample.needs_root in
  let w := Sample.world None [KeyChar "o"; KeyChar "r"] [] in
  tls_check_certificate g w
  = Some (1, {| cert_file := None; xcred := [Sample.root]; keyboard := [];
                disk := [];
                trace := [EvVerify (Sample.needs_root []);
                          EvDialog 2 3 Certerr.NOTTRUSTED 0 "roa";
                          EvChoice 2 AcceptOnce; EvTrust 2 1; EvVerify 0;
                          EvDialog 1 3 Certerr.EXPIRED 0 "ro";
                          EvChoice 1 Reject] |})
  /\ tls_check_preauth g None Sample.leaf (Sample.needs_root [])
       "mail.example.org" 0 = (-1, Certerr.NOTTRUSTED, 0)
  /\ tls_check_preauth g None Sample.leaf (Sample.needs_root [Sample.root])
       "mail.example.org" 0 = (0, Certerr.VALID, 0).
Proof. repeat split. Qed.

(** ** Termination *)

Lemma strstr_found (hay needle s : string) :
  strstr hay needle = Some s ->
  String.prefix needle s = true /\ (String.length s <= String.length hay)%nat.
Proof.
  induction hay as [|c hay IH]; cbn [strstr].
  - destruct (String.prefix needle "") eqn:P; [|discriminate].
    intros [= <-]. auto.
  - destruct (String.prefix needle (String c hay)) eqn:P.
    + intros [= <-]. auto.
    + destruct (Ascii.eqb c NUL); [discriminate|].
      intros H. apply IH in H as [H1 H2]. cbn [String.length]. split; [exact H1|lia].
Qed.

(** the loop of [tls_compare_certificates] never uses up its fuel *)
Lemma compare_certificates_fuel (g : Gnutls) (peercert : datum) (fuel1 : nat) :
  forall (fuel2 : nat) (b64_data : string),
  (String.length b64_data < fuel1)%nat ->
  (String.length b64_data < fuel2)%nat ->
  compare_certificates_loop g fuel1 b64_data peercert
  = compare_certificates_loop g fuel2 b64_data peercert.
Proof.
  induction fuel1 as [|fuel1 IH]; intros fuel2 b64_data H1 H2; [lia|].
  destruct fuel2 as [|fuel2]; [lia|]. cbn [compare_certificates_loop].
  destruct (pem_base64_decode g b64_data) as [cert|]; [|reflexivity].
  destruct (strstr b64_data CERT_SEP) as [ptr|] eqn:S1; [|reflexivity].
  destruct (datum_eqb cert peercert); [reflexivity|].
  destruct (strstr (string_drop 1 ptr) CERT_SEP) as [next|] eqn:S2; [|reflexivity].
  apply strstr_found in S1 as [P1 L1]. apply strstr_found in S2 as [_ L2].
  destruct ptr as [|c ptr]; [discriminate|]. cbn in L1, L2.
  apply IH; lia.
Qed.

Lemma certificate_dialog_returns (g : Gnutls) (certdata : datum)
    (hostname : string) (idx certerr : Z) (keys : string) (k : key_event)
    (kbd : list key_event) (w : World) :
  keys = "roa" \/ keys = "ro" -> decisive k = true ->
  exists done w',
    certificate_dialog g certdata hostname idx certerr keys (k :: kbd) w
    = Some (done, w') /\ keyboard w' = kbd.
Proof.
  intros Hk Hd. cbn [certificate_dialog].
  destruct k as [c| | |]; cbn [mutt_menu_loop]; try discriminate;
    try (do 2 eexists; split; reflexivity).
  unfold decisive in Hd.
  destruct Hk as [-> | ->]; cbn [key_offset];
    destruct (Ascii.eqb "r" c); try (do 2 eexists; split; reflexivity);
    destruct (Ascii.eqb "o" c); try (do 2 eexists; split; reflexivity);
    discriminate Hd.
Qed.

Lemma check_one_certificate_returns (g : Gnutls) (certdata : datum)
    (certstat : Z) (hostname : string) (idx len : Z) (w : World) :
  Forall (fun k => decisive k = true) (keyboard w) ->
  keyboard w <> [] ->
  exists rc w',
    tls_check_one_certificate g certdata certstat hostname idx len w
    = Some (rc, w')
    /\ Forall (fun k => decisive k = true) (keyboard w')
    /\ (List.length (keyboard w) <= S (List.length (keyboard w')))%nat.
Proof.
  intros Hall Hne. unfold tls_check_one_certificate.
  destruct (tls_check_preauth g (read_cert_file g w) certdata certstat hostname idx)
    as [[prc certerr] savedcert].
  destruct (prc =? 0); [do 2 eexists; split; [reflexivity|]; split; [auto|lia]|].
  destruct (x509_crt_import g certdata); cbn [negb];
    [|do 2 eexists; split; [reflexivity|]; split; [auto|cbn; lia]].
  cbn [emit keyboard].
  destruct (keyboard w) as [|k kbd] eqn:K; [contradiction|].
  inversion Hall as [|? ? Hk Hrest]; subst.
  destruct (certificate_dialog_returns g certdata hostname idx certerr
              (menu_keys g certerr savedcert) k kbd
              (emit (EvDialog idx len certerr savedcert
                       (menu_keys g certerr savedcert)) w)
              (menu_keys_cases g certerr savedcert) Hk)
    as (done & w' & -> & Hkbd).
  do 2 eexists. split; [reflexivity|]. rewrite Hkbd. split; [exact Hrest|].
  cbn. lia.
Qed.

Lemma interactive_walk_returns (g : Gnutls) (len rcpeer : Z) (certs : list datum) :
  forall (certstat rc0 : Z) (w : World),
  Forall (fun k => decisive k = true) (keyboard w) ->
  (List.length certs <= List.length (keyboard w))%nat ->
  exists rc w', interactive_walk g len rcpeer certs certstat rc0 w = Some (rc, w').
Proof.
  induction certs as [|certdata below IH]; intros certstat rc0 w Hall Hlen.
  - cbn. eauto.
  - cbn [interactive_walk].
    destruct (check_one_certificate_returns g certdata certstat (account_host g)
                (Z.of_nat (List.length below)) len w Hall)
      as (rc1 & w1 & -> & Hall1 & Hlen1).
    { destruct (keyboard w); [cbn in Hlen; lia | discriminate]. }
    cbn [List.length] in Hlen.
    destruct (negb (Z.of_nat (List.length below) =? 0) && negb (rc1 =? 0)).
    + destruct (certificate_set_x509_trust_mem g (xcred w1) certdata) as [anchors r].
      pose proof (tls_verify_peers_events g
                    (emit (EvTrust (Z.of_nat (List.length below)) r)
                       (set_xcred anchors w1))) as (_ & _ & Vk & _).
      destruct (tls_verify_peers g _) as [st w3]. cbn [snd] in Vk.
      cbn [emit set_xcred keyboard] in Vk.
      destruct ((st =? 0) && (rcpeer =? 0)); [eauto|].
      apply IH; rewrite Vk; [exact Hall1 | lia].
    + apply IH; [exact Hall1 | lia].
Qed.

(** with a decisive key at hand for every certificate of the chain,
    [tls_check_certificate] returns *)
Lemma tls_check_certificate_returns (g : Gnutls) (w : World) :
  Forall (fun k => decisive k = true) (keyboard w) ->
  (List.length (certificate_get_peers g) <= List.length (keyboard w))%nat ->
  exists rc w', tls_check_certificate g w = Some (rc, w').
Proof.
  intros Hall Hlen. unfold tls_check_certificate.
  destruct (auth_is_certificate g); cbn [negb]; [|eauto].
  pose proof (tls_verify_peers_events g w) as (_ & _ & Vk & _).
  destruct (tls_verify_peers g w) as [certstat w0]. cbn [snd] in Vk.
  destruct (certificate_get_peers g) as [|leaf above] eqn:P; [eauto|].
  destruct (preauth_walk _ _ _ _ _ _ _ _); [eauto|].
  apply interactive_walk_returns; rewrite Vk; [exact Hall|].
  now rewrite length_rev.
Qed.

(** * More of the code *)

(** ** More on the fingerprint *)

Lemma octet_value_hex (b : byte) :
  octet_value (hex_digit (N.div (Byte.to_N b) 16))
              (hex_digit (N.modulo (Byte.to_N b) 16)) = Some b.
Proof. destruct b; vm_compute; reflexivity. Qed.

Lemma fingerprint_octets_inj (md1 : list byte) :
  forall (md2 : list byte) (i : nat),
  fingerprint_octets i md1 = fingerprint_octets i md2 -> md1 = md2.
Proof.
  induction md1 as [|b1 md1 IH]; intros [|b2 md2] i H.
  - reflexivity.
  - discriminate.
  - discriminate.
  - cbn [fingerprint_octets] in H. unfold fingerprint_octet in H.
    cbn [append] in H.
    injection H as Hhi Hlo Hrest.
    assert (Hb : b1 = b2).
    { pose proof (octet_value_hex b1) as E1. pose proof (octet_value_hex b2) as E2.
      rewrite Hhi, Hlo in E1. congruence. }
    subst b2. f_equal.
    apply (IH md2 (S i)).
    destruct (Nat.odd i); cbn [append] in Hrest; [now injection Hrest|exact Hrest].
Qed.

Lemma fingerprint_octets_length (md : list byte) :
  forall i : nat,
  String.length (fingerprint_octets i md)
  = (2 * List.length md + (List.length md + (if Nat.odd i then 1 else 0)) / 2)%nat.
Proof.
  induction md as [|b md IH]; intros i.
  - destruct (Nat.odd i); reflexivity.
  - cbn [fingerprint_octets]. unfold fingerprint_octet.
    cbn [append String.length List.length]. rewrite length_append, IH.
    rewrite Nat.odd_succ, <- Nat.negb_odd.
    destruct (Nat.odd i); cbn [negb String.length].
    + replace (S (List.length md) + 1)%nat with (List.length md + 1 * 2)%nat by lia.
      rewrite Nat.div_add by lia. rewrite Nat.add_0_r. lia.
    + rewrite Nat.add_0_r. replace (S (List.length md)) with (List.length md + 1)%nat by lia.
      lia.
Qed.

(** an even number of octets, rendered from an even position, ends with the
    space that follows the last pair *)
Lemma fingerprint_octets_pairs (k : nat) :
  forall (i : nat) (md : list byte),
  Nat.odd i = false -> List.length md = (2 * S k)%nat ->
  exists s, fingerprint_octets i md = s ++ " "
            /\ string_forall is_digest_char s = true.
Proof.
  induction k as [|k IH]; intros i md Hi L.
  - destruct md as [|a [|b [|c md]]]; try (cbn in L; lia).
    cbn [fingerprint_octets]. unfold fingerprint_octet.
    rewrite Hi, Nat.odd_succ, <- Nat.negb_odd, Hi. cbn [negb append].
    eexists (String _ (String _ (String _ (String _ "")))). split; [reflexivity|].
    cbn [string_forall]. unfold is_digest_char.
    now rewrite !hex_digit_is_hex.
  - destruct md as [|a [|b md]]; try (cbn in L; lia).
    destruct (IH (S (S i)) md) as (s & Hs & Fs).
    { now rewrite !Nat.odd_succ, Nat.even_succ. }
    { cbn in L. lia. }
    cbn [fingerprint_octets]. unfold fingerprint_octet.
    rewrite Hi, Nat.odd_succ, <- Nat.negb_odd, Hi. cbn [negb append].
    fold (fingerprint_octets (S (S i)) md). rewrite Hs.
    eexists (String _ (String _ (String _ (String _ (String " " s))))).
    split; [reflexivity|].
    cbn [string_forall]. unfold is_digest_char at 1 2 3 4 5.
    now rewrite !hex_digit_is_hex, Fs.
Qed.

Lemma string_take_take (n m : nat) (s : string) :
  (n <= m)%nat -> string_take n (string_take m s) = string_take n s.
Proof.
  revert m s. induction n as [|n IH]; intros [|m] [|c s] H; cbn; try reflexivity; try lia.
  now rewrite IH by lia.
Qed.

Lemma string_take_length (n : nat) (s : string) :
  String.length (string_take n s) = Nat.min n (String.length s).
Proof.
  revert s. induction n as [|n IH]; intros [|c s]; cbn; try reflexivity.
  now rewrite IH.
Qed.

(** the text of [tls_fingerprint] for a digest of an even number of bytes
    that fits the buffer *)
Lemma tls_fingerprint_even (g : Gnutls) (algo : digest_algorithm)
    (buflen : nat) (data : datum) (md : list byte) (k : nat) :
  gnutls_fingerprint g algo data = Some md ->
  List.length md = (2 * S k)%nat ->
  (5 * S k <= buflen)%nat ->
  fingerprint_octets 0 md = tls_fingerprint g algo buflen data ++ " "
  /\ string_forall is_digest_char (tls_fingerprint g algo buflen data) = true
  /\ String.length (tls_fingerprint g algo buflen data) = (5 * S k - 1)%nat.
Proof.
  intros Hf L Hb. unfold tls_fingerprint. rewrite Hf, L.
  destruct (fingerprint_octets_pairs k 0 md eq_refl L) as (s & Hs & Fs).
  pose proof (fingerprint_octets_length md 0) as Hl.
  rewrite L in Hl. change (Nat.odd 0) with false in Hl. cbv iota in Hl.
  replace ((2 * S k + 0) / 2)%nat with (S k) in Hl
    by (rewrite Nat.add_0_r, Nat.mul_comm, Nat.div_mul; lia).
  replace (2 * S k / 2)%nat with (S k) by (rewrite Nat.mul_comm, Nat.div_mul; lia).
  rewrite string_take_take by lia.
  assert (Ls : String.length s = (5 * S k - 1)%nat).
  { rewrite Hs, length_append in Hl. cbn in Hl. lia. }
  replace (2 * (2 * S k) + S k - 1)%nat with (String.length s) by lia.
  rewrite Hs, string_take_append. auto.
Qed.

(** X1.  For a digest of [2k] bytes, [k >= 1], and a buffer of at least
    [5k] bytes, [tls_fingerprint] gives the octets in hex, two by two, with
    single spaces between the pairs and none at the end: [5k - 1] characters,
    each a hex digit or a space. *)
Theorem fingerprint_pairs_without_trailing_space (g : Gnutls)
    (algo : digest_algorithm) (buflen : nat) (data : datum) (md : list byte)
    (k : nat) :
  gnutls_fingerprint g algo data = Some md ->
  List.length md = (2 * S k)%nat ->
  (5 * S k <= buflen)%nat ->
  fingerprint_octets 0 md = tls_fingerprint g algo buflen data ++ " "
  /\ string_forall is_digest_char (tls_fingerprint g algo buflen data) = true
  /\ String.length (tls_fingerprint g algo buflen data) = (5 * S k - 1)%nat.
Proof. apply tls_fingerprint_even. Qed.

Lemma fingerprint_pairs_without_trailing_space_witness :
  let g := Sample.session "mail.example.org" [Sample.leaf]
             Sample.never false Sample.clean in
  tls_fingerprint g GNUTLS_DIG_MD5 80 Sample.leaf
  = "6C65 6166 0000 0000 0000 0000 0000 0000"
  /\ String.length (tls_fingerprint g GNUTLS_DIG_MD5 80 Sample.leaf) = 39%nat.
Proof.
  intros g. split; [reflexivity|].
  apply (fingerprint_pairs_without_trailing_space g GNUTLS_DIG_MD5 80
           Sample.leaf (Sample.digest Sample.leaf) 7);
    [reflexivity | reflexivity | cbn; lia].
Defined.

(** X2.  Fingerprints tell digests apart: two certificates whose digests
    (of an even number of bytes, fitting the buffer) differ never get the
    same fingerprint text. *)
Theorem fingerprints_distinguish_digests (g : Gnutls)
    (algo : digest_algorithm) (buflen : nat) (data1 data2 : datum)
    (md1 md2 : list byte) (k1 k2 : nat) :
  gnutls_fingerprint g algo data1 = Some md1 ->
  gnutls_fingerprint g algo data2 = Some md2 ->
  List.length md1 = (2 * S k1)%nat -> List.length md2 = (2 * S k2)%nat ->
  (5 * S k1 <= buflen)%nat -> (5 * S k2 <= buflen)%nat ->
  tls_fingerprint g algo buflen data1 = tls_fingerprint g algo buflen data2 ->
  md1 = md2.
Proof.
  intros F1 F2 L1 L2 B1 B2 E.
  destruct (tls_fingerprint_even g algo buflen data1 md1 k1 F1 L1 B1) as (O1 & _).
  destruct (tls_fingerprint_even g algo buflen data2 md2 k2 F2 L2 B2) as (O2 & _).
  apply (fingerprint_octets_inj md1 md2 0). now rewrite O1, O2, E.
Qed.

Lemma fingerprints_distinguish_digests_witness :
  let g := Sample.session "mail.example.org" [Sample.leaf]
             Sample.never false Sample.clean in
  tls_fingerprint g GNUTLS_DIG_MD5 80 Sample.leaf
  = tls_fingerprint g GNUTLS_DIG_MD5 80 (Sample.leaf ++ [x00])%list
  /\ Sample.digest Sample.leaf = Sample.digest (Sample.leaf ++ [x00])%list.
Proof.
  intros g. split; [reflexivity|].
  apply (fingerprints_distinguish_digests g GNUTLS_DIG_MD5 80 Sample.leaf
           (Sample.leaf ++ [x00])%list _ _ 7 7);
    try reflexivity; cbn; lia.
Defined.

(** X3.  [tls_check_stored_hostname] can only find a pin for a host name
    made of the characters the pattern admits, and for a certificate whose
    MD5 digest was computed and has 16 bytes: for any other host name, or
    when [gnutls_fingerprint] fails, it returns 0 whatever the file holds. *)
Theorem stored_hostname_found_only_if_admissible (g : Gnutls)
    (file : option string) (cert : datum) (hostname : string) :
  tls_check_stored_hostname g file cert hostname = 1 ->
  hostname_ok hostname = true
  /\ exists md, gnutls_fingerprint g GNUTLS_DIG_MD5 cert = Some md
                /\ List.length md = 16%nat.
Proof.
  destruct file as [text|]; [|discriminate]. cbn [tls_check_stored_hostname].
  intros H. apply stored_hostname_scan_iff in H as (l & _ & Hm).
  apply hostname_line_matches_iff in Hm as (Hh & Hd & _).
  split; [exact Hh|].
  pose proof (digest_ok_length _ Hd) as L. revert Hd L. unfold tls_fingerprint.
  destruct (gnutls_fingerprint g GNUTLS_DIG_MD5 cert) as [md|]; [|discriminate].
  intros _ L. exists md. split; [reflexivity|].
  rewrite !string_take_length, fingerprint_octets_length in L.
  cbn [Nat.odd] in L. rewrite Nat.add_0_r in L.
  set (n := List.length md) in *.
  assert (H2 : (2 * (n / 2) <= n < 2 * (n / 2) + 2)%nat).
  { pose proof (Nat.div_mod_eq n 2). pose proof (Nat.mod_upper_bound n 2). lia. }
  lia.
Qed.

Lemma stored_hostname_found_only_if_admissible_witness :
  let g := Sample.session "mail.example.org" [Sample.leaf]
             Sample.never false Sample.clean in
  let file := Some (hostname_pin_line "mail.example.org"
                      (tls_fingerprint g GNUTLS_DIG_MD5 80 Sample.leaf)) in
  tls_check_stored_hostname g file Sample.leaf "mail.example.org" = 1
  /\ hostname_ok "mail.example.org" = true
  /\ exists md, gnutls_fingerprint g GNUTLS_DIG_MD5 Sample.leaf = Some md
                /\ List.length md = 16%nat.
Proof.
  intros g file. split; [reflexivity|].
  apply (stored_hostname_found_only_if_admissible g file Sample.leaf
           "mail.example.org"). reflexivity.
Defined.

(** the backslash is among the characters of a host name that the pattern
    admits: a pin for such a host name is found *)
Lemma stored_hostname_admits_backslash :
  let g := Sample.session "mail.example.org" [Sample.leaf]
             Sample.never false Sample.clean in
  let host := String "a" (String BACKSLASH (String "b" EmptyString)) in
  let line := hostname_pin_line host
                (tls_fingerprint g GNUTLS_DIG_MD5 128 Sample.leaf) in
  hostname_ok host = true
  /\ tls_check_stored_hostname g (Some line) Sample.leaf host = 1.
Proof. split; vm_compute; reflexivity. Qed.


(** ** More on the certificate file *)

Lemma hostname_line_matches_prefix (buf hostname linestr : string) :
  hostname_line_matches buf hostname linestr = true ->
  String.prefix "#H" linestr = true.
Proof.
  unfold hostname_line_matches.
  destruct linestr as [|c0 [|c1 r]]; try discriminate.
  destruct (Ascii.eqb c0 "#" && Ascii.eqb c1 "H") eqn:E; [|discriminate].
  apply andb_true_iff in E as [E0 E1]. apply Ascii.eqb_eq in E0, E1. subst.
  intros _. now destruct r.
Qed.

Lemma stored_hostname_scan_other_lines (buf hostname : string) (lines : list string) :
  Forall (fun l => String.prefix "#H" l = false) lines ->
  stored_hostname_scan buf hostname lines = 0.
Proof.
  induction 1 as [|l lines Hl _ IH]; [reflexivity|]. cbn [stored_hostname_scan].
  destruct (hostname_line_matches buf hostname l) eqn:M; [|exact IH].
  apply hostname_line_matches_prefix in M. congruence.
Qed.

(** X4.  Lines that do not start with [#H], the blocks of saved
    certificates among them, do not disturb the lookup of hostname pins,
    whether they stand before or after the pins in the file. *)
Theorem stored_hostname_ignores_other_lines (g : Gnutls)
    (before text after : string) (cert : datum) (hostname : string) :
  complete_lines before = true -> complete_lines text = true ->
  Forall (fun l => String.prefix "#H" l = false) (mutt_file_read_lines before) ->
  Forall (fun l => String.prefix "#H" l = false) (mutt_file_read_lines after) ->
  tls_check_stored_hostname g (Some (before ++ text ++ after)) cert hostname
  = tls_check_stored_hostname g (Some text) cert hostname.
Proof.
  intros Hb Ht Fb Fa. unfold tls_check_stored_hostname, mutt_file_read_lines in *.
  rewrite (raw_lines_app _ _ Hb), (raw_lines_app _ _ Ht), !map_app.
  rewrite !stored_hostname_scan_app.
  rewrite (stored_hostname_scan_other_lines _ _ _ Fb),
          (stored_hostname_scan_other_lines _ _ _ Fa).
  cbn [Z.eqb].
  destruct (stored_hostname_scan_01 (tls_fingerprint g GNUTLS_DIG_MD5 80 cert)
              hostname
              (map (fun lt : string * bool =>
                      if snd lt then chomp_cr (fst lt) else fst lt)
                   (raw_lines text))) as [-> | ->]; reflexivity.
Qed.

Lemma stored_hostname_ignores_other_lines_witness :
  let g := Sample.session "mail.example.org" [Sample.leaf]
             Sample.never false Sample.clean in
  let pin := hostname_pin_line "mail.example.org"
               (tls_fingerprint g GNUTLS_DIG_MD5 80 Sample.leaf) in
  tls_check_stored_hostname g
    (Some (Sample.pem_encode Sample.root ++ pin ++ Sample.pem_encode Sample.inter))
    Sample.leaf "mail.example.org"
  = tls_check_stored_hostname g (Some pin) Sample.leaf "mail.example.org".
Proof.
  intros g pin.
  apply (stored_hostname_ignores_other_lines g (Sample.pem_encode Sample.root)
           pin (Sample.pem_encode Sample.inter) Sample.leaf "mail.example.org");
    try reflexivity; vm_compute; repeat constructor.
Defined.

Lemma datum_eqb_eq (a b : datum) : datum_eqb a b = true <-> a = b.
Proof.
  revert b. induction a as [|x a IH]; intros [|y b]; cbn; split;
    try discriminate; try reflexivity.
  - intros H. apply andb_true_iff in H as [Hx Ha].
    apply Byte.byte_dec_bl in Hx. apply IH in Ha. congruence.
  - intros [= -> ->]. apply andb_true_iff. split;
      [now apply Byte.byte_dec_lb | now apply IH].
Qed.

Lemma prefix_append (a p r : string) :
  String.prefix a p = true -> String.prefix a (p ++ r) = true.
Proof.
  revert p. induction a as [|c a IH]; intros p H.
  - now destruct (p ++ r).
  - destruct p as [|c' p]; [discriminate|]. cbn in *.
    destruct (Ascii.ascii_dec c c'); [now apply IH | discriminate].
Qed.

Lemma strstr_at_start (hay needle : string) :
  String.prefix needle hay = true -> strstr hay needle = Some hay.
Proof. intros H. destruct hay; cbn [strstr]; now rewrite H. Qed.

(** the loop of [tls_compare_certificates] over blocks and what follows
    them, where no marker is found in what follows *)
Lemma compare_certificates_tail (g : Gnutls) (peercert : datum)
    (tail : string) (blocks : list (datum * string)) :
  strstr tail CERT_SEP = None ->
  Forall (fun b => pem_block_of g (fst b) (snd b)) blocks ->
  forall fuel : nat,
  (String.length (pem_file blocks ++ tail) < fuel)%nat ->
  compare_certificates_loop g fuel (pem_file blocks ++ tail) peercert
  = if existsb (fun b => datum_eqb (fst b) peercert) blocks then 1 else 0.
Proof.
  intros Ht.
  induction 1 as [|[d pem] blocks (Hp & Hn & Hd) Hbs IH]; intros fuel Hf.
  - destruct fuel as [|fuel]; [reflexivity|].
    cbn [pem_file fold_right append compare_certificates_loop existsb].
    rewrite Ht. now destruct (pem_base64_decode g tail).
  - destruct fuel as [|fuel]; [lia|].
    cbn [pem_file fold_right fst snd existsb] in *. fold (pem_file blocks) in *.
    rewrite append_assoc in *.
    cbn [compare_certificates_loop]. rewrite Hd.
    rewrite (strstr_at_start _ _ (prefix_append _ _ _ Hp)), Hn.
    destruct (datum_eqb d peercert); [reflexivity|]. cbn [orb].
    assert (Hlen : (String.length (pem_file blocks ++ tail) < fuel)%nat).
    { rewrite length_append in Hf.
      destruct pem as [|c pem]; [discriminate|]. cbn in Hf. lia. }
    destruct blocks as [|[d2 pem2] blocks].
    + cbn [pem_file fold_right append existsb]. now rewrite Ht.
    + inversion Hbs as [|? ? (Hp2 & _) _]; subst. cbn [fst snd] in Hp2.
      rewrite (strstr_at_start (pem_file ((d2, pem2) :: blocks) ++ tail) CERT_SEP).
      * now apply IH.
      * cbn [pem_file fold_right snd]. rewrite append_assoc.
        now apply prefix_append.
Qed.

(** the same with text without a block in front *)
Lemma compare_certificates_store (g : Gnutls) (peercert : datum)
    (head tail : string) (blocks : list (datum * string)) :
  no_block_in g head ->
  strstr tail CERT_SEP = None ->
  Forall (fun b => pem_block_of g (fst b) (snd b)) blocks ->
  tls_compare_certificates g (Some (head ++ pem_file blocks ++ tail)) peercert
  = if existsb (fun b => datum_eqb (fst b) peercert) blocks then 1 else 0.
Proof.
  intros [Hs Hd] Ht Hb. cbn [tls_compare_certificates].
  set (rest := pem_file blocks ++ tail).
  assert (Hstep : forall fuel,
             compare_certificates_loop g (S fuel) (head ++ rest) peercert
             = compare_certificates_loop g (S fuel) rest peercert).
  { intros fuel. cbn [compare_certificates_loop]. now rewrite Hd, Hs. }
  rewrite Hstep. apply compare_certificates_tail; [exact Ht | exact Hb|].
  unfold rest. rewrite !length_append. lia.
Qed.

(** X5.  The certificate file is made of text without a block, then
    certificate blocks, then a rest in which [strstr] finds no marker:
    nothing, or whatever stands behind a NUL byte.  Then
    [tls_compare_certificates] finds a certificate exactly when one of those
    blocks decodes to its very bytes; what stands behind a NUL byte is never
    reached. *)
Theorem compare_finds_the_saved_certificates (g : Gnutls) (peercert : datum)
    (head tail : string) (blocks : list (datum * string)) :
  no_block_in g head ->
  strstr tail CERT_SEP = None ->
  Forall (fun b => pem_block_of g (fst b) (snd b)) blocks ->
  let file := Some (head ++ pem_file blocks ++ tail) in
  (tls_compare_certificates g file peercert = 1
   <-> In peercert (map fst blocks))
  /\ (tls_compare_certificates g file peercert = 0
      <-> ~ In peercert (map fst blocks)).
Proof.
  intros Hh Ht Hb. cbv zeta.
  rewrite (compare_certificates_store g peercert head tail blocks Hh Ht Hb).
  assert (E : existsb (fun b => datum_eqb (fst b) peercert) blocks = true
              <-> In peercert (map fst blocks)).
  { rewrite existsb_exists, in_map_iff. split.
    - intros ([d pem] & Hin & He). apply datum_eqb_eq in He. eauto.
    - intros ([d pem] & He & Hin). exists (d, pem). split; [exact Hin|].
      now apply datum_eqb_eq. }
  destruct (existsb _ blocks).
  - assert (Hin : In peercert (map fst blocks)) by now apply E.
    split; split; intros H; try reflexivity; try discriminate; try exact Hin.
    contradiction.
  - assert (Hin : ~ In peercert (map fst blocks))
      by (intros H; apply E in H; discriminate).
    split; split; intros H; try reflexivity; try discriminate; try exact Hin.
    contradiction.
Qed.

Lemma sample_pem_blocks (g : Gnutls) :
  pem_base64_decode g = Sample.pem_decode ->
  pem_block_of g Sample.leaf (Sample.pem_encode Sample.leaf)
  /\ pem_block_of g Sample.root (Sample.pem_encode Sample.root).
Proof.
  intros Hd. unfold pem_block_of. rewrite Hd.
  split; (split; [reflexivity|]); (split; intros rest);
    [ | destruct rest | | destruct rest]; reflexivity.
Qed.

(** a pin line holds no block *)
Lemma sample_pin_line_no_block (g : Gnutls) :
  pem_base64_decode g = Sample.pem_decode ->
  no_block_in g (hostname_pin_line "mail.example.org"
                   "6C65 6166 0000 0000 0000 0000 0000 0000").
Proof.
  intros Hd. unfold no_block_in. rewrite Hd.
  split; intros rest; vm_compute; reflexivity.
Qed.

Lemma compare_finds_the_saved_certificates_witness :
  let g := Sample.session "mail.example.org" [Sample.leaf]
             Sample.never false Sample.clean in
  let file := Some (hostname_pin_line "mail.example.org"
                      "6C65 6166 0000 0000 0000 0000 0000 0000"
                    ++ (Sample.pem_encode Sample.leaf
                        ++ Sample.pem_encode Sample.root)
                    ++ String NUL (Sample.pem_encode Sample.inter)) in
  tls_compare_certificates g file Sample.root = 1
  /\ tls_compare_certificates g file Sample.inter = 0.
Proof.
  intros g file.
  destruct (sample_pem_blocks g eq_refl) as [Hl Hr].
  assert (Hb : Forall (fun b => pem_block_of g (fst b) (snd b))
                 [(Sample.leaf, Sample.pem_encode Sample.leaf);
                  (Sample.root, Sample.pem_encode Sample.root)])
    by (repeat constructor; assumption).
  split.
  - apply (compare_finds_the_saved_certificates g Sample.root _
             (String NUL (Sample.pem_encode Sample.inter)) _
             (sample_pin_line_no_block g eq_refl) eq_refl Hb).
    right. left. reflexivity.
  - apply (compare_finds_the_saved_certificates g Sample.inter _
             (String NUL (Sample.pem_encode Sample.inter)) _
             (sample_pin_line_no_block g eq_refl) eq_refl Hb).
    intros [H|[H|[]]]; discriminate.
Defined.

(** ** From "accept always" to the next check *)

Lemma pem_file_app (a b : list (datum * string)) :
  pem_file (a ++ b) = pem_file a ++ pem_file b.
Proof.
  induction a as [|x a IH]; [reflexivity|].
  cbn [app pem_file fold_right]. fold (pem_file (a ++ b)) (pem_file a).
  now rewrite IH, append_assoc.
Qed.

(** what the library found, for a certificate without a finding of its own *)
Lemma library_status_alone (certstat : Z) :
  let certerr := preauth_library_status (Certerr.VALID, certstat) in
  (certstat <> 0 -> certerr <> 0)
  /\ dated_defect certerr = false
  /\ has_bit certerr Certerr.HOSTNAME = false.
Proof.
  unfold preauth_library_status, consume.
  repeat match goal with
         | |- context [if has_bit ?c ?f then _ else _] =>
             destruct (has_bit c f) eqn:?
         end;
    (destruct (_ =? 0) eqn:E0;
     [split; [|split; reflexivity] | split; [discriminate | split; reflexivity]]);
    try discriminate.
  apply Z.eqb_eq in E0. intros H. contradiction.
Qed.

(** a certificate with good dates, no revocation and no trouble with the
    host name passes the checks of [tls_check_preauth] that come before the
    look into the certificate file, whatever the file holds *)
Lemma preauth_own_checks_clean (g : Gnutls) (file : option string)
    (certdata : datum) (certstat : Z) (hostname : string) (chainidx : Z) :
  (C_SslVerifyDates g = false \/
   (mutt_date_epoch g <= x509_crt_get_expiration_time g certdata /\
    x509_crt_get_activation_time g certdata <= mutt_date_epoch g)) ->
  (chainidx <> 0 \/ C_SslVerifyHost g = false \/
   x509_crt_check_hostname g certdata hostname = true) ->
  has_bit certstat GnutlsCert.REVOKED = false ->
  preauth_own_checks g file certdata certstat hostname chainidx
  = (Certerr.VALID, certstat).
Proof.
  intros Hd Hh Hr. unfold preauth_own_checks, preauth_dates, preauth_hostname, consume.
  rewrite Hr.
  assert ((chainidx =? 0) && C_SslVerifyHost g
          && negb (x509_crt_check_hostname g certdata hostname)
          && (tls_check_stored_hostname g file certdata hostname =? 0) = false) as ->.
  { destruct Hh as [H|[H|H]].
    - apply Z.eqb_neq in H. now rewrite H.
    - rewrite H. now rewrite andb_false_r.
    - rewrite H. cbn. now rewrite andb_false_r. }
  destruct Hd as [->|[H1 H2]]; [reflexivity|].
  destruct (C_SslVerifyDates g); [|reflexivity].
  assert ((x509_crt_get_expiration_time g certdata <? mutt_date_epoch g) = false) as ->
    by (apply Z.ltb_ge; lia).
  assert ((x509_crt_get_activation_time g certdata >? mutt_date_epoch g) = false) as ->
    by (rewrite Z.gtb_ltb; apply Z.ltb_ge; lia).
  reflexivity.
Qed.

Lemma pem_block_of_decoder (g g' : Gnutls) (d : datum) (pem : string) :
  pem_base64_decode g' = pem_base64_decode g ->
  pem_block_of g d pem -> pem_block_of g' d pem.
Proof. intros E (H1 & H2 & H3). unfold pem_block_of. rewrite E. auto. Qed.

Lemma no_block_in_decoder (g g' : Gnutls) (head : string) :
  pem_base64_decode g' = pem_base64_decode g ->
  no_block_in g head -> no_block_in g' head.
Proof. intros E (H1 & H2). unfold no_block_in. rewrite E. auto. Qed.

(** X6.  The certificate file is text without a block followed by
    certificate blocks, none of them the certificate at hand; it holds no NUL
    byte.  The certificate is not trusted by the library, but has good dates,
    is not revoked and has no trouble with the host name, so it is shown in
    a dialog; the user types [a], the file operations succeed, and the
    library can read back the block it writes.  Then the certificate is
    accepted and its block is added at the end of the file.  And a later
    check of the certificate passes without a dialog and takes no key, with
    whatever clock, options and status it runs, as long as the file is still
    the same, the library decodes as before, and the certificate can still
    be read, still has its dates and its host name in order and is not
    reported revoked. *)
Theorem accepted_always_is_not_asked_again (g : Gnutls) (certdata : datum)
    (certstat : Z) (hostname : string) (idx len : Z) (w : World)
    (head : string) (blocks : list (datum * string)) (pemdata : string)
    (keys : list key_event) :
  C_CertificateFile g = true ->
  Forall (eq true) (disk w) ->
  keyboard w = KeyChar "a" :: keys ->
  x509_crt_import g certdata = true ->
  dates_in_order g certdata ->
  (idx <> 0 \/ C_SslVerifyHost g = false \/
   x509_crt_check_hostname g certdata hostname = true) ->
  has_bit certstat GnutlsCert.REVOKED = false ->
  certstat <> 0 ->
  file_text w = head ++ pem_file blocks ->
  no_block_in g head ->
  Forall (fun b => pem_block_of g (fst b) (snd b)) blocks ->
  ~ In certdata (map fst blocks) ->
  pem_base64_encode g certdata = Some pemdata ->
  pem_block_of g certdata pemdata ->
  exists w1,
    tls_check_one_certificate g certdata certstat hostname idx len w = Some (1, w1)
    /\ cert_file w1
       = Some (head ++ pem_file (blocks ++ [(certdata, pemdata)]))
    /\ forall (g' : Gnutls) (w2 : World) (certstat' : Z) (hostname' : string)
              (idx' len' : Z),
         cert_file w2 = cert_file w1 ->
         C_CertificateFile g' = true ->
         pem_base64_decode g' = pem_base64_decode g ->
         x509_crt_import g' certdata = true ->
         dates_in_order g' certdata ->
         (idx' <> 0 \/ C_SslVerifyHost g' = false \/
          x509_crt_check_hostname g' certdata hostname' = true) ->
         has_bit certstat' GnutlsCert.REVOKED = false ->
         tls_check_one_certificate g' certdata certstat' hostname' idx' len' w2
         = Some (1, w2).
Proof.
  intros Hc Hd Hk Hi Hdates Hhost Hrev Hst Htext Hhead Hblocks Hnew Hpem Hblock.
  destruct (library_status_alone certstat) as (Hne & Hdd & Hhb).
  specialize (Hne Hst).
  set (certerr := preauth_library_status (Certerr.VALID, certstat)) in *.
  assert (Hcmp : tls_compare_certificates g (read_cert_file g w) certdata = 0).
  { unfold read_cert_file. rewrite Hc.
    destruct (cert_file w) as [text|] eqn:F; [|reflexivity].
    unfold file_text in Htext. rewrite F in Htext. subst text.
    rewrite <- (append_nil_r (pem_file blocks)).
    rewrite (compare_certificates_store g certdata head "" blocks Hhead eq_refl
               Hblocks).
    destruct (existsb _ blocks) eqn:E; [|reflexivity].
    apply existsb_exists in E as ([d pem] & Hin & He).
    apply datum_eqb_eq in He. cbn in He. subst d.
    exfalso. apply Hnew. apply in_map_iff. now exists (certdata, pem). }
  assert (Hpre : tls_check_preauth g (read_cert_file g w) certdata certstat hostname idx
                 = (-1, certerr, 0)).
  { unfold tls_check_preauth. rewrite Hi. cbn [negb].
    rewrite (preauth_own_checks_clean g _ certdata certstat hostname idx
               Hdates Hhost Hrev), Hcmp.
    cbn [Z.eqb negb andb fst]. cbv zeta. fold certerr.
    destruct (certerr =? Certerr.VALID) eqn:E; [|reflexivity].
    apply Z.eqb_eq in E. contradiction. }
  assert (Hkeys : menu_keys g certerr 0 = "roa")
    by (apply always_offered_iff; auto).
  assert (Hnh : certerr <> Certerr.HOSTNAME)
    by (intros E; rewrite E in Hhb; discriminate).
  set (w0 := emit (EvChoice idx AcceptAlways)
               (set_keyboard keys
                  (emit (EvDialog idx len certerr 0 (menu_keys g certerr 0)) w))).
  destruct (save_certificate_succeeds g certdata hostname idx certerr w0 pemdata
              Hc Hd (or_intror Hpem)) as [Hsaved _].
  rewrite Hhb in Hsaved. apply Z.eqb_neq in Hnh. rewrite Hnh in Hsaved.
  cbn [app map snd String.concat] in Hsaved.
  change (file_text w0) with (file_text w) in Hsaved. rewrite Htext in Hsaved.
  assert (Hfile1 : cert_file (save_certificate g certdata hostname idx certerr w0)
                   = Some (head ++ pem_file (blocks ++ [(certdata, pemdata)]))).
  { rewrite Hsaved, pem_file_app. cbn [pem_file fold_right snd].
    now rewrite !append_nil_r, append_assoc. }
  exists (save_certificate g certdata hostname idx certerr w0).
  split; [|split; [exact Hfile1|]].
  - unfold tls_check_one_certificate. rewrite Hpre, Hi.
    cbn [Z.eqb negb emit keyboard]. rewrite Hk, Hkeys.
    cbn [certificate_dialog mutt_menu_loop key_offset Ascii.eqb Bool.eqb].
    rewrite <- Hkeys. reflexivity.
  - intros g' w2 certstat' hostname' idx' len' Hf2 Hc' Hdec Hi' Hdates' Hhost' Hrev'.
    unfold tls_check_one_certificate.
    assert (Hread : read_cert_file g' w2
                    = Some (head ++ pem_file (blocks ++ [(certdata, pemdata)]) ++ ""))
      by (unfold read_cert_file; now rewrite Hc', Hf2, Hfile1, append_nil_r).
    rewrite Hread. unfold tls_check_preauth. rewrite Hi'. cbn [negb].
    rewrite (preauth_own_checks_clean g' _ certdata certstat' hostname' idx'
               Hdates' Hhost' Hrev').
    assert (Hall : Forall (fun b => pem_block_of g' (fst b) (snd b))
                     (blocks ++ [(certdata, pemdata)])).
    { apply Forall_app. split.
      - eapply Forall_impl; [|exact Hblocks].
        intros b. now apply pem_block_of_decoder.
      - apply Forall_cons; [|apply Forall_nil].
        now apply (pem_block_of_decoder g g'). }
    rewrite (compare_certificates_store g' certdata head "" _
               (no_block_in_decoder g g' head Hdec Hhead) eq_refl Hall).
    rewrite existsb_app. cbn [existsb fst].
    assert (datum_eqb certdata certdata = true) as -> by now apply datum_eqb_eq.
    rewrite orb_true_r. reflexivity.
Qed.

Lemma accepted_always_is_not_asked_again_witness :
  let g := Sample.session "mail.example.org" [Sample.leaf]
             Sample.never true Sample.needs_root in
  let head := hostname_pin_line "mail.example.org"
                "6C65 6166 0000 0000 0000 0000 0000 0000" in
  let w := Sample.world (Some (head ++ Sample.pem_encode Sample.root))
             [KeyChar "a"] [] in
  exists w1,
    tls_check_one_certificate g Sample.leaf (Sample.needs_root [])
      "mail.example.org" 0 1 w = Some (1, w1)
    /\ cert_file w1
       = Some (head ++ Sample.pem_encode Sample.root
                    ++ Sample.pem_encode Sample.leaf)
    /\ forall (g' : Gnutls) (w2 : World) (certstat' : Z) (hostname' : string)
              (idx' len' : Z),
         cert_file w2 = cert_file w1 ->
         C_CertificateFile g' = true ->
         pem_base64_decode g' = pem_base64_decode g ->
         x509_crt_import g' Sample.leaf = true ->
         dates_in_order g' Sample.leaf ->
         (idx' <> 0 \/ C_SslVerifyHost g' = false \/
          x509_crt_check_hostname g' Sample.leaf hostname' = true) ->
         has_bit certstat' GnutlsCert.REVOKED = false ->
         tls_check_one_certificate g' Sample.leaf certstat' hostname' idx' len' w2
         = Some (1, w2).
Proof.
  intros g head w.
  destruct (sample_pem_blocks g eq_refl) as [Hl Hr].
  refine (accepted_always_is_not_asked_again g Sample.leaf (Sample.needs_root [])
            "mail.example.org" 0 1 w head
            [(Sample.root, Sample.pem_encode Sample.root)]
            (Sample.pem_encode Sample.leaf) []
            eq_refl (Forall_nil _) eq_refl eq_refl _ _ eq_refl _ eq_refl
            (sample_pin_line_no_block g eq_refl) _ _ eq_refl Hl).
  - right. split; cbn; lia.
  - right. right. reflexivity.
  - discriminate.
  - apply Forall_cons; [exact Hr | apply Forall_nil].
  - intros [H|[]]; discriminate.
Defined.

(** ** What tls_check_preauth reports *)

Lemma preauth_own_checks_valid_iff (g : Gnutls) (file : option string)
    (certdata : datum) (certstat : Z) (hostname : string) (chainidx : Z) :
  fst (preauth_own_checks g file certdata certstat hostname chainidx) = Certerr.VALID
  <-> (C_SslVerifyDates g = false \/
       (mutt_date_epoch g <= x509_crt_get_expiration_time g certdata /\
        x509_crt_get_activation_time g certdata <= mutt_date_epoch g))
      /\ (chainidx <> 0 \/ C_SslVerifyHost g = false \/
          x509_crt_check_hostname g certdata hostname = true \/
          tls_check_stored_hostname g file certdata hostname <> 0)
      /\ has_bit certstat GnutlsCert.REVOKED = false.
Proof.
  unfold preauth_own_checks, preauth_dates, preauth_hostname, consume.
  destruct (has_bit certstat GnutlsCert.REVOKED);
    destruct (C_SslVerifyDates g);
    destruct (Z.ltb_spec (x509_crt_get_expiration_time g certdata) (mutt_date_epoch g));
    destruct (Z.gtb_spec (x509_crt_get_activation_time g certdata) (mutt_date_epoch g));
    destruct (Z.eqb_spec chainidx 0);
    destruct (C_SslVerifyHost g);
    destruct (x509_crt_check_hostname g certdata hostname);
    destruct (Z.eqb_spec (tls_check_stored_hostname g file certdata hostname) 0);
    cbn; (split; [intros Hz; try discriminate Hz; repeat split; auto; try lia;
                  try (right; split; lia); tauto
                 | intros (Hd & Hh & Hr); try discriminate Hr; try reflexivity;
                   exfalso;
                   repeat match goal with
                          | H : _ \/ _ |- _ => destruct H
                          | H : _ /\ _ |- _ => destruct H
                          end; try discriminate; try lia; congruence]).
Qed.

Lemma library_status_of_clean : preauth_library_status (Certerr.VALID, 0) = 0.
Proof. reflexivity. Qed.

(** when [tls_check_preauth] returns 0 *)
Lemma preauth_zero_iff (g : Gnutls) (file : option string)
    (certdata : datum) (certstat : Z) (hostname : string) (chainidx : Z) :
  fst (fst (tls_check_preauth g file certdata certstat hostname chainidx)) = 0
  <-> x509_crt_import g certdata = true
      /\ (C_SslVerifyDates g = false \/
          (mutt_date_epoch g <= x509_crt_get_expiration_time g certdata /\
           x509_crt_get_activation_time g certdata <= mutt_date_epoch g))
      /\ (chainidx <> 0 \/ C_SslVerifyHost g = false \/
          x509_crt_check_hostname g certdata hostname = true \/
          tls_check_stored_hostname g file certdata hostname <> 0)
      /\ has_bit certstat GnutlsCert.REVOKED = false
      /\ (tls_compare_certificates g file certdata <> 0 \/ certstat = 0).
Proof.
  pose proof (preauth_own_checks_valid_iff g file certdata certstat hostname chainidx)
    as Hown.
  unfold tls_check_preauth.
  destruct (x509_crt_import g certdata); cbn [negb fst];
    [|split; [discriminate | intros (H & _); discriminate H]].
  destruct (preauth_own_checks g file certdata certstat hostname chainidx)
    as [own rest] eqn:Eown.
  cbn [fst] in *.
  assert (Hrest : has_bit certstat GnutlsCert.REVOKED = false -> rest = certstat).
  { intros Hr. revert Eown. unfold preauth_own_checks, consume. rewrite Hr.
    now intros [= _ <-]. }
  destruct (Z.eqb_spec own Certerr.VALID) as [Hv | Hv].
  - destruct (proj1 Hown Hv) as (Hd & Hh & Hr). rewrite (Hrest Hr). subst own.
    destruct (Z.eqb_spec (tls_compare_certificates g file certdata) 0) as [Hs | Hs];
      cbn [negb andb fst].
    + destruct (Z.eqb_spec (preauth_library_status (Certerr.VALID, certstat))
                  Certerr.VALID) as [Hl | Hl].
      * split; [intros _ | reflexivity]. repeat split; auto. right.
        destruct (Z.eq_dec certstat 0) as [|Hne]; [assumption|].
        now destruct (proj1 (library_status_alone certstat) Hne).
      * split; [discriminate|]. intros (_ & _ & _ & _ & [Hc | Hc]);
          [contradiction|]. subst certstat. now destruct Hl.
    + split; [intros _ | reflexivity]. repeat split; auto.
  - rewrite andb_false_r.
    destruct (Z.eqb_spec (preauth_library_status (own, rest)) Certerr.VALID)
      as [Hl | Hl]; cbn [fst].
    + apply preauth_library_status_keeps in Hl. contradiction.
    + split; [discriminate|]. intros (_ & Hd & Hh & Hr & _).
      destruct Hv. apply Hown. auto.
Qed.

(** X7.  [tls_check_preauth] returns 0, so that no dialog opens for the
    certificate, exactly when the certificate can be read, its dates are in
    order (or are not to be checked), its host name is in order (it is not
    the leaf, or host names are not to be checked, or it names the host, or
    a pin for the host is stored), the library does not report it revoked,
    and either the certificate is in the certificate file or the library
    reports no defect at all. *)
Theorem preauth_passes_iff (g : Gnutls) (file : option string)
    (certdata : datum) (certstat : Z) (hostname : string) (chainidx : Z) :
  fst (fst (tls_check_preauth g file certdata certstat hostname chainidx)) = 0
  <-> x509_crt_import g certdata = true
      /\ (C_SslVerifyDates g = false \/
          (mutt_date_epoch g <= x509_crt_get_expiration_time g certdata /\
           x509_crt_get_activation_time g certdata <= mutt_date_epoch g))
      /\ (chainidx <> 0 \/ C_SslVerifyHost g = false \/
          x509_crt_check_hostname g certdata hostname = true \/
          tls_check_stored_hostname g file certdata hostname <> 0)
      /\ has_bit certstat GnutlsCert.REVOKED = false
      /\ (tls_compare_certificates g file certdata <> 0 \/ certstat = 0).
Proof. apply preauth_zero_iff. Qed.

Lemma land_pow2 (x k : Z) :
  0 <= k -> Z.land x (2 ^ k) = if Z.testbit x k then 2 ^ k else 0.
Proof.
  intros Hk. apply Z.bits_inj'. intros n Hn.
  rewrite Z.land_spec, Z.pow2_bits_eqb by lia.
  destruct (Z.eqb_spec k n) as [<- | Hne].
  - rewrite andb_true_r. destruct (Z.testbit x k);
      [now rewrite Z.pow2_bits_true | now rewrite Z.bits_0].
  - rewrite andb_false_r. destruct (Z.testbit x k);
      [now rewrite Z.pow2_bits_false | now rewrite Z.bits_0].
Qed.

Lemma has_bit_testbit (x k : Z) : 0 <= k -> has_bit x (2 ^ k) = Z.testbit x k.
Proof.
  intros Hk. unfold has_bit. rewrite land_pow2 by lia.
  destruct (Z.testbit x k); [|reflexivity].
  destruct (Z.eqb_spec (2 ^ k) 0) as [E|]; [|reflexivity].
  pose proof (Z.pow_pos_nonneg 2 k). lia.
Qed.

Lemma consume_pow2 (k j c s : Z) :
  0 <= k ->
  consume (2 ^ k) j (c, s)
  = (if Z.testbit s k then Z.lor c j else c, Z.ldiff s (2 ^ k)).
Proof.
  intros Hk. unfold consume. rewrite has_bit_testbit by lia.
  destruct (Z.testbit s k) eqn:E; f_equal; apply Z.bits_inj'; intros n Hn.
  - rewrite Z.lxor_spec, Z.ldiff_spec, Z.pow2_bits_eqb by lia.
    destruct (Z.eqb_spec k n) as [<- | Hne]; [now rewrite E|].
    now rewrite xorb_false_r, andb_true_r.
  - rewrite Z.ldiff_spec, Z.pow2_bits_eqb by lia.
    destruct (Z.eqb_spec k n) as [<- | Hne]; [now rewrite E|].
    now rewrite andb_true_r.
Qed.

Lemma testbit_ldiff_pow2 (s k n : Z) :
  0 <= k -> 0 <= n -> k <> n -> Z.testbit (Z.ldiff s (2 ^ k)) n = Z.testbit s n.
Proof.
  intros Hk Hn Hne. rewrite Z.ldiff_spec, Z.pow2_bits_false by lia.
  apply andb_true_r.
Qed.

(** what [tls_check_preauth] makes of the library's status, from
    [if (certstat & GNUTLS_CERT_REVOKED)] on, bit by bit *)
Lemma library_status_bits (own certstat : Z) :
  let st := consume GnutlsCert.REVOKED Certerr.REVOKED (own, certstat) in
  let certerr := preauth_library_status st in
  certerr
  = Z.lor own
      (Z.lor (if has_bit certstat GnutlsCert.REVOKED then Certerr.REVOKED else 0)
         (Z.lor (if has_bit certstat GnutlsCert.INVALID
                    || has_bit certstat GnutlsCert.SIGNER_NOT_FOUND
                 then Certerr.NOTTRUSTED else 0)
            (Z.lor (if has_bit certstat GnutlsCert.SIGNER_NOT_CA
                    then Certerr.SIGNERNOTCA else 0)
               (Z.lor (if has_bit certstat GnutlsCert.INSECURE_ALGORITHM
                       then Certerr.INSECUREALG else 0)
                  (if Z.ldiff certstat known_status =? 0 then 0
                   else Certerr.OTHER))))).
Proof.
  cbv zeta. unfold preauth_library_status.
  change GnutlsCert.REVOKED with (2 ^ 5).
  change GnutlsCert.INVALID with (2 ^ 1).
  change GnutlsCert.SIGNER_NOT_FOUND with (2 ^ 6).
  change GnutlsCert.SIGNER_NOT_CA with (2 ^ 7).
  change GnutlsCert.INSECURE_ALGORITHM with (2 ^ 8).
  rewrite !consume_pow2 by lia.
  rewrite !testbit_ldiff_pow2 by lia.
  rewrite !has_bit_testbit by lia.
  rewrite !Z.ldiff_ldiff_l.
  change (Z.lor (2 ^ 5) (Z.lor (2 ^ 1) (Z.lor (2 ^ 6) (Z.lor (2 ^ 7) (2 ^ 8)))))
    with known_status.
  destruct (Z.testbit certstat 5), (Z.testbit certstat 1),
    (Z.testbit certstat 6), (Z.testbit certstat 7), (Z.testbit certstat 8),
    (Z.ldiff certstat known_status =? 0);
    cbn [orb]; rewrite <- ?Z.lor_assoc;
    first [ reflexivity | f_equal; reflexivity
          | symmetry; exact (Z.lor_0_r own) ].
Qed.

(** X8.  For a certificate that can be read and is not in the certificate
    file, [*certerr] carries the library's status bit by bit:
    [CERTERR_REVOKED] for [GNUTLS_CERT_REVOKED], [CERTERR_NOTTRUSTED] for
    [GNUTLS_CERT_INVALID] or [GNUTLS_CERT_SIGNER_NOT_FOUND],
    [CERTERR_SIGNERNOTCA] for [GNUTLS_CERT_SIGNER_NOT_CA],
    [CERTERR_INSECUREALG] for [GNUTLS_CERT_INSECURE_ALGORITHM], and
    [CERTERR_OTHER] exactly when the status has a bit besides these five. *)
Theorem preauth_reports_library_status (g : Gnutls) (file : option string)
    (certdata : datum) (certstat : Z) (hostname : string) (chainidx : Z) :
  x509_crt_import g certdata = true ->
  tls_compare_certificates g file certdata = 0 ->
  let certerr :=
    snd (fst (tls_check_preauth g file certdata certstat hostname chainidx)) in
  has_bit certerr Certerr.REVOKED = has_bit certstat GnutlsCert.REVOKED
  /\ has_bit certerr Certerr.NOTTRUSTED
     = has_bit certstat GnutlsCert.INVALID
       || has_bit certstat GnutlsCert.SIGNER_NOT_FOUND
  /\ has_bit certerr Certerr.SIGNERNOTCA
     = has_bit certstat GnutlsCert.SIGNER_NOT_CA
  /\ has_bit certerr Certerr.INSECUREALG
     = has_bit certstat GnutlsCert.INSECURE_ALGORITHM
  /\ has_bit certerr Certerr.OTHER
     = negb (Z.ldiff certstat known_status =? 0).
Proof.
  intros Hi Hs. unfold tls_check_preauth. rewrite Hi, Hs.
  cbn [negb Z.eqb andb fst snd]. unfold preauth_own_checks.
  rewrite library_status_bits.
  unfold preauth_dates, preauth_hostname.
  repeat match goal with
         | |- context [if ?c then _ else _] => destruct c
         end; repeat split; reflexivity.
Qed.

Lemma preauth_reports_library_status_witness :
  let g := Sample.session "mail.example.org" [Sample.leaf]
             Sample.never true Sample.needs_root in
  let certerr :=
    snd (fst (tls_check_preauth g None Sample.leaf
                (Z.lor GnutlsCert.SIGNER_NOT_FOUND 1024) "mail.example.org" 0)) in
  has_bit certerr Certerr.REVOKED = false
  /\ has_bit certerr Certerr.NOTTRUSTED = true
  /\ has_bit certerr Certerr.SIGNERNOTCA = false
  /\ has_bit certerr Certerr.INSECUREALG = false
  /\ has_bit certerr Certerr.OTHER = true.
Proof.
  exact (preauth_reports_library_status
           (Sample.session "mail.example.org" [Sample.leaf]
              Sample.never true Sample.needs_root)
           None Sample.leaf (Z.lor GnutlsCert.SIGNER_NOT_FOUND 1024)
           "mail.example.org" 0 eq_refl eq_refl).
Defined.

(** ** The verdict and the trust set *)

Lemma ends_in_refusal_app (idx : Z) (front new : list event) :
  ends_in_refusal idx new -> ends_in_refusal idx (front ++ new).
Proof.
  intros [pre [-> | [msg ->]]]; exists (front ++ pre)%list.
  - left. now rewrite app_assoc.
  - right. exists msg. now rewrite app_assoc.
Qed.

Lemma check_one_events_verdict (g : Gnutls) (idx len certerr savedcert prc rc : Z)
    (new : list event) :
  check_one_events g idx len certerr savedcert prc rc new ->
  (rc = 0 \/ rc = 1) /\ (rc = 0 -> ends_in_refusal idx new).
Proof.
  intros [(_ & -> & ->) | [(_ & -> & msg & ->) | (_ & d & tail & -> & Ho)]].
  - split; [now right | discriminate].
  - split; [now left|]. intros _. exists []. right. now exists msg.
  - destruct d; cbn in Ho.
    + destruct Ho as [-> ->]. split; [now left|]. intros _.
      exists [EvDialog idx len certerr savedcert (menu_keys g certerr savedcert)].
      now left.
    + destruct Ho as [-> _]. split; [now right | discriminate].
    + destruct Ho as (-> & _). split; [now right | discriminate].
Qed.

(** the second loop of [tls_check_certificate]: its verdict and its trust
    steps *)
Lemma interactive_walk_verdict (g : Gnutls) (len rcpeer : Z) (certs : list datum) :
  forall (certstat rc0 : Z) (w : World) (rc : Z) (w' : World),
  certs <> [] ->
  interactive_walk g len rcpeer certs certstat rc0 w = Some (rc, w') ->
  exists new,
    trace w' = (trace w ++ new)%list
    /\ (rc = 0 \/ rc = 1)
    /\ (rc = 0 -> ends_in_refusal 0 new)
    /\ (forall i r, In (EvTrust i r) new ->
          0 < i < Z.of_nat (List.length certs))
    /\ ((forall i r, ~ In (EvTrust i r) new) -> xcred w' = xcred w).
Proof.
  induction certs as [|certdata below IH]; intros certstat rc0 w rc w' Hne H;
    [contradiction|].
  cbn [interactive_walk] in H.
  destruct (tls_check_one_certificate g certdata certstat (account_host g)
              (Z.of_nat (List.length below)) len w) as [[rc1 w1]|] eqn:C;
    [|discriminate].
  apply check_one_certificate_events in C as (Hx1 & new1 & Ht1 & _ & Hs1).
  destruct (tls_check_preauth _ _ _ _ _ _) as [[prc certerr] savedcert].
  pose proof (check_one_events_verdict _ _ _ _ _ _ _ _ Hs1) as (V1 & Z1).
  apply check_one_events_facts in Hs1 as (_ & _ & NT1 & _).
  destruct below as [|c2 below'].
  - (* the leaf *)
    cbn in H. inversion H; subst. exists new1.
    split; [exact Ht1|]. split; [exact V1|]. split; [exact Z1|].
    split; [intros i r Hin; now apply NT1 in Hin | intros _; exact Hx1].
  - set (below := c2 :: below') in *.
    assert (Hb : below <> []) by discriminate.
    assert (Hpos : 0 < Z.of_nat (List.length below)) by (cbn; lia).
    destruct (negb (Z.of_nat (List.length below) =? 0) && negb (rc1 =? 0)).
    + destruct (certificate_set_x509_trust_mem g (xcred w1) certdata)
        as [anchors r].
      set (w2 := emit (EvTrust (Z.of_nat (List.length below)) r)
                   (set_xcred anchors w1)) in H.
      pose proof (tls_verify_peers_events g w2) as (_ & _ & _ & _ & msgs & Vt & Vm).
      destruct (tls_verify_peers g w2) as [st w3]. cbn [fst snd] in *.
      destruct (trust_step_events (Z.of_nat (List.length below)) r st msgs Vm)
        as (_ & _ & _ & _ & T5).
      set (T := (EvTrust (Z.of_nat (List.length below)) r
                   :: msgs ++ [EvVerify st])%list) in *.
      assert (Ht3 : trace w3 = (trace w ++ new1 ++ T)%list).
      { rewrite Vt. unfold w2, T. cbn. rewrite Ht1, <- !app_assoc. reflexivity. }
      assert (HinT : In (EvTrust (Z.of_nat (List.length below)) r) T) by now left.
      destruct ((st =? 0) && (rcpeer =? 0)).
      * inversion H; subst. exists (new1 ++ T)%list.
        split; [exact Ht3|]. split; [now right|]. split; [discriminate|].
        split.
        -- intros i r' Hin. apply in_app_or in Hin as [Hin|Hin];
             [now apply NT1 in Hin|].
           apply T5 in Hin. subst i. cbn [List.length]. lia.
        -- intros Hno. exfalso.
           apply (Hno (Z.of_nat (List.length below)) r).
           apply in_or_app. now right.
      * apply (IH _ _ _ _ _ Hb) in H as (new2 & Ht & V2 & Z2 & P2 & _).
        exists (new1 ++ T ++ new2)%list.
        split; [rewrite Ht, Ht3, <- !app_assoc; reflexivity|].
        split; [exact V2|].
        split; [intros Hz; rewrite app_assoc; now apply ends_in_refusal_app, Z2|].
        split.
        -- intros i r' Hin. apply in_app_or in Hin as [Hin|Hin];
             [now apply NT1 in Hin|].
           apply in_app_or in Hin as [Hin|Hin].
           ++ apply T5 in Hin. subst i. cbn [List.length]. lia.
           ++ apply P2 in Hin. cbn [List.length]. lia.
        -- intros Hno. exfalso.
           apply (Hno (Z.of_nat (List.length below)) r).
           apply in_or_app. right. apply in_or_app. now left.
    + apply (IH _ _ _ _ _ Hb) in H as (new2 & Ht & V2 & Z2 & P2 & X2).
      exists (new1 ++ new2)%list.
      split; [rewrite Ht, Ht1, <- app_assoc; reflexivity|].
      split; [exact V2|].
      split; [intros Hz; now apply ends_in_refusal_app, Z2|].
      split.
      * intros i r' Hin. apply in_app_or in Hin as [Hin|Hin];
          [now apply NT1 in Hin|].
        apply P2 in Hin. cbn [List.length]. lia.
      * intros Hno. rewrite X2, Hx1; [reflexivity|].
        intros i r' Hin. apply (Hno i r'). apply in_or_app. now right.
Qed.

(** [tls_check_certificate]: its verdict and its trust steps *)
Lemma tls_check_certificate_verdict (g : Gnutls) (w : World) (rc : Z) (w' : World) :
  tls_check_certificate g w = Some (rc, w') ->
  exists new,
    trace w' = (trace w ++ new)%list
    /\ (rc = 0 \/ rc = 1)
    /\ (rc = 0 -> ends_in_refusal 0 new)
    /\ (forall i r, In (EvTrust i r) new ->
          0 < i < Z.of_nat (List.length (certificate_get_peers g)))
    /\ ((forall i r, ~ In (EvTrust i r) new) -> xcred w' = xcred w).
Proof.
  unfold tls_check_certificate.
  destruct (auth_is_certificate g); cbn [negb].
  2:{ intros [= <- <-]. exists [EvError "Unable to get certificate from peer"].
      split; [reflexivity|]. split; [now left|].
      split; [intros _; exists (@nil event); right; eexists; reflexivity|].
      split; [intros i r [H|[]]; discriminate | reflexivity]. }
  pose proof (tls_verify_peers_events g w) as (_ & Vx & _ & _ & msgs & Vt & Vm).
  destruct (tls_verify_peers g w) as [certstat w0]. cbn [fst snd] in *.
  set (V := (msgs ++ [EvVerify certstat])%list) in *.
  assert (NTV : forall i r, ~ In (EvTrust i r) V).
  { unfold V. destruct Vm as [-> | [msg ->]]; cbn.
    - intros i r [H|[]]; discriminate.
    - intros i r [H|[H|[]]]; discriminate. }
  destruct (certificate_get_peers g) as [|leaf above] eqn:P.
  - intros [= <- <-].
    exists (V ++ [EvError "Unable to get certificate from peer"])%list.
    split; [cbn; rewrite Vt; now rewrite <- app_assoc|].
    split; [now left|]. split; [intros _; exists V; right; eexists; reflexivity|].
    split.
    + intros i r Hin. apply in_app_or in Hin as [Hin|[Hin|[]]];
        [now apply NTV in Hin | discriminate].
    + intros _. exact Vx.
  - destruct (preauth_walk _ _ _ _ _ _ _ _) as [|rc1 rcpeer].
    + intros [= <- <-]. exists V. split; [exact Vt|]. split; [now right|].
      split; [discriminate|].
      split; [intros i r Hin; now apply NTV in Hin | intros _; exact Vx].
    + intros H.
      apply interactive_walk_verdict in H as (new & Ht & V2 & Z2 & P2 & X2).
      2:{ intros E. apply (f_equal (@List.length _)) in E.
          rewrite length_rev in E. discriminate. }
      rewrite length_rev in P2.
      exists (V ++ new)%list.
      split; [rewrite Ht, Vt; now rewrite <- app_assoc|].
      split; [exact V2|].
      split; [intros Hz; now apply ends_in_refusal_app, Z2|].
      split.
      * intros i r Hin. apply in_app_or in Hin as [Hin|Hin];
          [now apply NTV in Hin | now apply P2 in Hin].
      * intros Hno. rewrite X2, Vx; [reflexivity|].
        intros i r Hin. apply (Hno i r). apply in_or_app. now right.
Qed.

(** X9.  [tls_check_certificate] returns 0 or 1, whatever the library's
    call to add a signer returned in between; and it returns 0 only when
    the last thing that happened is the user's rejection of the leaf or an
    error message. *)
Theorem check_fails_only_by_rejection_or_error (g : Gnutls) (w : World)
    (rc : Z) (w' : World) (new : list event) :
  tls_check_certificate g w = Some (rc, w') ->
  trace w' = (trace w ++ new)%list ->
  (rc = 0 \/ rc = 1) /\ (rc = 0 -> ends_in_refusal 0 new).
Proof.
  intros H Ht.
  apply tls_check_certificate_verdict in H as (new' & Ht' & Hv & Hz & _).
  rewrite Ht' in Ht. apply app_inv_head in Ht. subst new'. auto.
Qed.

Lemma check_fails_only_by_rejection_or_error_witness :
  let g := Sample.session "mail.example.org" [Sample.leaf]
             Sample.never true Sample.needs_root in
  let w := Sample.world None [KeyChar "r"] [] in
  let new := [EvVerify (Sample.needs_root []);
              EvDialog 0 1 Certerr.NOTTRUSTED 0 "roa"; EvChoice 0 Reject] in
  let w' := {| cert_file := None; xcred := []; keyboard := []; disk := [];
               trace := new |} in
  tls_check_certificate g w = Some (0, w')
  /\ (0 = 0 \/ 0 = 1) /\ (0 = 0 -> ends_in_refusal 0 new).
Proof.
  intros g w new w'. split; [reflexivity|].
  apply (check_fails_only_by_rejection_or_error g w 0 w' new); reflexivity.
Defined.

(** X10.  The leaf is never handed to the library as a signer: every trust
    step of [tls_check_certificate] is for a position above the leaf and
    within the chain.  And without a trust step the trust set is left as it
    was, which is so in particular for a chain of one certificate. *)
Theorem leaf_is_never_added_to_trust_set (g : Gnutls) (w : World)
    (rc : Z) (w' : World) (new : list event) :
  tls_check_certificate g w = Some (rc, w') ->
  trace w' = (trace w ++ new)%list ->
  (forall i r, In (EvTrust i r) new ->
     0 < i < Z.of_nat (List.length (certificate_get_peers g)))
  /\ ((forall i r, ~ In (EvTrust i r) new) -> xcred w' = xcred w)
  /\ ((List.length (certificate_get_peers g) <= 1)%nat -> xcred w' = xcred w).
Proof.
  intros H Ht.
  apply tls_check_certificate_verdict in H as (new' & Ht' & _ & _ & P & X).
  rewrite Ht' in Ht. apply app_inv_head in Ht. subst new'.
  split; [exact P|]. split; [exact X|].
  intros Hlen. apply X. intros i r Hin. apply P in Hin. lia.
Qed.

Lemma leaf_is_never_added_to_trust_set_witness :
  let g := Sample.session "mail.example.org" [Sample.leaf; Sample.root]
             Sample.never true Sample.needs_root in
  let w := Sample.world None [KeyChar "o"] [] in
  let new := [EvVerify (Sample.needs_root []);
              EvDialog 1 2 Certerr.NOTTRUSTED 0 "roa"; EvChoice 1 AcceptOnce;
              EvTrust 1 1; EvVerify 0] in
  let w' := {| cert_file := None; xcred := [Sample.root]; keyboard := [];
               disk := []; trace := new |} in
  tls_check_certificate g w = Some (1, w')
  /\ (forall i r, In (EvTrust i r) new -> 0 < i < 2)
  /\ ((forall i r, ~ In (EvTrust i r) new) -> xcred w' = xcred w)
  /\ ((2 <= 1)%nat -> xcred w' = xcred w).
Proof.
  intros g w new w'. split; [reflexivity|].
  apply (leaf_is_never_added_to_trust_set g w 1 w' new); reflexivity.
Defined.

(** ** When the verification itself fails *)

Lemma verify_peers_error (g : Gnutls) (w : World) :
  fst (certificate_verify_peers2 g (xcred w)) < 0 ->
  exists msg,
    tls_verify_peers g w = (0, emit (EvVerify 0) (emit (EvError msg) w)).
Proof.
  unfold tls_verify_peers.
  destruct (certificate_verify_peers2 g (xcred w)) as [verify_ret status].
  cbn [fst]. intros Hneg.
  destruct (Z.eqb_spec verify_ret 0); [lia|].
  destruct (status =? GnutlsCert.E_NO_CERTIFICATE_FOUND_as_unsigned);
    [eexists; reflexivity|].
  destruct (Z.ltb_spec verify_ret 0); [eexists; reflexivity | lia].
Qed.

Lemma check_one_passes (g : Gnutls) (certdata : datum) (certstat : Z)
    (hostname : string) (idx len : Z) (w : World) :
  fst (fst (tls_check_preauth g (read_cert_file g w) certdata certstat hostname idx))
  = 0 ->
  tls_check_one_certificate g certdata certstat hostname idx len w = Some (1, w).
Proof.
  unfold tls_check_one_certificate.
  destruct (tls_check_preauth _ _ _ _ _ _) as [[prc certerr] savedcert].
  cbn [fst]. now intros ->.
Qed.

(** X11.  When [gnutls_certificate_verify_peers2] itself fails with a
    negative return value, [tls_verify_peers] reports an error and hands
    back 0, which the check reads as a status without defect: a chain whose
    certificates can all be read and have their dates in order, and whose
    leaf names the host, is accepted with no dialog, and the certificate
    file and the keys still to come are left as they were. *)
Theorem verification_error_reads_as_no_defect (g : Gnutls) (w : World)
    (leaf : datum) (above : list datum) :
  auth_is_certificate g = true ->
  (forall anchors, fst (certificate_verify_peers2 g anchors) < 0) ->
  certificate_get_peers g = leaf :: above ->
  Forall (fun c => x509_crt_import g c = true /\ dates_in_order g c)
         (leaf :: above) ->
  (C_SslVerifyHost g = false \/
   x509_crt_check_hostname g leaf (account_host g) = true) ->
  exists w' new,
    tls_check_certificate g w = Some (1, w')
    /\ trace w' = (trace w ++ new)%list
    /\ (exists msg, In (EvError msg) new)
    /\ Forall (fun ev => asks_user ev = false) new
    /\ cert_file w' = cert_file w
    /\ keyboard w' = keyboard w.
Proof.
  intros Ha Hneg Hp Hall Hhost.
  assert (Hpass : forall file c i,
             In c (leaf :: above) -> (i = 0 -> c = leaf) ->
             fst (fst (tls_check_preauth g file c 0 (account_host g) i)) = 0).
  { intros file c i Hin Hi. apply preauth_zero_iff.
    rewrite Forall_forall in Hall. destruct (Hall c Hin) as [Himp Hd].
    split; [exact Himp|]. split; [exact Hd|].
    split; [|split; [reflexivity | now right]].
    destruct (Z.eq_dec i 0) as [E|E]; [|now left].
    rewrite (Hi E). right. destruct Hhost; auto. }
  unfold tls_check_certificate. rewrite Ha, Hp. cbn [negb].
  destruct (verify_peers_error g w (Hneg _)) as [msg ->].
  set (w0 := emit (EvVerify 0) (emit (EvError msg) w)).
  destruct (preauth_walk _ _ _ _ _ _ _ _) as [|rc rcpeer] eqn:W.
  - exists w0, [EvError msg; EvVerify 0].
    split; [reflexivity|]. split; [cbn; now rewrite <- app_assoc|].
    split; [exists msg; now left|]. split; [repeat constructor|].
    split; reflexivity.
  - apply preauth_walk_rcpeer in W.
    rewrite Hpass in W by (auto; now left). subst rcpeer.
    destruct (rev (leaf :: above)) as [|c below] eqn:R.
    { apply (f_equal (@List.length _)) in R. rewrite length_rev in R.
      discriminate. }
    assert (Hin : In c (leaf :: above)) by (apply in_rev; rewrite R; now left).
    assert (Hleaf : Z.of_nat (List.length below) = 0 -> c = leaf).
    { intros E. destruct below; [|discriminate].
      apply (f_equal (@rev _)) in R. rewrite rev_involutive in R.
      cbn in R. now inversion R. }
    cbn [interactive_walk].
    rewrite check_one_passes by (apply Hpass; assumption).
    destruct below as [|c2 below'].
    + exists w0, [EvError msg; EvVerify 0].
      split; [reflexivity|]. split; [cbn; now rewrite <- app_assoc|].
      split; [exists msg; now left|]. split; [repeat constructor|].
      split; reflexivity.
    + destruct (Z.eqb_spec (Z.of_nat (List.length (c2 :: below'))) 0) as [E|_];
        [cbn in E; lia|].
      cbn [negb andb Z.eqb].
      destruct (certificate_set_x509_trust_mem g (xcred w0) c) as [anchors r].
      destruct (verify_peers_error g
                  (emit (EvTrust (Z.of_nat (List.length (c2 :: below'))) r)
                     (set_xcred anchors w0)) (Hneg _)) as [msg2 ->].
      cbn [Z.eqb andb].
      eexists.
      exists [EvError msg; EvVerify 0;
              EvTrust (Z.of_nat (List.length (c2 :: below'))) r;
              EvError msg2; EvVerify 0].
      split; [reflexivity|]. split; [cbn; now rewrite <- !app_assoc|].
      split; [exists msg; now left|]. split; [repeat constructor|].
      split; reflexivity.
Qed.

Lemma verification_error_reads_as_no_defect_witness :
  let g := with_verification_error
             (Sample.session "mail.example.org" [Sample.leaf; Sample.root]
                Sample.never true Sample.needs_root) (-8) in
  let w := Sample.world None [] [] in
  exists w' new,
    tls_check_certificate g w = Some (1, w')
    /\ trace w' = (trace w ++ new)%list
    /\ (exists msg, In (EvError msg) new)
    /\ Forall (fun ev => asks_user ev = false) new
    /\ cert_file w' = cert_file w
    /\ keyboard w' = keyboard w.
Proof.
  intros g w.
  apply (verification_error_reads_as_no_defect g w Sample.leaf [Sample.root]).
  - reflexivity.
  - intros anchors. cbn. lia.
  - reflexivity.
  - apply Forall_cons; [split; [reflexivity | right; cbn; lia]|].
    apply Forall_cons; [split; [reflexivity | right; cbn; lia]|].
    apply Forall_nil.
  - right. reflexivity.
Defined.

(** ** A saved leaf *)

Lemma preauth_saved_valid (g : Gnutls) (file : option string)
    (certdata : datum) (certstat : Z) (hostname : string) (chainidx : Z) :
  x509_crt_import g certdata = true ->
  fst (preauth_own_checks g file certdata certstat hostname chainidx)
  = Certerr.VALID ->
  tls_compare_certificates g file certdata <> 0 ->
  tls_check_preauth g file certdata certstat hostname chainidx
  = (0, Certerr.VALID, 1).
Proof.
  intros Hi Hv Hs. unfold tls_check_preauth. rewrite Hi, Hv.
  apply Z.eqb_neq in Hs. rewrite Hs. reflexivity.
Qed.

(** X12.  A leaf that is in the certificate file, can be read, has its
    dates and its host name in order and is not reported revoked is
    accepted at once: [tls_check_certificate] returns 1 from the first turn
    of its first loop, whatever else the library reports about the chain,
    and without a look at the certificates above the leaf. *)
Theorem saved_leaf_is_accepted_at_once (g : Gnutls) (w : World)
    (leaf : datum) (above : list datum) :
  auth_is_certificate g = true ->
  certificate_get_peers g = leaf :: above ->
  x509_crt_import g leaf = true ->
  dates_in_order g leaf ->
  (C_SslVerifyHost g = false \/
   x509_crt_check_hostname g leaf (account_host g) = true \/
   tls_check_stored_hostname g (read_cert_file g w) leaf (account_host g) <> 0) ->
  tls_compare_certificates g (read_cert_file g w) leaf <> 0 ->
  has_bit (fst (tls_verify_peers g w)) GnutlsCert.REVOKED = false ->
  tls_check_certificate g w = Some (1, snd (tls_verify_peers g w)).
Proof.
  intros Ha Hp Hi Hd Hh Hs Hr.
  unfold tls_check_certificate. rewrite Ha, Hp. cbn [negb].
  pose proof (tls_verify_peers_events g w) as (V1 & _).
  destruct (tls_verify_peers g w) as [certstat w0]. cbn [fst snd] in *.
  assert (Hfile : read_cert_file g w0 = read_cert_file g w)
    by (unfold read_cert_file; now rewrite V1).
  cbn [preauth_walk]. rewrite Hfile.
  rewrite preauth_saved_valid; [reflexivity | exact Hi | | exact Hs].
  apply preauth_own_checks_valid_iff.
  split; [exact Hd|]. split; [tauto | exact Hr].
Qed.

Lemma saved_leaf_is_accepted_at_once_witness :
  let g := Sample.session "mail.example.org" [Sample.leaf; Sample.root]
             Sample.never true Sample.needs_root in
  let file := Some (Sample.pem_encode Sample.leaf) in
  let w := Sample.world file [] [] in
  tls_check_certificate g w
  = Some (1, {| cert_file := file; xcred := []; keyboard := []; disk := [];
                trace := [EvVerify (Sample.needs_root [])] |}).
Proof.
  intros g file w.
  apply (saved_leaf_is_accepted_at_once g w Sample.leaf [Sample.root]).
  - reflexivity.
  - reflexivity.
  - reflexivity.
  - right. cbn. lia.
  - right. left. reflexivity.
  - discriminate.
  - reflexivity.
Defined.

(** * The connection *)

(** ** tls_set_priority *)

Lemma creds_held_app (a b : list conn_event) :
  creds_held (a ++ b) = creds_held a + creds_held b.
Proof.
  induction a as [|ev a IH]; [reflexivity|].
  destruct ev; cbn [app creds_held]; lia.
Qed.

Lemma priority_of_count (t : Tls) :
  (fst (priority_of t) =? 0) = negb (some_protocol t).
Proof.
  unfold priority_of, some_protocol, disable_protocol.
  destruct (C_SslUseTlsv13 t), (C_SslUseTlsv12 t), (C_SslUseTlsv11 t),
    (C_SslUseTlsv1 t), (C_SslUseSslv3 t); reflexivity.
Qed.

Lemma tls_set_priority_cases (t : Tls) (c : Conn) :
  let priority := snd (priority_of t) in
  (some_protocol t = false
   /\ tls_set_priority t c
      = (-1, log_event
               (CeError "All available protocols for TLS/SSL connection disabled")
               c))
  \/ (some_protocol t = true /\ priority_set_direct t priority < 0
      /\ tls_set_priority t c
         = (-1, log_event (CeError "gnutls_priority_set_direct")
                  (log_event (CePriority priority) c)))
  \/ (some_protocol t = true /\ 0 <= priority_set_direct t priority
      /\ tls_set_priority t c = (0, log_event (CePriority priority) c)).
Proof.
  cbv zeta. unfold tls_set_priority.
  pose proof (priority_of_count t) as Hn.
  destruct (priority_of t) as [nproto priority]. cbn [fst snd] in *.
  rewrite Hn. destruct (some_protocol t); cbn [negb]; [|now left].
  right. destruct (Z.ltb_spec (priority_set_direct t priority) 0);
    [left | right]; auto.
Qed.

Lemma prefix_refl (a : string) : String.prefix a a = true.
Proof.
  induction a as [|c a IH]; [reflexivity|]. cbn.
  destruct (Ascii.ascii_dec c c); [exact IH | contradiction].
Qed.

(** X13.  [tls_set_priority] returns 0 exactly when one of the five
    protocols is switched on and the library takes the priority string; when
    all five are switched off it returns -1 with its error message and
    without a call to the library.  The string handed to the library starts
    with [$ssl_ciphers], or with NORMAL where that is unset. *)
Theorem set_priority_needs_a_protocol (t : Tls) (c : Conn) :
  let priority := snd (priority_of t) in
  (fst (tls_set_priority t c) = 0
   <-> some_protocol t = true /\ 0 <= priority_set_direct t priority)
  /\ (some_protocol t = false ->
      tls_set_priority t c
      = (-1, log_event
               (CeError "All available protocols for TLS/SSL connection disabled")
               c))
  /\ String.prefix (match C_SslCiphers t with
                    | Some ciphers => ciphers
                    | None => "NORMAL"
                    end) priority = true.
Proof.
  cbv zeta. split; [|split].
  - destruct (tls_set_priority_cases t c)
      as [(Hs & ->) | [(Hs & He & ->) | (Hs & He & ->)]]; cbn [fst snd].
    + split; [discriminate | intros [H _]; congruence].
    + split; [discriminate | intros [_ H]; lia].
    + split; auto.
  - intros Hs.
    destruct (tls_set_priority_cases t c)
      as [(_ & ->) | [(Hs' & _) | (Hs' & _)]]; [reflexivity | congruence ..].
  - unfold priority_of, disable_protocol.
    destruct (C_SslUseTlsv13 t), (C_SslUseTlsv12 t), (C_SslUseTlsv11 t),
      (C_SslUseTlsv1 t), (C_SslUseSslv3 t); cbn [fst snd];
      repeat apply prefix_append; apply prefix_refl.
Qed.

(** ** tls_negotiate *)

Lemma tls_get_client_cert_logs (g : Gnutls) (t : Tls) (c c2 : Conn) :
  tls_get_client_cert g t c = Some c2 ->
  exists evs, only_logs c c2 evs /\ creds_held evs = 0.
Proof.
  unfold tls_get_client_cert, only_logs.
  destruct (certificate_get_ours t) as [crtdata|];
    [destruct (x509_crt_import g crtdata); cbn [negb];
     [destruct (mutt_mem_calloc_null 1 _);
      [discriminate|destruct (strstr _ _)]|]|];
    intros [= <-];
    first [ exists [CeGetUser]; cbn; now repeat split
          | exists []; cbn; rewrite app_nil_r; now repeat split ].
Qed.

(** our certificate can be read but the library gives no length for its
    DN: [tls_get_client_cert] does not come back *)
Lemma client_cert_without_dn (g : Gnutls) (t : Tls) (c : Conn) (crtdata : datum) :
  certificate_get_ours t = Some crtdata ->
  x509_crt_import g crtdata = true ->
  x509_crt_get_dn_size t crtdata = 0 ->
  tls_get_client_cert g t c = None.
Proof.
  intros Ho Hi Hn. unfold tls_get_client_cert. now rewrite Ho, Hi, Hn.
Qed.

Lemma handshake_loop_answer (answers : list Z) (err : Z) (rest : list Z) :
  handshake_loop answers = Some (err, rest) ->
  err <> GnutlsE.AGAIN
  /\ exists again, answers = (again ++ err :: rest)%list
                   /\ Forall (fun a => a = GnutlsE.AGAIN) again.
Proof.
  induction answers as [|a answers IH]; [discriminate|]. cbn [handshake_loop].
  destruct (Z.eqb_spec a GnutlsE.AGAIN) as [-> | Hne].
  - intros H. apply IH in H as (Hne & again & -> & Hall). split; [exact Hne|].
    exists (GnutlsE.AGAIN :: again). split; [reflexivity | now constructor].
  - intros [= <- <-]. split; [exact Hne|]. exists []. split; [reflexivity|constructor].
Qed.

(** how [tls_negotiate] ends *)
Lemma tls_negotiate_cases (g : Gnutls) (t : Tls) (c : Conn) (rc : Z) (c' : Conn) :
  tls_negotiate g t c = Some (rc, c') ->
  methods c' = methods c /\ init_complete c' = init_complete c /\
  exists new,
    log c' = (log c ++ new)%list
    /\ ((rc = 0 /\ sockdata c' = true /\ creds_held new = 1
         /\ 0 <= certificate_allocate_credentials t
         /\ gnutls_init t = 0
         /\ some_protocol t = true
         /\ 0 <= priority_set_direct t (snd (priority_of t))
         /\ (exists err rest,
               handshake_loop (handshakes (peer c)) = Some (err, rest)
               /\ 0 <= err /\ handshakes (peer c') = rest)
         /\ tls_check_certificate g (set_xcred [] (world c))
            = Some (1, world c')
         /\ ssf c' = cipher_get_key_size t * 8)
        \/ (rc = -1 /\ sockdata c' = false /\ creds_held new = 0
            /\ ssf c' = ssf c)).
Proof.
  unfold tls_negotiate. intros H.
  destruct (Z.ltb_spec (certificate_allocate_credentials t) 0) as [Ha | Ha].
  { negotiate_failed H. }
  destruct (Z.eqb_spec (gnutls_init t) 0) as [Hi | Hi]; cbn [negb] in H.
  2:{ negotiate_failed H. }
  match type of H with
  | context [tls_set_priority t ?c0] =>
      set (c1 := c0) in H;
      assert (F1 : sockdata c1 = true /\ ssf c1 = ssf c /\ methods c1 = methods c
                   /\ init_complete c1 = init_complete c
                   /\ world c1 = set_xcred [] (world c) /\ peer c1 = peer c
                   /\ exists evs, log c1 = (log c ++ CeAllocCred :: evs)%list
                                  /\ creds_held evs = 0)
  end.
  { unfold c1. destruct (negb (server_name_set t =? 0)); cbn;
      repeat (split; [reflexivity|]);
      eexists; (split; [rewrite <- ?app_assoc; reflexivity | reflexivity]). }
  clearbody c1.
  destruct F1 as (S1 & S2 & S3 & S4 & S5 & S6 & evs1 & L1 & K1).
  destruct (tls_set_priority_cases t c1)
    as [(Hs & E) | [(Hs & He & E) | (Hs & He & E)]]; rewrite E in H;
    clear E; cbn [Z.ltb Z.compare] in H.
  { unfold negotiate_fail in H. inversion H; subst; clear H. cbn.
    split; [exact S3|]. split; [exact S4|]. rewrite L1.
    eexists. split; [rewrite <- !app_assoc; reflexivity|].
    right. repeat split; auto. cbn [app creds_held].
    rewrite creds_held_app, K1. reflexivity. }
  { unfold negotiate_fail in H. inversion H; subst; clear H. cbn.
    split; [exact S3|]. split; [exact S4|]. rewrite L1.
    eexists. split; [rewrite <- !app_assoc; reflexivity|].
    right. repeat split; auto. cbn [app creds_held].
    rewrite creds_held_app, K1. reflexivity. }
  cbn [peer log_event] in H.
  destruct (handshake_loop (handshakes (peer c1))) as [[err rest]|] eqn:Hh;
    [|discriminate].
  destruct (Z.ltb_spec err 0) as [Herr | Herr].
  { unfold negotiate_fail in H. inversion H; subst; clear H. cbn.
    split; [exact S3|]. split; [exact S4|]. rewrite L1.
    eexists. split; [rewrite <- !app_assoc; reflexivity|].
    right. repeat split; auto. cbn [app creds_held].
    rewrite creds_held_app, K1. reflexivity. }
  cbn [world log_event set_peer] in H. rewrite S5 in H.
  destruct (tls_check_certificate g (set_xcred [] (world c)))
    as [[rcc w]|] eqn:Hc; [|discriminate].
  pose proof (tls_check_certificate_verdict g _ _ _ Hc) as (_ & _ & [-> | ->] & _).
  { unfold negotiate_fail in H. cbn [Z.eqb] in H. inversion H; subst; clear H.
    cbn. split; [exact S3|]. split; [exact S4|]. rewrite L1.
    eexists. split; [rewrite <- !app_assoc; reflexivity|].
    right. repeat split; auto. cbn [app creds_held].
    rewrite creds_held_app, K1. reflexivity. }
  cbn [Z.eqb] in H.
  match type of H with
  | context [tls_get_client_cert g t ?c0] =>
      destruct (tls_get_client_cert g t c0) as [c2|] eqn:Hg; [|discriminate];
      destruct (tls_get_client_cert_logs g t c0 c2 Hg)
        as (evs2 & (G1 & G2 & G3 & G4 & G5 & G6 & G7) & K2)
  end.
  cbn in G1, G2, G3, G4, G5, G6, G7. clear Hg.
  assert (F3 : forall c3,
             Some (0, c3) = Some (rc, c') ->
             (exists evs3, only_logs c2 c3 evs3 /\ creds_held evs3 = 0) ->
             methods c' = methods c /\ init_complete c' = init_complete c /\
             exists new,
               log c' = (log c ++ new)%list
               /\ ((rc = 0 /\ sockdata c' = true /\ creds_held new = 1
                    /\ 0 <= certificate_allocate_credentials t
                    /\ gnutls_init t = 0
                    /\ some_protocol t = true
                    /\ 0 <= priority_set_direct t (snd (priority_of t))
                    /\ (exists err rest,
                          handshake_loop (handshakes (peer c)) = Some (err, rest)
                          /\ 0 <= err /\ handshakes (peer c') = rest)
                    /\ Some (1, w) = Some (1, world c')
                    /\ ssf c' = cipher_get_key_size t * 8)
                   \/ (rc = -1 /\ sockdata c' = false /\ creds_held new = 0
                       /\ ssf c' = ssf c))).
  { intros c3 E (evs3 & (Q1 & Q2 & Q3 & Q4 & Q5 & Q6 & Q7) & K3).
    inversion E; subst; clear E.
    split; [congruence|]. split; [congruence|].
    exists (CeAllocCred :: evs1 ++ CePriority (snd (priority_of t))
              :: CeHandshake err :: evs2 ++ evs3)%list.
    split.
    { rewrite Q7, G7, L1. rewrite <- !app_assoc. cbn [app].
      rewrite <- ?app_assoc. reflexivity. }
    left. split; [reflexivity|]. split; [congruence|].
    split.
    { cbn [creds_held]. rewrite creds_held_app. cbn [creds_held].
      rewrite creds_held_app. lia. }
    split; [exact Ha|]. split; [exact Hi|]. split; [exact Hs|].
    split; [exact He|].
    split.
    { exists err, rest. rewrite <- S6. split; [exact Hh|]. split; [exact Herr|].
      rewrite Q6, G6. reflexivity. }
    split; congruence. }
  destruct (negb (OptNoCurses t)).
  - apply (F3 _ H). exists [CeMessage "SSL/TLS connection using"].
    split; [|reflexivity]. unfold only_logs. cbn. now repeat split.
  - apply (F3 _ H). exists []. split; [|reflexivity].
    unfold only_logs. rewrite app_nil_r. now repeat split.
Qed.

(** X14.  [tls_negotiate] returns 0 or -1.  It returns 0 only when the
    credentials and the session could be set up, a protocol is switched on
    and the library took the priority string, the handshake ended without
    an error, and [tls_check_certificate], run with a fresh trust set,
    returned 1; the connection then holds its TLS data and [conn->ssf] is
    eight times the key size.  When it returns -1 the TLS data is gone again
    and [conn->ssf] is untouched. *)
Theorem negotiate_succeeds_only_after_the_check (g : Gnutls) (t : Tls)
    (c : Conn) (rc : Z) (c' : Conn) :
  tls_negotiate g t c = Some (rc, c') ->
  (rc = 0 /\ sockdata c' = true
   /\ 0 <= certificate_allocate_credentials t
   /\ gnutls_init t = 0
   /\ some_protocol t = true
   /\ 0 <= priority_set_direct t (snd (priority_of t))
   /\ (exists err rest,
         handshake_loop (handshakes (peer c)) = Some (err, rest)
         /\ 0 <= err /\ handshakes (peer c') = rest)
   /\ tls_check_certificate g (set_xcred [] (world c)) = Some (1, world c')
   /\ ssf c' = cipher_get_key_size t * 8)
  \/ (rc = -1 /\ sockdata c' = false /\ ssf c' = ssf c).
Proof.
  intros H. apply tls_negotiate_cases in H as (_ & _ & new & _ & [H | H]).
  - left. tauto.
  - right. tauto.
Qed.

(** ** tls_socket_open, tls_socket_close *)

Lemma tls_socket_close_releases (t : Tls) (c : Conn) :
  let c2 := snd (tls_socket_close t c) in
  fst (tls_socket_close t c) = raw_socket_close t
  /\ sockdata c2 = false
  /\ methods c2 = methods c
  /\ exists evs,
       log c2 = (log c ++ evs)%list
       /\ creds_held evs = (if sockdata c then -1 else 0)
       /\ In CeRawClose evs.
Proof.
  unfold tls_socket_close. destruct (sockdata c) eqn:S; cbn.
  - repeat split. eexists. split; [rewrite <- !app_assoc; reflexivity|].
    split; [reflexivity|]. cbn. tauto.
  - repeat split; [exact S|]. eexists. split; [reflexivity|].
    split; [reflexivity|]. now left.
Qed.

(** how [tls_socket_open] ends *)
Lemma tls_socket_open_cases (g : Gnutls) (t : Tls) (c : Conn) (rc : Z)
    (c1 : Conn) :
  tls_socket_open g t c = Some (rc, c1) ->
  exists new,
    log c1 = (log c ++ new)%list
    /\ (rc = 0 \/ rc = -1)
    /\ (rc = 0 -> sockdata c1 = true)
    /\ (rc = -1 -> raw_socket_open t < 0 \/ sockdata c1 = false)
    /\ (0 <= raw_socket_open t ->
        creds_held new = (if sockdata c1 then 1 else 0)
        /\ (rc = -1 -> In CeRawClose new)).
Proof.
  unfold tls_socket_open.
  destruct (Z.ltb_spec (raw_socket_open t) 0) as [Ho | Ho].
  { intros [= <- <-]. exists [CeRawOpen]. split; [reflexivity|].
    split; [now right|]. split; [discriminate|]. split; [now left | lia]. }
  destruct (tls_negotiate g t (log_event CeRawOpen c)) as [[rcn cn]|] eqn:N;
    [|discriminate].
  apply tls_negotiate_cases in N as (_ & _ & new & Hl & [N | N]).
  - destruct N as (-> & Hs & Hk & _). cbn [Z.ltb Z.compare].
    intros [= <- <-]. exists (CeRawOpen :: new).
    split; [rewrite Hl; cbn; now rewrite <- app_assoc|].
    split; [now left|]. split; [auto|]. split; [discriminate|].
    intros _. rewrite Hs. cbn [creds_held]. split; [exact Hk | discriminate].
  - destruct N as (-> & Hs & Hk & _). cbn [Z.ltb Z.compare].
    destruct (tls_socket_close_releases t cn) as (_ & Hs2 & _ & evs & Hl2 & Hk2 & Hr).
    cbv zeta in *. set (cz := snd (tls_socket_close t cn)) in *. clearbody cz.
    intros [= <- <-]. exists (CeRawOpen :: new ++ evs)%list.
    split; [rewrite Hl2, Hl; cbn; now rewrite <- !app_assoc|].
    split; [now right|]. split; [discriminate|]. split; [now right|].
    intros _. rewrite Hs2. rewrite Hs in Hk2. cbn [creds_held].
    rewrite creds_held_app, Hk, Hk2.
    split; [reflexivity|]. intros _. right. apply in_or_app. now right.
Qed.

(** X15.  [tls_socket_open] returns 0 with the TLS data in place, or -1
    with none; once the socket itself was opened, the credentials allocated
    and not freed on the way are one in the first case and none in the
    second, where the socket has been closed again.  Whichever way it
    ended, [tls_socket_close] after it leaves the connection without TLS
    data and with every credential freed that was allocated. *)
Theorem open_and_close_free_what_was_allocated (g : Gnutls) (t : Tls)
    (c : Conn) (rc : Z) (c1 : Conn) :
  0 <= raw_socket_open t ->
  tls_socket_open g t c = Some (rc, c1) ->
  exists new,
    log c1 = (log c ++ new)%list
    /\ ((rc = 0 /\ sockdata c1 = true /\ creds_held new = 1)
        \/ (rc = -1 /\ sockdata c1 = false /\ creds_held new = 0
            /\ In CeRawClose new))
    /\ exists evs,
         log (snd (tls_socket_close t c1)) = (log c ++ new ++ evs)%list
         /\ sockdata (snd (tls_socket_close t c1)) = false
         /\ creds_held (new ++ evs) = 0.
Proof.
  intros Ho H.
  apply tls_socket_open_cases in H as (new & Hl & Hrc & H0 & H1 & Hk).
  destruct (Hk Ho) as [Hk1 Hk2].
  destruct (tls_socket_close_releases t c1) as (_ & Hs2 & _ & evs & Hl2 & Hk3 & _).
  cbv zeta in *. exists new. split; [exact Hl|]. split.
  - destruct Hrc as [-> | ->].
    + left. rewrite (H0 eq_refl) in Hk1. auto.
    + right. destruct (H1 eq_refl) as [|Hs]; [lia|]. rewrite Hs in Hk1. auto.
  - exists evs. split; [rewrite Hl2, Hl; now rewrite <- app_assoc|].
    split; [exact Hs2|]. rewrite creds_held_app, Hk1, Hk3.
    now destruct (sockdata c1).
Qed.

(** X16.  With all five protocols switched off, [tls_negotiate] fails
    before any handshake and before any look at a certificate: it returns
    -1 whatever the other end and the user would do, the answers of the
    other end are left unused, nothing is added to the record of the
    certificate check, and the connection holds no TLS data. *)
Theorem no_protocol_no_handshake (g : Gnutls) (t : Tls) (c : Conn) :
  some_protocol t = false ->
  exists c',
    tls_negotiate g t c = Some (-1, c')
    /\ sockdata c' = false
    /\ peer c' = peer c
    /\ trace (world c') = trace (world c)
    /\ cert_file (world c') = cert_file (world c)
    /\ (0 <= certificate_allocate_credentials t -> gnutls_init t = 0 ->
        In (CeError "All available protocols for TLS/SSL connection disabled")
           (log c')).
Proof.
  intros Hs. unfold tls_negotiate.
  destruct (Z.ltb_spec (certificate_allocate_credentials t) 0) as [Ha | Ha].
  { eexists. split; [reflexivity|]. cbn. repeat split. lia. }
  destruct (Z.eqb_spec (gnutls_init t) 0) as [Hi | Hi]; cbn [negb].
  2:{ eexists. split; [reflexivity|]. cbn. repeat split. contradiction. }
  match goal with
  | |- context [tls_set_priority t ?c0] =>
      destruct (tls_set_priority_cases t c0)
        as [(_ & ->) | [(Hs' & _) | (Hs' & _)]]; [|congruence ..]
  end.
  cbn [Z.ltb Z.compare]. eexists. split; [reflexivity|].
  destruct (negb (server_name_set t =? 0)); cbn; repeat split;
    intros _ _; rewrite !in_app_iff; cbn; tauto.
Qed.

Lemma no_protocol_no_handshake_witness :
  let g := Sample.session "mail.example.org" [Sample.leaf]
             Sample.never true Sample.clean in
  let t := SampleConn.tls false in
  exists c',
    tls_negotiate g t SampleConn.conn = Some (-1, c')
    /\ sockdata c' = false
    /\ peer c' = peer SampleConn.conn
    /\ trace (world c') = trace (world SampleConn.conn)
    /\ cert_file (world c') = cert_file (world SampleConn.conn)
    /\ (0 <= certificate_allocate_credentials t -> gnutls_init t = 0 ->
        In (CeError "All available protocols for TLS/SSL connection disabled")
           (log c')).
Proof.
  intros g t. apply (no_protocol_no_handshake g t SampleConn.conn). reflexivity.
Defined.

Lemma negotiate_succeeds_only_after_the_check_witness :
  let g := Sample.session "mail.example.org" [Sample.leaf]
             Sample.never true Sample.clean in
  let t := SampleConn.tls true in
  let c := SampleConn.conn in
  let c' := match tls_negotiate g t c with
            | Some (_, c') => c'
            | None => c
            end in
  (0 = 0 /\ sockdata c' = true
   /\ 0 <= certificate_allocate_credentials t
   /\ gnutls_init t = 0
   /\ some_protocol t = true
   /\ 0 <= priority_set_direct t (snd (priority_of t))
   /\ (exists err rest,
         handshake_loop (handshakes (peer c)) = Some (err, rest)
         /\ 0 <= err /\ handshakes (peer c') = rest)
   /\ tls_check_certificate g (set_xcred [] (world c)) = Some (1, world c')
   /\ ssf c' = cipher_get_key_size t * 8)
  \/ (0 = -1 /\ sockdata c' = false /\ ssf c' = ssf c).
Proof.
  intros g t c c'.
  apply (negotiate_succeeds_only_after_the_check g t c 0 c'). reflexivity.
Defined.

Lemma open_and_close_free_what_was_allocated_witness :
  let g := Sample.session "mail.example.org" [Sample.leaf]
             Sample.never true Sample.clean in
  let t := SampleConn.tls true in
  let c := SampleConn.conn in
  let c1 := match tls_socket_open g t c with
            | Some (_, c1) => c1
            | None => c
            end in
  exists new,
    log c1 = (log c ++ new)%list
    /\ ((0 = 0 /\ sockdata c1 = true /\ creds_held new = 1)
        \/ (0 = -1 /\ sockdata c1 = false /\ creds_held new = 0
            /\ In CeRawClose new))
    /\ exists evs,
         log (snd (tls_socket_close t c1)) = (log c ++ new ++ evs)%list
         /\ sockdata (snd (tls_socket_close t c1)) = false
         /\ creds_held (new ++ evs) = 0.
Proof.
  intros g t c c1.
  apply (open_and_close_free_what_was_allocated g t c 0 c1);
    [cbn; lia | reflexivity].
Defined.

(** ** mutt_ssl_starttls, tls_starttls_close *)

(** X17.  [mutt_ssl_starttls] returns 0 or -1.  When it returns 0 the
    connection holds its TLS data and reads, writes and polls through TLS,
    and [tls_starttls_close] on it frees the TLS data and wires the
    connection back to the plain socket.  When it returns -1 the connection
    is wired as it was before, and holds no TLS data unless it did
    before. *)
Theorem failed_starttls_leaves_the_wiring (g : Gnutls) (t : Tls) (c : Conn)
    (rc : Z) (c' : Conn) :
  mutt_ssl_starttls g t c = Some (rc, c') ->
  (rc = 0 /\ sockdata c' = true /\ init_complete c' = true
   /\ methods c' = {| conn_open := conn_open (methods c);
                      conn_read := fn_tls_socket_read;
                      conn_write := fn_tls_socket_write;
                      conn_close := fn_tls_starttls_close;
                      conn_poll := fn_tls_socket_poll |}
   /\ sockdata (snd (tls_starttls_close t c')) = false
   /\ methods (snd (tls_starttls_close t c'))
      = {| conn_open := conn_open (methods c);
           conn_read := fn_raw_socket_read;
           conn_write := fn_raw_socket_write;
           conn_close := fn_raw_socket_close;
           conn_poll := fn_raw_socket_poll |})
  \/ (rc = -1 /\ methods c' = methods c
      /\ (sockdata c = false -> sockdata c' = false)).
Proof.
  unfold mutt_ssl_starttls.
  assert (Hinit : let r := tls_init t c in
                  methods (snd r) = methods c /\ sockdata (snd r) = sockdata c
                  /\ ((fst r = 0 /\ init_complete (snd r) = true)
                      \/ fst r = -1)).
  { unfold tls_init. destruct (init_complete c) eqn:I; cbn; [auto|].
    destruct (gnutls_global_init t <? 0); cbn; auto. }
  cbv zeta in Hinit. destruct (tls_init t c) as [rci ci]. cbn [fst snd] in Hinit.
  destruct Hinit as (Hm & Hs & [[-> Hc] | ->]); cbn [Z.ltb Z.compare].
  2:{ intros [= <- <-]. right. rewrite Hs. auto. }
  destruct (tls_negotiate g t ci) as [[rcn cn]|] eqn:N; [|discriminate].
  apply tls_negotiate_cases in N as (Nm & Ni & new & _ & [N | N]).
  - destruct N as (-> & Ns & _). cbn [Z.ltb Z.compare]. intros [= <- <-].
    left. cbn. rewrite Nm, Hm, Ni, Hc, Ns. cbn. repeat split.
  - destruct N as (-> & Ns & _). cbn [Z.ltb Z.compare]. intros [= <- <-].
    right. split; [reflexivity|]. split; [congruence | auto].
Qed.

Lemma failed_starttls_leaves_the_wiring_witness :
  let g := Sample.session "mail.example.org" [Sample.leaf]
             Sample.never true Sample.clean in
  let t := SampleConn.tls true in
  let c := SampleConn.conn in
  let c' := match mutt_ssl_starttls g t c with
            | Some (_, c') => c'
            | None => c
            end in
  (0 = 0 /\ sockdata c' = true /\ init_complete c' = true
   /\ methods c' = {| conn_open := conn_open (methods c);
                      conn_read := fn_tls_socket_read;
                      conn_write := fn_tls_socket_write;
                      conn_close := fn_tls_starttls_close;
                      conn_poll := fn_tls_socket_poll |}
   /\ sockdata (snd (tls_starttls_close t c')) = false
   /\ methods (snd (tls_starttls_close t c'))
      = {| conn_open := conn_open (methods c);
           conn_read := fn_raw_socket_read;
           conn_write := fn_raw_socket_write;
           conn_close := fn_raw_socket_close;
           conn_poll := fn_raw_socket_poll |})
  \/ (0 = -1 /\ methods c' = methods c
      /\ (sockdata c = false -> sockdata c' = false)).
Proof.
  intros g t c c'.
  apply (failed_starttls_leaves_the_wiring g t c 0 c'). reflexivity.
Defined.

(** ** tls_socket_write *)

Lemma to_int_small (z : Z) : - 2 ^ 31 <= z < 2 ^ 31 -> to_int z = z.
Proof. intros H. unfold to_int. rewrite Z.mod_small; lia. Qed.

Lemma to_size_t_small (z : Z) : 0 <= z < 2 ^ 64 -> to_size_t z = z.
Proof. intros H. unfold to_size_t. apply Z.mod_small. lia. Qed.

Lemma skipn_firstn_step (A : Type) (l : list A) (sent ret : Z) :
  0 <= sent -> 0 <= ret ->
  skipn (Z.to_nat sent) l
  = (firstn (Z.to_nat ret) (skipn (Z.to_nat sent) l)
     ++ skipn (Z.to_nat (sent + ret)) l)%list.
Proof.
  intros Hs Hr. rewrite Z2Nat.inj_add by lia.
  rewrite (Nat.add_comm (Z.to_nat sent)), <- skipn_skipn.
  symmetry. apply firstn_skipn.
Qed.

(** the loops of [tls_socket_write] with a library that keeps within what it
    is asked for: all of the rest of [buf] is taken and [count] is returned,
    or -1 is returned with an error message after a part of the rest was
    taken *)
Lemma record_send_loop_spec (answers : list (Z -> Z)) (buf : list byte) :
  forall (sent : Z) (c : Conn) (rc : Z) (c' : Conn),
  let count := Z.of_nat (List.length buf) in
  count < 2 ^ 31 ->
  0 <= sent <= count ->
  Forall send_in_bounds answers ->
  record_send_loop answers buf count sent c = Some (rc, c') ->
  sockdata c' = sockdata c /\ world c' = world c /\
  exists taken rest,
    skipn (Z.to_nat sent) buf = (taken ++ rest)%list
    /\ wire (peer c') = (wire (peer c) ++ taken)%list
    /\ ((rc = count /\ rest = [] /\ log c' = log c)
        \/ (rc = -1 /\ log c' = (log c ++ [CeError "tls_socket_write"])%list)).
Proof.
  cbv zeta.
  induction answers as [|send answers IH]; intros sent c rc c' Hc Hs Hall H;
    [discriminate|].
  inversion Hall as [|? ? Hsend Hrest]; subst.
  cbn [record_send_loop] in H.
  set (count := Z.of_nat (List.length buf)) in *.
  rewrite (to_size_t_small (count - sent)) in H by lia.
  specialize (Hsend (count - sent) ltac:(lia)).
  set (r := send (count - sent)) in *.
  rewrite (to_int_small r) in H by lia.
  destruct ((r =? GnutlsE.AGAIN) || (r =? GnutlsE.INTERRUPTED)).
  { apply IH in H; [|lia | lia | exact Hrest]. exact H. }
  destruct (Z.ltb_spec r 0) as [Hneg | Hpos].
  { inversion H; subst; clear H. cbn. split; [reflexivity|].
    split; [reflexivity|]. exists [], (skipn (Z.to_nat sent) buf).
    split; [reflexivity|]. split; [now rewrite app_nil_r|]. now right. }
  rewrite (to_size_t_small (sent + r)) in H by lia.
  destruct (Z.ltb_spec (sent + r) count) as [Hlt | Hge].
  - apply IH in H; [|lia | lia | exact Hrest].
    destruct H as (S1 & S2 & taken & rest & Hsk & Hw & Hres).
    split; [exact S1|]. split; [exact S2|].
    exists (firstn (Z.to_nat r) (skipn (Z.to_nat sent) buf) ++ taken)%list, rest.
    split; [rewrite <- app_assoc, <- Hsk; apply skipn_firstn_step; lia|].
    split; [rewrite Hw; cbn; now rewrite <- app_assoc|]. exact Hres.
  - assert (Hr : sent + r = count) by lia.
    rewrite to_int_small in H by lia.
    inversion H; subst; clear H. cbn. split; [reflexivity|].
    split; [reflexivity|].
    exists (skipn (Z.to_nat sent) buf), [].
    split; [now rewrite app_nil_r|].
    split; [|left; auto].
    f_equal. apply firstn_all2. rewrite length_skipn. lia.
Qed.

(** X18.  With a library that takes at most what it is asked to send,
    [tls_socket_write] on a connection with TLS data either returns the
    length of the buffer, after the library took the bytes of the buffer in
    order, each once, and nothing else; or it returns -1 with an error
    message, after the library took some first part of the buffer.  Calls
    the library wants tried again are tried again and send nothing. *)
Theorem write_sends_the_buffer_in_order (c : Conn) (buf : list byte)
    (rc : Z) (c' : Conn) :
  sockdata c = true ->
  Z.of_nat (List.length buf) < 2 ^ 31 ->
  Forall send_in_bounds (sends (peer c)) ->
  tls_socket_write c buf = Some (rc, c') ->
  (rc = Z.of_nat (List.length buf)
   /\ wire (peer c') = (wire (peer c) ++ buf)%list
   /\ log c' = log c)
  \/ (rc = -1
      /\ (exists taken rest,
            buf = (taken ++ rest)%list
            /\ wire (peer c') = (wire (peer c) ++ taken)%list)
      /\ log c' = (log c ++ [CeError "tls_socket_write"])%list).
Proof.
  intros Hs Hc Hall. unfold tls_socket_write. rewrite Hs. cbn [negb].
  intros H. apply record_send_loop_spec in H; [|lia | lia | exact Hall].
  destruct H as (_ & _ & taken & rest & Hsk & Hw & [(-> & -> & Hl) | (-> & Hl)]);
    cbn [Z.to_nat skipn] in Hsk.
  - left. rewrite app_nil_r in Hsk. subst taken. auto.
  - right. split; [reflexivity|]. split; [|exact Hl]. now exists taken, rest.
Qed.

(** the loops of [tls_socket_write] with a library that never fails and
    makes headway *)
Lemma record_send_loop_returns (answers : list (Z -> Z)) (buf : list byte) :
  forall (sent : Z) (c : Conn),
  let count := Z.of_nat (List.length buf) in
  count < 2 ^ 31 ->
  0 <= sent <= count ->
  Forall (fun send => send_in_bounds send /\ send_makes_headway send) answers ->
  (1 <= List.length answers)%nat ->
  (Z.to_nat (count - sent) <= List.length answers)%nat ->
  exists c', record_send_loop answers buf count sent c = Some (count, c').
Proof.
  cbv zeta.
  induction answers as [|send answers IH]; intros sent c Hc Hs Hall H1 Hlen;
    [cbn in H1; lia|].
  inversion Hall as [|? ? [Hb Hh] Hrest]; subst.
  cbn [record_send_loop].
  set (count := Z.of_nat (List.length buf)) in *.
  rewrite (to_size_t_small (count - sent)) by lia.
  specialize (Hb (count - sent) ltac:(lia)).
  specialize (Hh (count - sent) ltac:(lia)).
  set (r := send (count - sent)) in *.
  rewrite (to_int_small r) by lia.
  destruct Hh as [Hh0 Hh1].
  assert ((r =? GnutlsE.AGAIN) = false) as ->
    by (apply Z.eqb_neq; unfold GnutlsE.AGAIN; lia).
  assert ((r =? GnutlsE.INTERRUPTED) = false) as ->
    by (apply Z.eqb_neq; unfold GnutlsE.INTERRUPTED; lia).
  cbn [orb].
  destruct (Z.ltb_spec r 0) as [Hneg | _]; [lia|].
  rewrite (to_size_t_small (sent + r)) by lia.
  destruct (Z.ltb_spec (sent + r) count) as [Hlt | Hge].
  - apply IH; [lia | lia | exact Hrest | |];
      cbn [List.length] in Hlen; specialize (Hh1 ltac:(lia)); lia.
  - assert (Hr : sent + r = count) by lia.
    rewrite to_int_small by lia. rewrite Hr. eauto.
Qed.

(** X19.  With a library that never fails and takes at least one byte
    whenever it is asked to send one or more, [tls_socket_write] returns:
    as many answers of the library as the buffer has bytes (one for an empty
    buffer) are enough, the value returned is the length of the buffer, and
    the library took the buffer as it is. *)
Theorem write_returns_the_length (c : Conn) (buf : list byte) :
  sockdata c = true ->
  Z.of_nat (List.length buf) < 2 ^ 31 ->
  Forall (fun send => send_in_bounds send /\ send_makes_headway send)
         (sends (peer c)) ->
  (Nat.max 1 (List.length buf) <= List.length (sends (peer c)))%nat ->
  exists c',
    tls_socket_write c buf = Some (Z.of_nat (List.length buf), c')
    /\ wire (peer c') = (wire (peer c) ++ buf)%list
    /\ log c' = log c.
Proof.
  intros Hs Hc Hall Hlen.
  destruct (record_send_loop_returns (sends (peer c)) buf 0 c Hc
              ltac:(lia) Hall ltac:(lia) ltac:(lia)) as [c' H].
  exists c'. unfold tls_socket_write. rewrite Hs. cbn [negb].
  split; [exact H|].
  apply record_send_loop_spec in H;
    [|lia | lia | eapply Forall_impl; [|exact Hall]; cbn; tauto].
  destruct H as (_ & _ & taken & rest & Hsk & Hw & [(_ & -> & Hl) | (E & _)]);
    [|lia].
  cbn [Z.to_nat skipn] in Hsk. rewrite app_nil_r in Hsk. subst taken. auto.
Qed.

Lemma sample_sends_in_bounds :
  Forall (fun send => send_in_bounds send /\ send_makes_headway send)
         (repeat (fun asked => Z.min asked 3) 8).
Proof.
  apply Forall_forall. intros send Hin. apply repeat_spec in Hin. subst send.
  split; intros asked Ha; lia.
Qed.

Lemma write_sends_the_buffer_in_order_witness :
  let c := set_sockdata true SampleConn.conn in
  let buf := [x01; x02; x03; x04; x05; x06; x07] in
  let c' := match tls_socket_write c buf with
            | Some (_, c') => c'
            | None => c
            end in
  (7 = Z.of_nat (List.length buf)
   /\ wire (peer c') = (wire (peer c) ++ buf)%list
   /\ log c' = log c)
  \/ (7 = -1
      /\ (exists taken rest,
            buf = (taken ++ rest)%list
            /\ wire (peer c') = (wire (peer c) ++ taken)%list)
      /\ log c' = (log c ++ [CeError "tls_socket_write"])%list).
Proof.
  intros c buf c'.
  apply (write_sends_the_buffer_in_order c buf 7 c').
  - reflexivity.
  - cbn. lia.
  - apply Forall_cons; [intros asked Ha; unfold GnutlsE.AGAIN; lia|].
    eapply Forall_impl; [|exact sample_sends_in_bounds]. cbn. tauto.
  - reflexivity.
Defined.

Lemma write_returns_the_length_witness :
  let c := set_peer (set_sends (repeat (fun asked => Z.min asked 3) 8)
                       SampleConn.other_end)
             (set_sockdata true SampleConn.conn) in
  let buf := [x01; x02; x03; x04; x05; x06; x07] in
  exists c',
    tls_socket_write c buf = Some (Z.of_nat (List.length buf), c')
    /\ wire (peer c') = (wire (peer c) ++ buf)%list
    /\ log c' = log c.
Proof.
  intros c buf.
  apply (write_returns_the_length c buf).
  - reflexivity.
  - cbn. lia.
  - exact sample_sends_in_bounds.
  - cbn. lia.
Defined.

(** ** tls_socket_read *)

Lemma record_recv_loop_skips (retries : list (Z -> Z)) (recv : Z -> Z)
    (rest : list (Z -> Z)) (count : Z) :
  Forall (fun f => to_int (f count) = GnutlsE.AGAIN
                   \/ to_int (f count) = GnutlsE.INTERRUPTED) retries ->
  to_int (recv count) <> GnutlsE.AGAIN ->
  to_int (recv count) <> GnutlsE.INTERRUPTED ->
  forall c,
  record_recv_loop (retries ++ recv :: rest) count c
  = Some (to_int (recv count), set_peer (set_recvs rest (peer c)) c).
Proof.
  intros Hall Ha Hi.
  induction Hall as [|f retries Hf Hall IH]; intros c; cbn [app record_recv_loop].
  - apply Z.eqb_neq in Ha, Hi. now rewrite Ha, Hi.
  - assert (((to_int (f count) =? GnutlsE.AGAIN)
             || (to_int (f count) =? GnutlsE.INTERRUPTED)) = true) as ->
      by (destruct Hf as [-> | ->]; reflexivity).
    rewrite IH. reflexivity.
Qed.

(** X20.  [tls_socket_read] on a connection with TLS data tries again as
    long as the library answers with [GNUTLS_E_AGAIN] or
    [GNUTLS_E_INTERRUPTED]; the first other answer decides: a negative one
    is turned into -1 with an error message, any other is returned as it
    is.  With a library that gives at most what is asked for, the value
    returned is -1 or lies between 0 and [count]. *)
Theorem read_tries_again_until_an_answer (c : Conn) (count : Z)
    (retries : list (Z -> Z)) (recv : Z -> Z) (rest : list (Z -> Z)) :
  sockdata c = true ->
  recvs (peer c) = (retries ++ recv :: rest)%list ->
  Forall (fun f => to_int (f count) = GnutlsE.AGAIN
                   \/ to_int (f count) = GnutlsE.INTERRUPTED) retries ->
  to_int (recv count) <> GnutlsE.AGAIN ->
  to_int (recv count) <> GnutlsE.INTERRUPTED ->
  let rc := to_int (recv count) in
  exists c',
    tls_socket_read c count = Some (if rc <? 0 then -1 else rc, c')
    /\ recvs (peer c') = rest
    /\ log c' = (if rc <? 0 then log c ++ [CeError "tls_socket_read"]
                 else log c)%list
    /\ (0 <= count < 2 ^ 31 -> send_in_bounds recv ->
        (if rc <? 0 then -1 else rc) = -1
        \/ 0 <= (if rc <? 0 then -1 else rc) <= count).
Proof.
  intros Hs Hr Hall Ha Hi. cbv zeta. unfold tls_socket_read.
  rewrite Hs, Hr. cbn [negb].
  rewrite (record_recv_loop_skips retries recv rest count Hall Ha Hi).
  destruct (Z.ltb_spec (to_int (recv count)) 0) as [Hneg | Hpos];
    eexists; (split; [reflexivity|]); cbn; (split; [reflexivity|]);
    (split; [reflexivity|]); intros Hc Hb; [now left|].
  right. specialize (Hb count ltac:(lia)).
  rewrite to_int_small in * by lia. lia.
Qed.

Lemma read_tries_again_until_an_answer_witness :
  let c := set_sockdata true SampleConn.conn in
  exists c',
    tls_socket_read c 5 = Some (5, c')
    /\ recvs (peer c') = []
    /\ log c' = log c
    /\ (0 <= 5 < 2 ^ 31 -> send_in_bounds (fun asked => asked) ->
        5 = -1 \/ 0 <= 5 <= 5).
Proof.
  intros c.
  apply (read_tries_again_until_an_answer c 5
           [fun _ => GnutlsE.INTERRUPTED] (fun asked => asked) []).
  - reflexivity.
  - reflexivity.
  - apply Forall_cons; [now right | apply Forall_nil].
  - discriminate.
  - discriminate.
Defined.

(** ** tls_init, mutt_ssl_socket_setup *)

(** X21.  [mutt_ssl_socket_setup] wires the connection to the five TLS
    functions exactly when [tls_init] succeeds; when [gnutls_global_init]
    fails it returns -1, the wiring is as before, and the library is still
    marked as not set up, so that the next call tries again.  After a
    successful call, any further call returns 0 without a call to
    [gnutls_global_init] and changes nothing. *)
Theorem socket_setup_initialises_once (t : Tls) (c : Conn) (rc : Z) (c1 : Conn) :
  mutt_ssl_socket_setup t c = (rc, c1) ->
  (rc = 0 /\ init_complete c1 = true
   /\ methods c1 = {| conn_open := fn_tls_socket_open;
                      conn_read := fn_tls_socket_read;
                      conn_write := fn_tls_socket_write;
                      conn_close := fn_tls_socket_close;
                      conn_poll := fn_tls_socket_poll |}
   /\ forall t2, mutt_ssl_socket_setup t2 c1 = (0, c1))
  \/ (rc = -1 /\ init_complete c1 = false /\ methods c1 = methods c
      /\ gnutls_global_init t < 0
      /\ In CeGlobalInit (log c1)).
Proof.
  unfold mutt_ssl_socket_setup, tls_init.
  destruct (init_complete c) eqn:I.
  - cbn. intros [= <- <-]. left. cbn. rewrite I. repeat split.
  - destruct (Z.ltb_spec (gnutls_global_init t) 0) as [Hneg | Hpos]; cbn;
      intros [= <- <-].
    + right. cbn. repeat split; auto. rewrite !in_app_iff. cbn. tauto.
    + left. cbn. repeat split.
Qed.

Lemma socket_setup_initialises_once_witness :
  let t := SampleConn.tls true in
  let c := SampleConn.conn in
  let c1 := snd (mutt_ssl_socket_setup t c) in
  (0 = 0 /\ init_complete c1 = true
   /\ methods c1 = {| conn_open := fn_tls_socket_open;
                      conn_read := fn_tls_socket_read;
                      conn_write := fn_tls_socket_write;
                      conn_close := fn_tls_socket_close;
                      conn_poll := fn_tls_socket_poll |}
   /\ forall t2, mutt_ssl_socket_setup t2 c1 = (0, c1))
  \/ (0 = -1 /\ init_complete c1 = false /\ methods c1 = methods c
      /\ gnutls_global_init t < 0
      /\ In CeGlobalInit (log c1)).
Proof.
  intros t c c1.
  apply (socket_setup_initialises_once t c 0 c1). reflexivity.
Defined.

(** ** Keys and answers in the dialog *)

Lemma certificate_dialog_ignores (g : Gnutls) (certdata : datum)
    (hostname : string) (idx certerr : Z) (keys : string)
    (stray kbd : list key_event) (w : World) :
  Forall (fun k => ignored_by keys k = true) stray ->
  certificate_dialog g certdata hostname idx certerr keys (stray ++ kbd) w
  = certificate_dialog g certdata hostname idx certerr keys kbd w.
Proof.
  induction 1 as [|k stray Hk _ IH]; [reflexivity|].
  cbn [app certificate_dialog]. unfold ignored_by in Hk.
  destruct (mutt_menu_loop keys k); try discriminate. exact IH.
Qed.

(** X22.  While the dialog for a certificate is open, keys it does not
    offer change nothing: with such keys typed first, and that includes "a"
    where "accept always" is not on offer, [tls_check_one_certificate] ends
    as it does without them. *)
Theorem stray_keys_change_nothing (g : Gnutls) (certdata : datum)
    (certstat : Z) (hostname : string) (idx len : Z) (w : World)
    (stray kbd : list key_event) :
  let pre := tls_check_preauth g (read_cert_file g w) certdata certstat
               hostname idx in
  fst (fst pre) <> 0 ->
  x509_crt_import g certdata = true ->
  keyboard w = (stray ++ kbd)%list ->
  Forall (fun k => ignored_by (menu_keys g (snd (fst pre)) (snd pre)) k = true)
         stray ->
  tls_check_one_certificate g certdata certstat hostname idx len w
  = tls_check_one_certificate g certdata certstat hostname idx len
      (set_keyboard kbd w).
Proof.
  cbv zeta. intros Hrc Hi Hk Hall. unfold tls_check_one_certificate.
  change (read_cert_file g (set_keyboard kbd w)) with (read_cert_file g w).
  destruct (tls_check_preauth g (read_cert_file g w) certdata certstat hostname idx)
    as [[rc certerr] savedcert]. cbn [fst snd] in *.
  apply Z.eqb_neq in Hrc. rewrite Hrc, Hi. cbn [negb emit keyboard set_keyboard].
  rewrite Hk, (certificate_dialog_ignores _ _ _ _ _ _ _ _ _ Hall).
  generalize (menu_keys g certerr savedcert) as keys. intros keys.
  generalize (EvDialog idx len certerr savedcert keys) as ev. intros ev.
  assert (Hsame : forall kbd0 w1 w2,
             cert_file w1 = cert_file w2 -> xcred w1 = xcred w2 ->
             disk w1 = disk w2 -> trace w1 = trace w2 ->
             certificate_dialog g certdata hostname idx certerr keys kbd0 w1
             = certificate_dialog g certdata hostname idx certerr keys kbd0 w2).
  { induction kbd0 as [|k kbd0 IH]; intros w1 w2 H1 H2 H3 H4; [reflexivity|].
    cbn [certificate_dialog]. unfold set_keyboard, emit.
    rewrite H1, H2, H3, H4.
    destruct (mutt_menu_loop keys k) as [| |[|[|[|[|n]]]]|];
      try reflexivity; apply IH; assumption. }
  rewrite (Hsame kbd (emit ev w) (emit ev (set_keyboard kbd w)));
    reflexivity.
Qed.

Lemma stray_keys_change_nothing_witness :
  let g := Sample.session "mail.example.org" [Sample.leaf]
             (fun _ => true) true Sample.needs_root in
  let w := Sample.world None [KeyOther; KeyChar "a"; KeyChar "x"; KeyChar "o"] [] in
  tls_check_one_certificate g Sample.leaf (Sample.needs_root [])
    "mail.example.org" 0 1 w
  = tls_check_one_certificate g Sample.leaf (Sample.needs_root [])
      "mail.example.org" 0 1 (set_keyboard [KeyChar "o"] w).
Proof.
  intros g w.
  apply (stray_keys_change_nothing g Sample.leaf (Sample.needs_root [])
           "mail.example.org" 0 1 w [KeyOther; KeyChar "a"; KeyChar "x"]
           [KeyChar "o"]).
  - discriminate.
  - reflexivity.
  - reflexivity.
  - repeat (apply Forall_cons; [reflexivity|]). apply Forall_nil.
Defined.

(** X23.  Only "accept always" is remembered.  When the dialog is answered
    with "o" (accept once), "r" (reject), the exit key or a lost input,
    [tls_check_one_certificate] returns 1 for "o" and 0 for the others,
    takes that one key, and leaves the certificate file and the trust set
    as they were; so the next check of the same certificate finds what this
    one found, and the dialog opens again. *)
Theorem accept_once_is_not_remembered (g : Gnutls) (certdata : datum)
    (certstat : Z) (hostname : string) (idx len : Z) (w : World)
    (k : key_event) (keys : list key_event) :
  let pre := tls_check_preauth g (read_cert_file g w) certdata certstat
               hostname idx in
  fst (fst pre) <> 0 ->
  x509_crt_import g certdata = true ->
  keyboard w = k :: keys ->
  k = KeyChar "o" \/ k = KeyChar "r" \/ k = KeyExit \/ k = KeyAbort ->
  exists w1,
    tls_check_one_certificate g certdata certstat hostname idx len w
    = Some (match k with KeyChar "o" => 1 | _ => 0 end, w1)
    /\ cert_file w1 = cert_file w
    /\ xcred w1 = xcred w
    /\ keyboard w1 = keys
    /\ tls_check_preauth g (read_cert_file g w1) certdata certstat hostname idx
       = pre.
Proof.
  cbv zeta. intros Hrc Hi Hk Hans. unfold tls_check_one_certificate.
  destruct (tls_check_preauth g (read_cert_file g w) certdata certstat hostname idx)
    as [[rc certerr] savedcert] eqn:Hpre. cbn [fst snd] in *.
  apply Z.eqb_neq in Hrc. rewrite Hrc, Hi. cbn [negb emit keyboard].
  rewrite Hk.
  assert (Hro : forall c, c = "r"%char \/ c = "o"%char ->
             key_offset c (menu_keys g certerr savedcert)
             = if Ascii.eqb c "r" then Some 0%nat else Some 1%nat).
  { intros c [-> | ->]; destruct (menu_keys_cases g certerr savedcert) as [-> | ->];
      reflexivity. }
  destruct Hans as [-> | [-> | [-> | ->]]];
    cbn [certificate_dialog mutt_menu_loop];
    rewrite ?(Hro "o"%char), ?(Hro "r"%char) by auto;
    cbn [Ascii.eqb Bool.eqb Z.eqb];
    eexists; (split; [reflexivity|]); cbn;
    (split; [reflexivity|]); (split; [reflexivity|]); (split; [reflexivity|]);
    exact Hpre.
Qed.

Lemma accept_once_is_not_remembered_witness :
  let g := Sample.session "mail.example.org" [Sample.leaf]
             Sample.never true Sample.needs_root in
  let w := Sample.world None [KeyChar "o"; KeyChar "r"] [] in
  let pre := tls_check_preauth g (read_cert_file g w) Sample.leaf
               (Sample.needs_root []) "mail.example.org" 0 in
  exists w1,
    tls_check_one_certificate g Sample.leaf (Sample.needs_root [])
      "mail.example.org" 0 1 w = Some (1, w1)
    /\ cert_file w1 = cert_file w
    /\ xcred w1 = xcred w
    /\ keyboard w1 = [KeyChar "r"]
    /\ tls_check_preauth g (read_cert_file g w1) Sample.leaf
         (Sample.needs_root []) "mail.example.org" 0
       = pre.
Proof.
  intros g w pre.
  apply (accept_once_is_not_remembered g Sample.leaf (Sample.needs_root [])
           "mail.example.org" 0 1 w (KeyChar "o") [KeyChar "r"]).
  - discriminate.
  - reflexivity.
  - reflexivity.
  - now left.
Defined.

(** ** The first loop *)

(** the first loop of [tls_check_certificate] with [preauthrc] as it stands
    before the certificate at [i] *)
Lemma preauth_walk_saved_iff (g : Gnutls) (file : option string) (certstat : Z)
    (certs : list datum) :
  forall (i preauthrc rcpeer rc : Z),
  preauthrc <= 0 ->
  preauth_walk g file certstat certs i preauthrc rcpeer rc = SavedAndClean
  <-> preauthrc = 0
      /\ exists (j : nat) (saved : datum),
           nth_error certs j = Some saved
           /\ snd (tls_check_preauth g file saved certstat (account_host g)
                     (i + Z.of_nat j)) <> 0
           /\ forall (k : nat) (c : datum),
                (k <= j)%nat -> nth_error certs k = Some c ->
                let pre := tls_check_preauth g file c certstat (account_host g)
                             (i + Z.of_nat k) in
                fst (fst pre) = 0 /\ ((k < j)%nat -> snd pre = 0).
Proof.
  induction certs as [|certdata above IH]; intros i preauthrc rcpeer rc Hp.
  - cbn. split; [discriminate|]. intros (_ & [|j] & saved & H & _); discriminate.
  - cbn [preauth_walk].
    destruct (tls_check_preauth g file certdata certstat (account_host g) i)
      as [[prc certerr] savedcert] eqn:Hpre.
    destruct (preauth_rc_zero _ _ _ _ _ _ _ _ _ Hpre) as [_ Hprc].
    destruct (Z.eqb_spec savedcert 0) as [Hs | Hs]; cbn [negb].
    + (* not in the file: on to the next one *)
      rewrite IH by lia. split.
      * intros (Hz & j & saved & Hn & Hsv & Hall).
        assert (prc = 0) by lia. split; [lia|].
        exists (S j), saved. split; [exact Hn|].
        split; [now replace (i + Z.of_nat (S j)) with (i + 1 + Z.of_nat j) by lia|].
        intros [|k] c Hk Hc; cbv zeta.
        -- cbn in Hc. inversion Hc; subst c.
           rewrite Z.add_0_r, Hpre. cbn. auto.
        -- replace (i + Z.of_nat (S k)) with (i + 1 + Z.of_nat k) by lia.
           destruct (Hall k c ltac:(lia) Hc) as [A B]. split; [exact A|].
           intros Hlt. apply B. lia.
      * intros (Hz & j & saved & Hn & Hsv & Hall).
        destruct (Hall 0%nat certdata ltac:(lia) eq_refl) as [A _].
        rewrite Z.add_0_r, Hpre in A. cbn in A.
        destruct j as [|j].
        { cbn in Hn. inversion Hn; subst saved.
          rewrite Z.add_0_r, Hpre in Hsv. cbn in Hsv. contradiction. }
        split; [lia|]. exists j, saved. split; [exact Hn|].
        split; [now replace (i + 1 + Z.of_nat j) with (i + Z.of_nat (S j)) by lia|].
        intros k c Hk Hc. cbv zeta.
        replace (i + 1 + Z.of_nat k) with (i + Z.of_nat (S k)) by lia.
        destruct (Hall (S k) c ltac:(lia) Hc) as [A' B']. split; [exact A'|].
        intros Hlt. apply B'. lia.
    + (* in the file: the loop ends here *)
      destruct (Z.eqb_spec (preauthrc + prc) 0) as [Hz | Hz].
      * split; [intros _|reflexivity].
        split; [lia|]. exists 0%nat, certdata. split; [reflexivity|].
        rewrite Z.add_0_r, Hpre. split; [exact Hs|].
        intros k c Hk Hc. assert (k = 0%nat) by lia. subst k.
        cbn in Hc. inversion Hc; subst c. cbv zeta.
        rewrite Z.add_0_r, Hpre. cbn. split; [lia | lia].
      * split; [discriminate|].
        intros (Hz' & j & saved & Hn & Hsv & Hall).
        destruct (Hall 0%nat certdata ltac:(lia) eq_refl) as [A B].
        rewrite Z.add_0_r, Hpre in A, B. cbn in A, B. lia.
Qed.

(** X24.  The first loop of [tls_check_certificate] accepts the chain
    without a dialog exactly when, from the leaf up, it comes to a
    certificate that is in the certificate file, and [tls_check_preauth]
    returned 0 for that certificate and for every one below it; the
    certificates above the first one found in the file are not looked
    at. *)
Theorem first_loop_accepts_iff (g : Gnutls) (file : option string)
    (certstat : Z) (certs : list datum) :
  preauth_walk g file certstat certs 0 0 (-1) 0 = SavedAndClean
  <-> exists (j : nat) (saved : datum),
        nth_error certs j = Some saved
        /\ snd (tls_check_preauth g file saved certstat (account_host g)
                  (Z.of_nat j)) <> 0
        /\ forall (k : nat) (c : datum),
             (k <= j)%nat -> nth_error certs k = Some c ->
             let pre := tls_check_preauth g file c certstat (account_host g)
                          (Z.of_nat k) in
             fst (fst pre) = 0 /\ ((k < j)%nat -> snd pre = 0).
Proof.
  rewrite (preauth_walk_saved_iff g file certstat certs 0 0 (-1) 0) by lia.
  split; [intros (_ & H); exact H | intros H; split; [reflexivity | exact H]].
Qed.

(** ** The order of the dialogs *)

Lemma dialog_positions_app (a b : list event) :
  dialog_positions (a ++ b) = (dialog_positions a ++ dialog_positions b)%list.
Proof.
  induction a as [|ev a IH]; [reflexivity|].
  destruct ev; cbn [app dialog_positions]; now rewrite IH.
Qed.

Lemma dialog_positions_below (n : nat) (evs : list event) :
  Forall (pos_below n) evs ->
  Forall (fun p => 0 <= p < Z.of_nat n) (dialog_positions evs).
Proof.
  induction 1 as [|ev evs Hev _ IH]; [constructor|].
  destruct ev; cbn [dialog_positions]; try exact IH.
  constructor; [exact Hev | exact IH].
Qed.

Lemma dialog_positions_none (evs : list event) :
  Forall (fun ev => asks_user ev = false) evs -> dialog_positions evs = [].
Proof.
  induction 1 as [|ev evs Hev _ IH]; [reflexivity|].
  destruct ev; cbn [dialog_positions]; try exact IH. discriminate.
Qed.

Lemma check_one_events_dialogs (g : Gnutls) (idx len certerr savedcert prc rc : Z)
    (new : list event) :
  check_one_events g idx len certerr savedcert prc rc new ->
  dialog_positions new = [] \/ dialog_positions new = [idx].
Proof.
  intros [(_ & _ & ->) | [(_ & _ & msg & ->) | (_ & d & tail & -> & Ho)]];
    [now left | now left |].
  right. cbn [dialog_positions]. f_equal.
  destruct d; cbn in Ho.
  - destruct Ho as [_ ->]. reflexivity.
  - destruct Ho as [_ ->]. reflexivity.
  - destruct Ho as (_ & _ & saves & msg & -> & Hs & Hm).
    rewrite dialog_positions_app.
    assert (dialog_positions saves = []) as ->.
    { clear Hm. induction Hs as [|ev saves Hev _ IH]; [reflexivity|].
      destruct ev; cbn in Hev; try contradiction. exact IH. }
    destruct Hm as [-> | ->]; reflexivity.
Qed.

(** the dialogs of the second loop *)
Lemma interactive_walk_dialogs (g : Gnutls) (len rcpeer : Z) (certs : list datum) :
  forall (certstat rc0 : Z) (w : World) (rc : Z) (w' : World),
  interactive_walk g len rcpeer certs certstat rc0 w = Some (rc, w') ->
  exists new,
    trace w' = (trace w ++ new)%list
    /\ StronglySorted Z.gt (dialog_positions new)
    /\ Forall (fun p => 0 <= p < Z.of_nat (List.length certs))
              (dialog_positions new).
Proof.
  induction certs as [|certdata below IH]; intros certstat rc0 w rc w' H.
  - inversion H; subst. exists []. rewrite app_nil_r.
    split; [reflexivity|]. split; constructor.
  - cbn [interactive_walk] in H.
    destruct (tls_check_one_certificate g certdata certstat (account_host g)
                (Z.of_nat (List.length below)) len w) as [[rc1 w1]|] eqn:C;
      [|discriminate].
    apply check_one_certificate_events in C as (_ & new1 & Ht1 & _ & Hs1).
    destruct (tls_check_preauth _ _ _ _ _ _) as [[prc certerr] savedcert].
    apply check_one_events_dialogs in Hs1.
    assert (Hstep : forall mid new2,
               dialog_positions mid = [] ->
               StronglySorted Z.gt (dialog_positions new2) ->
               Forall (fun p => 0 <= p < Z.of_nat (List.length below))
                      (dialog_positions new2) ->
               StronglySorted Z.gt (dialog_positions (new1 ++ mid ++ new2))
               /\ Forall (fun p => 0 <= p < Z.of_nat (List.length (certdata :: below)))
                         (dialog_positions (new1 ++ mid ++ new2))).
    { intros mid new2 Hmid Hsort Hbelow.
      rewrite !dialog_positions_app, Hmid. cbn [app].
      assert (Hb' : Forall (fun p => 0 <= p < Z.of_nat (List.length (certdata :: below)))
                           (dialog_positions new2)).
      { eapply Forall_impl; [|exact Hbelow]. cbn [List.length]. intros p. cbn beta. lia. }
      destruct Hs1 as [-> | ->]; cbn [app]; [now split|].
      split.
      - constructor; [exact Hsort|].
        eapply Forall_impl; [|exact Hbelow]. intros p. cbn beta. lia.
      - constructor; [cbn [List.length]; lia | exact Hb']. }
    destruct (negb (Z.of_nat (List.length below) =? 0) && negb (rc1 =? 0)).
    + destruct (certificate_set_x509_trust_mem g (xcred w1) certdata)
        as [anchors r].
      set (w2 := emit (EvTrust (Z.of_nat (List.length below)) r)
                   (set_xcred anchors w1)) in H.
      pose proof (tls_verify_peers_events g w2) as (_ & _ & _ & _ & msgs & Vt & Vm).
      destruct (tls_verify_peers g w2) as [st w3]. cbn [fst snd] in *.
      set (T := (EvTrust (Z.of_nat (List.length below)) r
                   :: msgs ++ [EvVerify st])%list) in *.
      assert (HT : dialog_positions T = [])
        by (unfold T; destruct Vm as [-> | [msg ->]]; reflexivity).
      assert (Ht3 : trace w3 = (trace w ++ new1 ++ T)%list).
      { rewrite Vt. unfold w2, T. cbn. rewrite Ht1, <- !app_assoc. reflexivity. }
      destruct ((st =? 0) && (rcpeer =? 0)).
      * inversion H; subst. exists (new1 ++ T ++ [])%list.
        split; [now rewrite app_nil_r|].
        apply Hstep; [exact HT | constructor | constructor].
      * apply IH in H as (new2 & Ht & Hsort & Hbelow).
        exists (new1 ++ T ++ new2)%list.
        split; [rewrite Ht, Ht3, <- !app_assoc; reflexivity|].
        now apply Hstep.
    + apply IH in H as (new2 & Ht & Hsort & Hbelow).
      exists (new1 ++ [] ++ new2)%list.
      split; [rewrite Ht, Ht1, <- app_assoc; reflexivity|].
      now apply Hstep.
Qed.

(** X25.  In a run of [tls_check_certificate] the user is asked about a
    certificate of the chain at most once, and the dialogs come from the
    root down: the positions of the dialogs, in the order in which they
    open, are strictly decreasing and lie within the chain. *)
Theorem dialogs_go_down_the_chain (g : Gnutls) (w : World) (rc : Z)
    (w' : World) (new : list event) :
  tls_check_certificate g w = Some (rc, w') ->
  trace w' = (trace w ++ new)%list ->
  StronglySorted Z.gt (dialog_positions new)
  /\ Forall (fun p => 0 <= p < Z.of_nat (List.length (certificate_get_peers g)))
            (dialog_positions new).
Proof.
  intros H Ht.
  assert (exists new',
             trace w' = (trace w ++ new')%list
             /\ StronglySorted Z.gt (dialog_positions new')
             /\ Forall (fun p => 0 <= p
                                 < Z.of_nat (List.length (certificate_get_peers g)))
                       (dialog_positions new')) as (new' & Ht' & Hs & Hb).
  { revert H. unfold tls_check_certificate.
    destruct (auth_is_certificate g); cbn [negb].
    2:{ intros [= <- <-]. exists [EvError "Unable to get certificate from peer"].
        split; [reflexivity|]. split; constructor. }
    pose proof (tls_verify_peers_events g w) as (_ & _ & _ & _ & msgs & Vt & Vm).
    destruct (tls_verify_peers g w) as [certstat w0]. cbn [fst snd] in *.
    set (V := (msgs ++ [EvVerify certstat])%list) in *.
    assert (HV : dialog_positions V = [])
      by (unfold V; destruct Vm as [-> | [msg ->]]; reflexivity).
    destruct (certificate_get_peers g) as [|leaf above] eqn:P.
    - intros [= <- <-].
      exists (V ++ [EvError "Unable to get certificate from peer"])%list.
      split; [cbn; rewrite Vt; now rewrite <- app_assoc|].
      rewrite dialog_positions_app, HV. split; constructor.
    - destruct (preauth_walk _ _ _ _ _ _ _ _) as [|rc1 rcpeer].
      + intros [= <- <-]. exists V. split; [exact Vt|]. rewrite HV.
        split; constructor.
      + intros H. apply interactive_walk_dialogs in H as (new2 & Ht2 & Hs & Hb).
        rewrite length_rev in Hb. exists (V ++ new2)%list.
        split; [rewrite Ht2, Vt; now rewrite <- app_assoc|].
        rewrite dialog_positions_app, HV. now split. }
  rewrite Ht' in Ht. apply app_inv_head in Ht. subst new'. now split.
Qed.

Lemma dialogs_go_down_the_chain_witness :
  let g := Sample.session "mail.example.org" [Sample.leaf; Sample.root]
             Sample.never true Sample.needs_root in
  let w := Sample.world None [KeyChar "r"; KeyChar "o"] [] in
  let new := [EvVerify (Sample.needs_root []);
              EvDialog 1 2 Certerr.NOTTRUSTED 0 "roa"; EvChoice 1 Reject;
              EvDialog 0 2 Certerr.NOTTRUSTED 0 "roa"; EvChoice 0 AcceptOnce] in
  let w' := {| cert_file := None; xcred := []; keyboard := []; disk := [];
               trace := new |} in
  dialog_positions new = [1; 0]
  /\ StronglySorted Z.gt (dialog_positions new)
  /\ Forall (fun p => 0 <= p < 2) (dialog_positions new).
Proof.
  intros g w new w'. split; [reflexivity|].
  apply (dialogs_go_down_the_chain g w 1 w' new); reflexivity.
Defined.
